(** * Weather forecast web application: the data-shaping and fetching
      logic of [src/lib/weather.ts] and [src/lib/cities.ts], and the
      state handling of [src/components/cities-table.tsx]

    Conventions of the embedding.

    - A JavaScript [number] holding a measurement (temperature, pressure,
      probability of precipitation, coordinates, ...) is an exact rational
      [Q]; the infinities and NaN are outside the model, so that the only
      falsy measurement is zero. Copying, comparing, [Math.min],
      [Math.max], [Math.floor] and [Math.round] are on doubles what they
      are here. The running sum and the quotient behind [pop] are rounded
      by the program and exact here: what is stated of them is what
      rounding keeps (bounds, and the value of a single sample), never
      an equality with a sum or a mean.
    - A JavaScript [number] holding a Unix timestamp, a page number, a row
      count or an HTTP status is an integer [Z]; see [safeInteger] for
      the range in which its arithmetic and its text are those of [Z].
    - An optional property ([x?: T], or a read through [?.]) is an [option].
    - A thrown exception is the [Throw] outcome of [Completion]; code that
      touches the environment (network, clock, random numbers, console,
      process environment) runs in the state monad [IO] over [World].
      An [await] is the monad's bind; what a [fetch] yields is read off
      the world's [network]. *)

From Stdlib Require Import ZArith QArith Qround Qminmax List String Ascii Bool Lia.
From Stdlib Require Import DecimalString.
From Stdlib Require Import Sorted Permutation DecimalPos DecimalZ.
Import ListNotations.

Open Scope Z_scope.

(** ** Exceptions and completions *)

Inductive Exception : Type :=
| RangeError                      (* invalid time value, invalid array length *)
| TypeError                       (* property read on undefined *)
| FetchRejected                   (* the promise returned by fetch rejects *)
| SyntaxError                     (* response.json() on a body that is not JSON *)
| Error (message : string).       (* new Error(message) *)

Inductive Completion (A : Type) : Type :=
| Normal (a : A)
| Throw (e : Exception).

Arguments Normal {A} a.
Arguments Throw {A} e.

Definition cbind {A B} (c : Completion A) (k : A -> Completion B) : Completion B :=
  match c with
  | Normal a => k a
  | Throw e => Throw e
  end.

Declare Scope completion_scope.
Delimit Scope completion_scope with completion.
Notation "x <- c ;; k" := (cbind c (fun x => k))
  (at level 61, c at next level, right associativity) : completion_scope.

(** [cmap f l]: [l.map(f)] for a callback that may throw; the first throw
    aborts the traversal. *)
Fixpoint cmap {A B} (f : A -> Completion B) (l : list A) : Completion (list B) :=
  match l with
  | [] => Normal []
  | a :: l' =>
      cbind (f a) (fun b => cbind (cmap f l') (fun bs => Normal (b :: bs)))
  end.

(** [cfold f l acc]: [l.forEach(item => ...)] over a mutable accumulator. *)
Fixpoint cfold {A S} (f : S -> A -> Completion S) (l : list A) (acc : S) : Completion S :=
  match l with
  | [] => Normal acc
  | a :: l' => cbind (f acc a) (cfold f l')
  end.

(** ** The [Date] built-in, as far as the code uses it (ECMA-262, 21.4.1) *)

Module JSDate.

Definition msPerDay : Z := 86400000.
Definition maxTime : Z := 8640000000000000.

(** [TimeClip]: a time value beyond 8.64e15 ms is NaN (here [None]). *)
Definition TimeClip (t : Z) : option Z :=
  if Z.abs t <=? maxTime then Some t else None.

Definition Day (t : Z) : Z := t / msPerDay.

Definition DayFromYear (y : Z) : Z :=
  365 * (y - 1970) + (y - 1969) / 4 - (y - 1901) / 100 + (y - 1601) / 400.

Definition InLeapYear (y : Z) : bool :=
  ((y mod 4 =? 0) && negb (y mod 100 =? 0)) || (y mod 400 =? 0).

(** The largest year whose first day is not after day [d]: the mean
    Gregorian year has 146097/400 days, so the estimate is off by at
    most one. *)
Definition YearFromDay (d : Z) : Z :=
  let y0 := 1970 + (d * 400) / 146097 in
  if d <? DayFromYear y0 then y0 - 1
  else if DayFromYear (y0 + 1) <=? d then y0 + 1
  else y0.

(** Day within the year on which month [m] (0 = January) starts. *)
Definition MonthStart (m : Z) (leap : bool) : Z :=
  let l := if leap then 1 else 0 in
  match m with
  | 0 => 0 | 1 => 31 | 2 => 59 + l | 3 => 90 + l | 4 => 120 + l
  | 5 => 151 + l | 6 => 181 + l | 7 => 212 + l | 8 => 243 + l
  | 9 => 273 + l | 10 => 304 + l | _ => 334 + l
  end.

Definition MonthFromDayWithinYear (dwy : Z) (leap : bool) : Z :=
  if dwy <? MonthStart 1 leap then 0
  else if dwy <? MonthStart 2 leap then 1
  else if dwy <? MonthStart 3 leap then 2
  else if dwy <? MonthStart 4 leap then 3
  else if dwy <? MonthStart 5 leap then 4
  else if dwy <? MonthStart 6 leap then 5
  else if dwy <? MonthStart 7 leap then 6
  else if dwy <? MonthStart 8 leap then 7
  else if dwy <? MonthStart 9 leap then 8
  else if dwy <? MonthStart 10 leap then 9
  else if dwy <? MonthStart 11 leap then 10
  else 11.

(** The text [YYYY-MM-DD] (or [+YYYYYY-MM-DD], [-YYYYYY-MM-DD] outside
    years 0..9999) that [toISOString().split("T")[0]] yields, kept as
    its three numeric fields: the text determines them and is determined
    by them. [month] and [date] are 1-based as in the text. *)
Record IsoDate : Type := mkIsoDate { year : Z; month : Z; date : Z }.

Definition IsoDate_eqb (a b : IsoDate) : bool :=
  (year a =? year b) && (month a =? month b) && (date a =? date b).

(** Calendar date of a day number (days since 1970-01-01, UTC). *)
Definition DateFromDay (d : Z) : IsoDate :=
  let y := YearFromDay d in
  let dwy := d - DayFromYear y in
  let leap := InLeapYear y in
  let m := MonthFromDayWithinYear dwy leap in
  mkIsoDate y (m + 1) (dwy - MonthStart m leap + 1).

(** [new Date(ms).toISOString().split("T")[0]]. *)
Definition toISODate (ms : Z) : Completion IsoDate :=
  match TimeClip ms with
  | Some t => Normal (DateFromDay (Day t))
  | None => Throw RangeError
  end.

(** [MakeDay(year, month - 1, date)]. *)
Definition MakeDay (i : IsoDate) : Z :=
  DayFromYear (year i) + MonthStart (month i - 1) (InLeapYear (year i)) + date i - 1.

(** [new Date(text).getTime()] for a date-only text, which is read as
    UTC midnight. *)
Definition getTimeOfIsoDate (i : IsoDate) : Z := MakeDay i * msPerDay.

End JSDate.


(** ** Truthiness: [x || d] on numbers *)

(** [x || d] for an optional measurement: [undefined] and zero are falsy. *)
Definition orQ (x : option Q) (d : Q) : Q :=
  match x with
  | Some v => if Qeq_bool v 0 then d else v
  | None => d
  end.

(** [x || d] for an optional timestamp. *)
Definition orZ (x : option Z) (d : Z) : Z :=
  match x with
  | Some v => if v =? 0 then d else v
  | None => d
  end.

(** [a[i]] for a JavaScript array: [undefined] outside [0 .. length-1]. *)
Definition item_at {A} (a : list A) (i : Z) : option A :=
  if i <? 0 then None else nth_error a (Z.to_nat i).

Definition length_of {A} (a : list A) : Z := Z.of_nat (List.length a).

(** [Math.min(...l)] and [Math.max(...l)]; [None] is the infinity that
    the call yields on no argument. *)
Definition Math_min (l : list Q) : option Q :=
  match l with
  | [] => None
  | x :: xs => Some (fold_left Qmin xs x)
  end.

Definition Math_max (l : list Q) : option Q :=
  match l with
  | [] => None
  | x :: xs => Some (fold_left Qmax xs x)
  end.

(** ** A JavaScript object used as a map from date texts to values:
       own string keys are enumerated in insertion order *)

Section JSObject.
Context {V : Type}.

Definition JSObject : Type := list (JSDate.IsoDate * V).

(** [o[k]] *)
Fixpoint obj_get (o : JSObject) (k : JSDate.IsoDate) : option V :=
  match o with
  | [] => None
  | (k', v) :: o' => if JSDate.IsoDate_eqb k' k then Some v else obj_get o' k
  end.

(** [o[k] = v]: an existing key keeps its place, a new key goes last. *)
Fixpoint obj_set (o : JSObject) (k : JSDate.IsoDate) (v : V) : JSObject :=
  match o with
  | [] => [(k, v)]
  | (k', v') :: o' =>
      if JSDate.IsoDate_eqb k' k then (k', v) :: o' else (k', v') :: obj_set o' k v
  end.

(** [Object.entries(o)] *)
Definition Object_entries (o : JSObject) : list (JSDate.IsoDate * V) := o.
End JSObject.

Arguments JSObject V : clear implicits.

(** ** Shapes of the weather provider's records ([src/lib/weather.ts]) *)

Module Condition.
Record t : Type := mk { id : Z; main : string; description : string; icon : string }.
End Condition.

Module Main.
Record t : Type := mk {
  temp : Q; feels_like : Q; temp_min : Q; temp_max : Q; pressure : Q; humidity : Q }.
End Main.

Module Wind.
Record t : Type := mk { speed : Q; deg : Q; gust : option Q }.
End Wind.

Module Clouds.
Record t : Type := mk { all : Q }.
End Clouds.

(** [rain] and [snow]: [{ "1h"?: number, "3h"?: number }]. *)
Module Precipitation.
Record t : Type := mk { h1 : option Q; h3 : option Q }.
End Precipitation.

(** One entry of [forecastData.list] (typed [any] in the source): the
    properties that [processForecastData] reads. *)
Module ForecastItem.
Record Sys : Type := mkSys { sunrise : option Z; sunset : option Z }.
Record t : Type := mk {
  dt : Z;
  main : Main.t;
  weather : list Condition.t;
  sys : option Sys;
  wind : option Wind.t;
  clouds : option Clouds.t;
  pop : option Q;
  rain : option Precipitation.t;
  snow : option Precipitation.t }.
End ForecastItem.

Module ForecastData.
Module Temp.
Record t : Type := mk { day : Q; min : Q; max : Q; night : Q; eve : Q; morn : Q }.
End Temp.
Module FeelsLike.
Record t : Type := mk { day : Q; night : Q; eve : Q; morn : Q }.
End FeelsLike.
Record t : Type := mk {
  dt : Z;
  sunrise : Z;
  sunset : Z;
  temp : Temp.t;
  feels_like : FeelsLike.t;
  pressure : Q;
  humidity : Q;
  weather : list Condition.t;
  speed : Q;
  deg : Q;
  gust : Q;
  clouds : Q;
  pop : Q;
  rain : option Q;
  snow : option Q }.
End ForecastData.

(** ** [processForecastData] ([src/lib/weather.ts], lines 153-209) *)

Definition DailyData : Type := JSObject (list ForecastItem.t).

(** The callback of [forecastList.forEach]. *)
Definition bucketItem (dailyData : DailyData) (item : ForecastItem.t) : Completion DailyData :=
  (date <- JSDate.toISODate (ForecastItem.dt item * 1000) ;;
   let dailyData :=
     match obj_get dailyData date with
     | None => obj_set dailyData date []
     | Some _ => dailyData
     end in
   match obj_get dailyData date with
   | Some items => Normal (obj_set dailyData date (items ++ [item]))
   | None => Throw TypeError
   end)%completion.

Definition groupByDate (forecastList : list ForecastItem.t) : Completion DailyData :=
  cfold bucketItem forecastList [].

Definition tempOf (item : ForecastItem.t) : Q := Main.temp (ForecastItem.main item).
Definition feelsLikeOf (item : ForecastItem.t) : Q := Main.feels_like (ForecastItem.main item).

(** [items.reduce((sum, item) => sum + (item.pop || 0), 0)] *)
Definition sumPop (items : list ForecastItem.t) : Q :=
  fold_left (fun sum item => sum + orQ (ForecastItem.pop item) 0)%Q items 0%Q.

(** The callback of [Object.entries(dailyData).map]. On an empty [items]
    [dayForecast] is [undefined] and the read [dayForecast.sys] throws;
    only then are [Math.min(...temps)] and [Math.max(...temps)] infinite. *)
Definition processDay (entry : JSDate.IsoDate * list ForecastItem.t) : Completion ForecastData.t :=
  let '(date, items) := entry in
  let temps := map tempOf items in
  let midIndex := length_of items / 2 in
  match Math_min temps, Math_max temps, item_at items midIndex with
  | Some minTemp, Some maxTemp, Some dayForecast =>
      let pop := (sumPop items / inject_Z (length_of items))%Q in
      let last := item_at items (length_of items - 1) in
      let evening := item_at items (Z.min (length_of items - 1) (midIndex + 2)) in
      let first := item_at items 0 in
      Normal (ForecastData.mk
        (JSDate.getTimeOfIsoDate date / 1000)
        (orZ (match ForecastItem.sys dayForecast with
              | Some s => ForecastItem.sunrise s | None => None end)
             (ForecastItem.dt dayForecast))
        (orZ (match ForecastItem.sys dayForecast with
              | Some s => ForecastItem.sunset s | None => None end)
             (ForecastItem.dt dayForecast + 43200))
        (ForecastData.Temp.mk
           (tempOf dayForecast)
           minTemp
           maxTemp
           (orQ (option_map tempOf last) (tempOf dayForecast))
           (orQ (option_map tempOf evening) (tempOf dayForecast))
           (orQ (option_map tempOf first) (tempOf dayForecast)))
        (ForecastData.FeelsLike.mk
           (feelsLikeOf dayForecast)
           (orQ (option_map feelsLikeOf last) (feelsLikeOf dayForecast))
           (orQ (option_map feelsLikeOf evening) (feelsLikeOf dayForecast))
           (orQ (option_map feelsLikeOf first) (feelsLikeOf dayForecast)))
        (Main.pressure (ForecastItem.main dayForecast))
        (Main.humidity (ForecastItem.main dayForecast))
        (ForecastItem.weather dayForecast)
        (orQ (option_map Wind.speed (ForecastItem.wind dayForecast)) 0)
        (orQ (option_map Wind.deg (ForecastItem.wind dayForecast)) 0)
        (orQ (match ForecastItem.wind dayForecast with
              | Some w => Wind.gust w | None => None end) 0)
        (orQ (option_map Clouds.all (ForecastItem.clouds dayForecast)) 0)
        pop
        (Some (orQ (match ForecastItem.rain dayForecast with
                    | Some r => Precipitation.h3 r | None => None end) 0))
        (Some (orQ (match ForecastItem.snow dayForecast with
                    | Some r => Precipitation.h3 r | None => None end) 0)))
  | _, _, _ => Throw TypeError
  end.

Inductive Units : Type := metric | imperial.

Definition processForecastData (forecastList : list ForecastItem.t) (units : Units) :
  Completion (list ForecastData.t) :=
  (dailyData <- groupByDate forecastList ;;
   cmap processDay (Object_entries dailyData))%completion.


(** ** Numbers and strings: the built-ins the fetching code uses *)

Open Scope string_scope.
Open Scope list_scope.
Open Scope Z_scope.

(** String concatenation and template literals. *)
Infix "+++" := String.append (right associativity, at level 60).

(** The integers that a number holds exactly, up to 2^53 - 1 in
    absolute value. On them [+], [-] and [*] are the operations of [Z]
    as long as the result is one of them again, and [toString] prints
    every digit; beyond them the program rounds to the nearest double
    and, from 10^21 on, prints an exponent. An integer of the program
    is a [Z] here, and a statement that depends on its arithmetic or on
    its text says that the integers involved are safe. *)
Definition safeInteger (z : Z) : Prop :=
  - 9007199254740991 <= z <= 9007199254740991.

(** [n.toString()] and [`${n}`] for a safe integer [n]. *)
Definition Number_toString (n : Z) : string := NilZero.string_of_int (Z.to_int n).

(** [Math.floor(x)] and [Math.round(x)] (halves round up). *)
Definition Math_floor (x : Q) : Z := Qfloor x.
Definition Math_round (x : Q) : Z := Qfloor (x + (1 # 2)).

(** [s.replace(pattern, replacement)] for a string pattern: the first
    occurrence only. *)
Definition String_replace (s pattern replacement : string) : string :=
  match String.index 0 pattern s with
  | Some n =>
      String.substring 0 n s +++ replacement +++
      String.substring (n + String.length pattern)
                       (String.length s - (n + String.length pattern)) s
  | None => s
  end.

Definition digitValue (radix : Z) (c : ascii) : option Z :=
  let n := Z.of_nat (nat_of_ascii c) in
  let v :=
    if (48 <=? n) && (n <=? 57) then Some (n - 48)
    else if (97 <=? n) && (n <=? 122) then Some (n - 87)
    else if (65 <=? n) && (n <=? 90) then Some (n - 55)
    else None in
  match v with
  | Some d => if d <? radix then Some d else None
  | None => None
  end.

(** The value of the longest prefix of digits; [None] when it is empty. *)
Fixpoint parseDigits (radix : Z) (s : string) (acc : option Z) : option Z :=
  match s with
  | EmptyString => acc
  | String c s' =>
      match digitValue radix c with
      | Some d => parseDigits radix s' (Some (match acc with Some a => a * radix + d | None => d end))
      | None => acc
      end
  end.

Definition isWhiteSpace (c : ascii) : bool :=
  let n := nat_of_ascii c in
  (Nat.eqb n 32 || Nat.eqb n 9 || Nat.eqb n 10 || Nat.eqb n 11 || Nat.eqb n 12 || Nat.eqb n 13)%bool.

Fixpoint trimStart (s : string) : string :=
  match s with
  | String c s' => if isWhiteSpace c then trimStart s' else s
  | EmptyString => s
  end.

(** [Number.parseInt(s)] without a radix, for a text that denotes a
    safe integer; [None] is NaN. *)
Definition Number_parseInt (s : string) : option Z :=
  let s := trimStart s in
  let '(sign, s) :=
    match s with
    | String "-" s' => (-1, s')
    | String "+" s' => (1, s')
    | _ => (1, s)
    end in
  let '(radix, s) :=
    match s with
    | String "0" (String "x" s') => (16, s')
    | String "0" (String "X" s') => (16, s')
    | _ => (10, s)
    end in
  option_map (Z.mul sign) (parseDigits radix s None).

(** [`${n}`] for a number that may be NaN. *)
Definition NumberOrNaN_toString (n : option Z) : string :=
  match n with
  | Some z => Number_toString z
  | None => "NaN"
  end.

(** ** The environment *)

(** A request URL: the fixed part and the query parameters, before
    percent-encoding and number formatting. *)
Inductive QueryValue : Type :=
| QStr (s : string)
| QNum (q : Q).

Record Request : Type := mkRequest {
  endpoint : string;
  query : list (string * QueryValue) }.

(** The city directory's record, and ours ([src/lib/cities.ts]). *)
Module CityFields.
Record t : Type := mk {
  name : string;
  cou_name_en : string;
  coordinates : Q * Q;
  population : option Z;
  timezone : option string }.
End CityFields.

Module CityRecord.
Record t : Type := mk { recordid : string; fields : CityFields.t }.
End CityRecord.

Module CityWeather.
Record t : Type := mk {
  temp : Z; high : Z; low : Z; description : string; icon : string }.
End CityWeather.

Module City.
Record t : Type := mk {
  id : string;
  name : string;
  country : string;
  latitude : Q;
  longitude : Q;
  population : Z;
  timezone : string;
  weather : option CityWeather.t }.
End City.

(** The current-weather record of the weather provider. *)
Module WeatherData.
Record Coord : Type := mkCoord { lon : Q; lat : Q }.
Record Sys : Type := mkSys {
  type : Z; sys_id : Z; country : string; sunrise : Z; sunset : Z }.
Record t : Type := mk {
  coord : Coord;
  weather : list Condition.t;
  base : string;
  main : Main.t;
  visibility : Q;
  wind : Wind.t;
  clouds : Clouds.t;
  rain : option Precipitation.t;
  snow : option Precipitation.t;
  dt : Z;
  sys : Sys;
  timezone : Z;
  id : Z;
  name : string;
  cod : Z }.
End WeatherData.

(** A parsed response body (typed [any] in the source): the three shapes
    the code expects, and [OtherJson] for a body without the properties
    the code reads, on which the read of a property of [undefined]
    throws a [TypeError]. A body that has these properties in part, and
    is read without an exception into fields that are [undefined] or
    NaN, is not modelled. *)
Inductive Json : Type :=
| CitiesJson (nhits : Z) (records : list CityRecord.t)
| WeatherJson (data : WeatherData.t)
| ForecastJson (list : list ForecastItem.t)
| OtherJson.

(** [body = None]: the body is not JSON and [response.json()] rejects. *)
Record Response : Type := mkResponse {
  ok : bool;
  status : Z;
  body : option Json }.

Inductive FetchResult : Type :=
| Rejected
| Resolved (response : Response).

Inductive LogLevel : Type := warn | error.

Record LogEntry : Type := mkLog {
  level : LogLevel;
  text : string;
  thrown : option Exception }.

(** Everything outside the program that its functions read or write.
    [network n r] is what the [n]-th call of [fetch] (counting from 0)
    yields when it asks for [r]; [sent] lists the requests issued so far,
    oldest first. [random_source k] is the [k]-th draw of the generator,
    and [clock k] the [k]-th reading of the clock, in milliseconds:
    every call of [Date.now()] takes a reading of its own. *)
Record World : Type := mkWorld {
  NEXT_PUBLIC_OPENWEATHER_API_KEY : option string;
  clock : nat -> Z;
  clock_read : nat;
  random_source : nat -> N;
  random_used : nat;
  network : nat -> Request -> FetchResult;
  sent : list Request;
  console : list LogEntry }.

(** ** The [IO] monad: world passing with exceptions *)

Definition IO (A : Type) : Type := World -> Completion A * World.

Definition ret {A} (a : A) : IO A := fun w => (Normal a, w).

Definition bind {A B} (m : IO A) (k : A -> IO B) : IO B :=
  fun w =>
    match m w with
    | (Normal a, w') => k a w'
    | (Throw e, w') => (Throw e, w')
    end.

Definition throw {A} (e : Exception) : IO A := fun w => (Throw e, w).

(** [try { m } catch (error) { handler error }] *)
Definition try_catch {A} (m : IO A) (handler : Exception -> IO A) : IO A :=
  fun w =>
    match m w with
    | (Normal a, w') => (Normal a, w')
    | (Throw e, w') => handler e w'
    end.

Definition lift {A} (c : Completion A) : IO A := fun w => (c, w).

Declare Scope io_scope.
Delimit Scope io_scope with io.
Notation "x <- c ;; k" := (bind c (fun x => k))
  (at level 61, c at next level, right associativity) : io_scope.
Notation "c ;; k" := (bind c (fun _ => k))
  (at level 61, right associativity) : io_scope.

(** [l.map(f)] with an effectful callback, and
    [await Promise.all(l.map(async a => f a))]: the callbacks start in
    list order, so the [n]-th [fetch] belongs to the [n]-th element, and
    the results come back in list order. Under [Promise.all] the
    callbacks finish in the order in which their requests are answered;
    here they finish in list order, which is one of these orders. What
    several callbacks write on the console is therefore in list order
    here and in an order of its own in the program: a statement about
    it is made up to the order, as a permutation. *)
Fixpoint mapM {A B} (f : A -> IO B) (l : list A) : IO (list B) :=
  match l with
  | [] => ret []
  | a :: l' => (b <- f a ;; bs <- mapM f l' ;; ret (b :: bs))%io
  end.

Definition fetch (r : Request) : IO Response :=
  fun w =>
    let w' := mkWorld (NEXT_PUBLIC_OPENWEATHER_API_KEY w) (clock w) (clock_read w) (random_source w)
                (random_used w) (network w) (sent w ++ [r]) (console w) in
    match network w (List.length (sent w)) r with
    | Rejected => (Throw FetchRejected, w')
    | Resolved response => (Normal response, w')
    end.

(** [await response.json()] *)
Definition Response_json (r : Response) : IO Json :=
  match body r with
  | Some j => ret j
  | None => throw SyntaxError
  end.

(** [Math.random()]: a multiple of 2^-53 in [0, 1). *)
Definition Math_random : IO Q :=
  fun w =>
    (Normal (Z.of_N (random_source w (random_used w) mod 2 ^ 53) # 2 ^ 53),
     mkWorld (NEXT_PUBLIC_OPENWEATHER_API_KEY w) (clock w) (clock_read w) (random_source w)
       (S (random_used w)) (network w) (sent w) (console w)).

(** What the next call of [Date.now()] yields. *)
Definition now (w : World) : Z := clock w (clock_read w).

Definition Date_now : IO Z :=
  fun w =>
    (Normal (now w),
     mkWorld (NEXT_PUBLIC_OPENWEATHER_API_KEY w) (clock w) (S (clock_read w)) (random_source w)
       (random_used w) (network w) (sent w) (console w)).

Definition getenv_OPENWEATHER_API_KEY : IO (option string) :=
  fun w => (Normal (NEXT_PUBLIC_OPENWEATHER_API_KEY w), w).

Definition console_log (l : LogLevel) (msg : string) (e : option Exception) : IO unit :=
  fun w =>
    (Normal tt,
     mkWorld (NEXT_PUBLIC_OPENWEATHER_API_KEY w) (clock w) (clock_read w) (random_source w)
       (random_used w) (network w) (sent w) (console w ++ [mkLog l msg e])).

Definition console_error (msg : string) (e : Exception) : IO unit := console_log error msg (Some e).
Definition console_warn (msg : string) : IO unit := console_log warn msg None.

(** [choices[Math.floor(Math.random() * choices.length)]] *)
Definition randomChoice (choices : list string) : IO string :=
  (r <- Math_random ;;
   ret (nth (Z.to_nat (Math_floor (r * inject_Z (length_of choices)))) choices "undefined"))%io.

(** [Array.from({ length }, (_, i) => f i)]: the length is clamped at 0,
    and one above 2^32 - 1 is refused. *)
Definition Array_from {A} (length : Z) (f : Z -> IO A) : IO (list A) :=
  if 4294967295 <? length then throw RangeError
  else mapM (fun i => f (Z.of_nat i)) (seq 0 (Z.to_nat length)).

(** ** [src/lib/cities.ts] *)

Inductive SortDirection : Type := asc | desc.

(** [filters]: the rest properties, in the order [Object.entries] lists
    them; their values are kept as the texts [value.toString()] yields,
    the empty text being falsy. *)
Record FetchCitiesParams : Type := mkParams {
  page : option Z;
  limit : option Z;
  search : option string;
  sortField : option string;
  sortDirection : option SortDirection;
  filters : list (string * string) }.

Record FetchCitiesResponse : Type := mkCitiesResponse {
  cities : list City.t;
  hasMore : bool;
  total : Z }.

Definition default {A} (x : option A) (d : A) : A :=
  match x with Some v => v | None => d end.

Definition truthy (s : string) : bool := negb (String.eqb s "").

Definition citiesEndpoint : string :=
  "https://public.opendatasoft.com/api/records/1.0/search/?dataset=geonames-all-cities-with-a-population-1000".

(** The record-to-[City] reshaping shared by [fetchCities] and [getCityById]. *)
Definition cityOfRecord (record : CityRecord.t) : City.t :=
  let fields := CityRecord.fields record in
  City.mk
    (CityRecord.recordid record)
    (CityFields.name fields)
    (CityFields.cou_name_en fields)
    (fst (CityFields.coordinates fields))
    (snd (CityFields.coordinates fields))
    (orZ (CityFields.population fields) 0)
    (match CityFields.timezone fields with
     | Some tz => if truthy tz then tz else "Unknown"
     | None => "Unknown"
     end)
    None.

Definition countries : list string := ["USA"; "Canada"; "UK"; "Germany"; "France"].
Definition timezones : list string := ["UTC"; "UTC+1"; "UTC-5"; "UTC+8"].

(** The query parameters [fetchCities] assembles, in [append] order;
    [page], [limit] and [offset] are safe integers. *)
Definition citiesQuery (params : FetchCitiesParams) : list (string * QueryValue) :=
  let page := default (page params) 1 in
  let limit := default (limit params) 20 in
  let search := default (search params) "" in
  let sortField := default (sortField params) "name" in
  let sortDirection := default (sortDirection params) asc in
  let offset := (page - 1) * limit in
  [("rows", QStr (Number_toString limit)); ("start", QStr (Number_toString offset))]
  ++ (if truthy search then [("q", QStr search)] else [])
  ++ [("sort", QStr ((match sortDirection with desc => "-" | asc => "" end) +++ sortField))]
  ++ flat_map (fun '(key, value) =>
                 if truthy value then [("refine." +++ key, QStr value)] else [])
              (filters params)
  ++ [("format", QStr "json")].

Definition citiesRequest (params : FetchCitiesParams) : Request :=
  mkRequest citiesEndpoint (citiesQuery params).

(** The [try] block of [fetchCities]. *)
Definition fetchCitiesTry (params : FetchCitiesParams) : IO FetchCitiesResponse :=
  let page := default (page params) 1 in
  let limit := default (limit params) 20 in
  let offset := (page - 1) * limit in
  (response <- fetch (citiesRequest params) ;;
   (if negb (ok response)
    then throw (Error ("Failed to fetch cities: " +++ Number_toString (status response)))
    else ret tt) ;;
   data <- Response_json response ;;
   match data with
   | CitiesJson nhits records =>
       let cities := map cityOfRecord records in
       ret (mkCitiesResponse cities (offset + length_of cities <? nhits) nhits)
   | _ => throw TypeError
   end)%io.

(** One mock city: the callback of [Array.from({ length: limit }, ...)];
    [i + offset + 1] is a safe integer. *)
Definition mockCity (offset : Z) (i : Z) : IO City.t :=
  (country <- randomChoice countries ;;
   r_lat <- Math_random ;;
   r_lon <- Math_random ;;
   r_pop <- Math_random ;;
   timezone <- randomChoice timezones ;;
   ret (City.mk
          ("mock-" +++ Number_toString (i + offset))
          ("City " +++ Number_toString (i + offset + 1))
          country
          (r_lat * 180 - 90)%Q
          (r_lon * 360 - 180)%Q
          (Math_floor (r_pop * 10000000))
          timezone
          None))%io.

(** The [catch] block of [fetchCities]. *)
Definition fetchCitiesCatch (params : FetchCitiesParams) (error : Exception) :
  IO FetchCitiesResponse :=
  let page := default (page params) 1 in
  let limit := default (limit params) 20 in
  let offset := (page - 1) * limit in
  (console_error "Error fetching cities:" error ;;
   mockCities <- Array_from limit (mockCity offset) ;;
   ret (mkCitiesResponse mockCities (page <? 5) 100))%io.

Definition fetchCities (params : FetchCitiesParams) : IO FetchCitiesResponse :=
  try_catch (fetchCitiesTry params) (fetchCitiesCatch params).

Definition cityByIdRequest (id : string) : Request :=
  mkRequest citiesEndpoint [("q", QStr ("recordid:" +++ id))].

(** The [try] block of [getCityById]. *)
Definition getCityByIdTry (id : string) : IO (option City.t) :=
  (response <- fetch (cityByIdRequest id) ;;
   (if negb (ok response)
    then throw (Error ("Failed to fetch city: " +++ Number_toString (status response)))
    else ret tt) ;;
   data <- Response_json response ;;
   match data with
   | CitiesJson _ [] => ret None
   | CitiesJson _ (record :: _) => ret (Some (cityOfRecord record))
   | _ => throw TypeError
   end)%io.

(** The [catch] block of [getCityById]; [idNumber + 1] is a safe
    integer. *)
Definition getCityByIdCatch (id : string) (error : Exception) : IO (option City.t) :=
  (console_error "Error fetching city by ID:" error ;;
   if String.prefix "mock-" id then
     let idNumber := Number_parseInt (String_replace id "mock-" "") in
     country <- randomChoice countries ;;
     r_lat <- Math_random ;;
     r_lon <- Math_random ;;
     r_pop <- Math_random ;;
     timezone <- randomChoice timezones ;;
     ret (Some (City.mk
            id
            ("City " +++ NumberOrNaN_toString (option_map (fun n => n + 1) idNumber))
            country
            (r_lat * 180 - 90)%Q
            (r_lon * 360 - 180)%Q
            (Math_floor (r_pop * 10000000))
            timezone
            None))
   else ret None)%io.

Definition getCityById (id : string) : IO (option City.t) :=
  try_catch (getCityByIdTry id) (getCityByIdCatch id).

(** [{ ...city, weather: { ... } }] out of a current-weather body; the
    reads [weatherData.main.temp] and [weatherData.weather[0].description]
    throw on a body of another shape or without a first condition. *)
Definition withWeather (city : City.t) (weatherData : Json) : Completion City.t :=
  match weatherData with
  | WeatherJson data =>
      match WeatherData.weather data with
      | w0 :: _ =>
          Normal (City.mk
            (City.id city) (City.name city) (City.country city)
            (City.latitude city) (City.longitude city)
            (City.population city) (City.timezone city)
            (Some (CityWeather.mk
               (Math_round (Main.temp (WeatherData.main data)))
               (Math_round (Main.temp_max (WeatherData.main data)))
               (Math_round (Main.temp_min (WeatherData.main data)))
               (Condition.description w0)
               (Condition.icon w0))))
      | [] => Throw TypeError
      end
  | _ => Throw TypeError
  end.

Definition updateCityWeather (city : City.t) (weatherData : Json) : Completion City.t :=
  withWeather city weatherData.

(** ** [src/lib/weather.ts]: fetching *)

Record FetchWeatherParams : Type := mkWeatherParams {
  lat : Q;
  lon : Q;
  units : option Units }.

(** [current] is whatever JSON the provider returned: the source only
    annotates it as [WeatherData]. *)
Record WeatherResponse : Type := mkWeatherResponse {
  current : Json;
  forecast : list ForecastData.t }.

Definition placeholderKey : string := "YOUR_OPENWEATHER_API_KEY".

(** [process.env.NEXT_PUBLIC_OPENWEATHER_API_KEY || "YOUR_OPENWEATHER_API_KEY"] *)
Definition readApiKey : IO string :=
  (key <- getenv_OPENWEATHER_API_KEY ;;
   ret (match key with
        | Some k => if truthy k then k else placeholderKey
        | None => placeholderKey
        end))%io.

(** [!apiKey || apiKey === "YOUR_OPENWEATHER_API_KEY"] *)
Definition noApiKey (apiKey : string) : bool :=
  negb (truthy apiKey) || String.eqb apiKey placeholderKey.

Definition unitsText (u : Units) : string :=
  match u with metric => "metric" | imperial => "imperial" end.

Definition weatherRequest (path : string) (lat lon : Q) (units : Units) (apiKey : string) : Request :=
  mkRequest ("https://api.openweathermap.org/data/2.5/" +++ path)
    [("lat", QNum lat); ("lon", QNum lon); ("units", QStr (unitsText units)); ("appid", QStr apiKey)].

(** One day of the mock forecast: the callback of [Array.from({ length: 7 }, ...)]. *)
Definition mockForecastDay (tempUnit windUnit : Z) (i : Z) : IO ForecastData.t :=
  (let dayOffset := i * 86400 in
   t <- Date_now ;;
   let now := t / 1000 in
   r_day <- Math_random ;;
   r_min <- Math_random ;;
   r_max <- Math_random ;;
   r_night <- Math_random ;;
   r_id <- Math_random ;;
   main <- randomChoice ["Clear"; "Clouds"; "Rain"] ;;
   description <- randomChoice ["clear sky"; "few clouds"; "light rain"] ;;
   icon <- randomChoice ["01d"; "02d"; "10d"] ;;
   r_clouds <- Math_random ;;
   r_pop <- Math_random ;;
   ret (ForecastData.mk
          (now + dayOffset)
          (now - 3600 + dayOffset)
          (now + 3600 + dayOffset)
          (ForecastData.Temp.mk
             (inject_Z (tempUnit + Math_floor (r_day * 5)))
             (inject_Z (tempUnit - Math_floor (r_min * 5)))
             (inject_Z (tempUnit + Math_floor (r_max * 8)))
             (inject_Z (tempUnit - Math_floor (r_night * 3)))
             (inject_Z tempUnit)
             (inject_Z (tempUnit - 2)))
          (ForecastData.FeelsLike.mk
             (inject_Z (tempUnit - 1))
             (inject_Z (tempUnit - 3))
             (inject_Z (tempUnit - 1))
             (inject_Z (tempUnit - 4)))
          1013
          65
          [Condition.mk (800 + Math_floor (r_id * 3)) main description icon]
          (inject_Z windUnit)
          240
          (inject_Z (windUnit + 2))
          (inject_Z (Math_floor (r_clouds * 100)))
          r_pop
          None
          None))%io.

Definition getMockWeatherData (units : Units) : IO WeatherResponse :=
  (let tempUnit := match units with metric => 20 | imperial => 68 end in
   let windUnit := match units with metric => 5 | imperial => 11 end in
   t_dt <- Date_now ;;
   t_sunrise <- Date_now ;;
   t_sunset <- Date_now ;;
   let current :=
     WeatherData.mk
       (WeatherData.mkCoord (-1257 # 10000) (515085 # 10000))
       [Condition.mk 800 "Clear" "clear sky" "01d"]
       "stations"
       (Main.mk (inject_Z tempUnit) (inject_Z (tempUnit - 2)) (inject_Z (tempUnit - 3))
                (inject_Z (tempUnit + 3)) 1013 65)
       10000
       (Wind.mk (inject_Z windUnit) 240 None)
       (Clouds.mk 0)
       None
       None
       (t_dt / 1000)
       (WeatherData.mkSys 2 2019646 "GB" (t_sunrise / 1000 - 3600) (t_sunset / 1000 + 3600))
       3600
       2643743
       "London"
       200 in
   forecast <- Array_from 7 (mockForecastDay tempUnit windUnit) ;;
   ret (mkWeatherResponse (WeatherJson current) forecast))%io.

(** The [try] block of [fetchWeather]. *)
Definition fetchWeatherTry (params : FetchWeatherParams) (apiKey : string) : IO WeatherResponse :=
  let units := default (units params) metric in
  (if noApiKey apiKey then
     console_warn "No OpenWeatherMap API key provided. Using mock data." ;;
     getMockWeatherData units
   else
     currentResponse <- fetch (weatherRequest "weather" (lat params) (lon params) units apiKey) ;;
     (if negb (ok currentResponse)
      then throw (Error ("Failed to fetch current weather: "
                         +++ Number_toString (status currentResponse)))
      else ret tt) ;;
     currentData <- Response_json currentResponse ;;
     forecastResponse <- fetch (weatherRequest "forecast" (lat params) (lon params) units apiKey) ;;
     (if negb (ok forecastResponse)
      then throw (Error ("Failed to fetch forecast: "
                         +++ Number_toString (status forecastResponse)))
      else ret tt) ;;
     forecastData <- Response_json forecastResponse ;;
     dailyForecasts <-
       match forecastData with
       | ForecastJson list => lift (processForecastData list units)
       | _ => throw TypeError
       end ;;
     ret (mkWeatherResponse currentData dailyForecasts))%io.

(** The [catch] block of [fetchWeather]. *)
Definition fetchWeatherCatch (params : FetchWeatherParams) (error : Exception) : IO WeatherResponse :=
  (console_error "Error fetching weather data:" error ;;
   getMockWeatherData (default (units params) metric))%io.

Definition fetchWeather (params : FetchWeatherParams) : IO WeatherResponse :=
  (apiKey <- readApiKey ;;
   try_catch (fetchWeatherTry params apiKey) (fetchWeatherCatch params))%io.

(** The per-city callback of [fetchWeatherForCities]. *)
Definition fetchCityWeather (units : Units) (apiKey : string) (city : City.t) : IO City.t :=
  try_catch
    (response <- fetch (weatherRequest "weather" (City.latitude city) (City.longitude city)
                          units apiKey) ;;
     (if negb (ok response)
      then throw (Error ("Failed to fetch weather for " +++ City.name city +++ ": "
                         +++ Number_toString (status response)))
      else ret tt) ;;
     weatherData <- Response_json response ;;
     lift (withWeather city weatherData))%io
    (fun error =>
       (console_error ("Error fetching weather for " +++ City.name city +++ ":") error ;;
        ret city)%io).

(** The per-city callback when no API key is configured. *)
Definition mockCityWeather (city : City.t) : IO City.t :=
  (r_temp <- Math_random ;;
   r_high <- Math_random ;;
   r_low <- Math_random ;;
   description <- randomChoice ["Clear"; "Cloudy"; "Rainy"] ;;
   icon <- randomChoice ["01d"; "02d"; "10d"] ;;
   ret (City.mk
          (City.id city) (City.name city) (City.country city)
          (City.latitude city) (City.longitude city)
          (City.population city) (City.timezone city)
          (Some (CityWeather.mk
             (Math_round (15 + r_temp * 10))
             (Math_round (20 + r_high * 10))
             (Math_round (10 + r_low * 5))
             description
             icon))))%io.

(** [fetchWeatherForCities]: the same text in [src/lib/weather.ts]
    (lines 212-267) and in [src/lib/cities.ts] (lines 179-234). *)
Definition fetchWeatherForCities (cities : list City.t) (units : option Units) : IO (list City.t) :=
  let units := default units metric in
  (apiKey <- readApiKey ;;
   if noApiKey apiKey then mapM mockCityWeather cities
   else
     try_catch
       (mapM (fetchCityWeather units apiKey) cities)
       (fun error =>
          console_error "Error fetching weather for cities:" error ;;
          ret cities))%io.

(** ** Vocabulary of the statements *)

(** The time value of a sample can be held by a [Date]. *)
Definition validTimestamp (item : ForecastItem.t) : Prop :=
  Z.abs (ForecastItem.dt item * 1000) <= JSDate.maxTime.

(** UTC calendar day of a Unix timestamp in seconds. *)
Definition utcDateOfSeconds (seconds : Z) : JSDate.IsoDate :=
  JSDate.DateFromDay (JSDate.Day (seconds * 1000)).

Definition utcDate (item : ForecastItem.t) : JSDate.IsoDate :=
  utcDateOfSeconds (ForecastItem.dt item).

(** The calendar day an output record stands for, read off its [dt]. *)
Definition recordDate (r : ForecastData.t) : JSDate.IsoDate :=
  utcDateOfSeconds (ForecastData.dt r).

(** The samples of one calendar day, in input order. *)
Definition samplesOn (d : JSDate.IsoDate) (l : list ForecastItem.t) : list ForecastItem.t :=
  filter (fun item => JSDate.IsoDate_eqb (utcDate item) d) l.

Definition is_minimum (m : Q) (l : list Q) : Prop :=
  In m l /\ forall x, In x l -> (m <= x)%Q.

Definition is_maximum (m : Q) (l : list Q) : Prop :=
  In m l /\ forall x, In x l -> (x <= m)%Q.

(** A missing [pop] counts as 0. *)
Definition popOrZero (item : ForecastItem.t) : Q :=
  match ForecastItem.pop item with
  | Some p => p
  | None => 0%Q
  end.

(** [dailyData] after one more [push]: what both statements of the
    [forEach] callback amount to. *)
Fixpoint pushItem (d : DailyData) (k : JSDate.IsoDate) (item : ForecastItem.t) : DailyData :=
  match d with
  | [] => [(k, [item])]
  | (k', items) :: d' =>
      if JSDate.IsoDate_eqb k' k then (k', items ++ [item]) :: d'
      else (k', items) :: pushItem d' k item
  end.

(** What ties [dailyData] to the samples seen so far. *)
Definition grouped (seen : list ForecastItem.t) (d : DailyData) : Prop :=
  NoDup (map fst d) /\
  (forall k items, In (k, items) d -> items <> [] /\ items = samplesOn k seen) /\
  (forall item, In item seen -> In (utcDate item) (map fst d)).

(** What [processDay] makes of one day's samples: the fields the
    statements below speak of. *)
Definition dayRecord (k : JSDate.IsoDate) (items : list ForecastItem.t) (r : ForecastData.t) : Prop :=
  let n := length_of items in
  ForecastData.dt r = JSDate.getTimeOfIsoDate k / 1000 /\
  is_minimum (ForecastData.Temp.min (ForecastData.temp r)) (map tempOf items) /\
  is_maximum (ForecastData.Temp.max (ForecastData.temp r)) (map tempOf items) /\
  ForecastData.pop r = (sumPop items / inject_Z n)%Q /\
  exists first mid evening last,
    item_at items 0 = Some first /\
    item_at items (n / 2) = Some mid /\
    item_at items (Z.min (n - 1) (n / 2 + 2)) = Some evening /\
    item_at items (n - 1) = Some last /\
    ForecastData.Temp.day (ForecastData.temp r) = tempOf mid /\
    ForecastData.Temp.morn (ForecastData.temp r) = orQ (Some (tempOf first)) (tempOf mid) /\
    ForecastData.Temp.eve (ForecastData.temp r) = orQ (Some (tempOf evening)) (tempOf mid) /\
    ForecastData.Temp.night (ForecastData.temp r) = orQ (Some (tempOf last)) (tempOf mid).

(** What the next call of [fetch] yields in world [w] for request [r]. *)
Definition nextResult (w : World) (r : Request) : FetchResult :=
  network w (List.length (sent w)) r.

(** [m] run in [w] returns normally, with a value and a world that
    satisfy [P]. *)
Definition returns {A} (m : IO A) (w : World) (P : A -> World -> Prop) : Prop :=
  exists a w', m w = (Normal a, w') /\ P a w'.

(** The query parameters called [key], in order. *)
Definition paramsNamed (key : string) (q : list (string * QueryValue)) : list QueryValue :=
  map snd (filter (fun kv => String.eqb (fst kv) key) q).

(** An upstream failure of the city directory: the request is rejected,
    the status is not OK, or the body is not a city listing. *)
Definition citiesFetchFails (res : FetchResult) : bool :=
  match res with
  | Rejected => true
  | Resolved r =>
      negb (ok r) ||
      match body r with
      | Some (CitiesJson _ _) => false
      | _ => true
      end
  end.

(** The API key is configured. *)
Definition keyConfigured (w : World) (apiKey : string) : Prop :=
  NEXT_PUBLIC_OPENWEATHER_API_KEY w = Some apiKey /\ noApiKey apiKey = false.

(** The request is rejected or its status is not OK. *)
Definition httpFailure (res : FetchResult) : bool :=
  match res with
  | Rejected => true
  | Resolved r => negb (ok r)
  end.

(** The two requests of [fetchWeather] for [params] with key [apiKey]. *)
Definition currentRequest (params : FetchWeatherParams) (apiKey : string) : Request :=
  weatherRequest "weather" (lat params) (lon params) (default (units params) metric) apiKey.

Definition forecastRequest (params : FetchWeatherParams) (apiKey : string) : Request :=
  weatherRequest "forecast" (lat params) (lon params) (default (units params) metric) apiKey.

(** An upstream failure during [fetchWeather]: the first request fails,
    or it is answered with some JSON and the second request fails. *)
Definition weatherFailure (w : World) (params : FetchWeatherParams) (apiKey : string) : Prop :=
  httpFailure (nextResult w (currentRequest params apiKey)) = true \/
  (exists httpStatus currentData,
     nextResult w (currentRequest params apiKey)
       = Resolved (mkResponse true httpStatus (Some currentData)) /\
     httpFailure (network w (S (List.length (sent w))) (forecastRequest params apiKey)) = true).

(** An upstream failure of the current-weather request of one city: the
    request is rejected, the status is not OK, or the body is not a
    current-weather record with a first condition. *)
Definition weatherFetchFails (res : FetchResult) : bool :=
  match res with
  | Rejected => true
  | Resolved r =>
      negb (ok r) ||
      match body r with
      | Some (WeatherJson data) =>
          match WeatherData.weather data with [] => true | _ :: _ => false end
      | _ => true
      end
  end.

Definition cityRequest (units : Units) (apiKey : string) (city : City.t) : Request :=
  weatherRequest "weather" (City.latitude city) (City.longitude city) units apiKey.

(** What [fetchWeatherForCities] makes of one city, given what its own
    request yields. *)
Definition cityOutcome (city : City.t) (res : FetchResult) : City.t :=
  match res with
  | Resolved (mkResponse true _ (Some weatherData)) =>
      match withWeather city weatherData with
      | Normal c => c
      | Throw _ => city
      end
  | _ => city
  end.

(** The outcomes of all cities when the first request is the [n]-th. *)
Fixpoint cityOutcomes (units : Units) (apiKey : string)
         (net : nat -> Request -> FetchResult) (n : nat) (cities : list City.t) : list City.t :=
  match cities with
  | [] => []
  | city :: rest =>
      cityOutcome city (net n (cityRequest units apiKey city))
      :: cityOutcomes units apiKey net (S n) rest
  end.

(** The fields of a city other than [weather]. *)
Definition sameIdentity (c c' : City.t) : Prop :=
  City.id c' = City.id c /\ City.name c' = City.name c /\
  City.country c' = City.country c /\ City.latitude c' = City.latitude c /\
  City.longitude c' = City.longitude c /\ City.population c' = City.population c /\
  City.timezone c' = City.timezone c.

(** ** Sample data for the statements *)

Definition sampleAt (dt : Z) (temp : Q) (pop : option Q) : ForecastItem.t :=
  ForecastItem.mk dt (Main.mk temp (temp - 2) temp temp 1013 65)
    [Condition.mk 800 "Clear" "clear sky" "01d"] None None None pop None None.

(** 2023-11-14 21:00 and 2023-11-15 00:00, 03:00, 06:00 (UTC). *)
Definition twoDays : list ForecastItem.t :=
  [ sampleAt 1699995600 (7 # 2) (Some (1 # 5));
    sampleAt 1700006400 (-3 # 2) None;
    sampleAt 1700017200 (-2) (Some (1 # 2));
    sampleAt 1700028000 (4 # 1) (Some (1 # 4)) ].

(** 1970-01-01 00:00 at exactly zero degrees, and 03:00 at five. *)
Definition frost : ForecastItem.t := sampleAt 0 0 None.
Definition frostyMorning : list ForecastItem.t := [ frost; sampleAt 10800 5 None ].

Definition paris : City.t :=
  City.mk "fr-75056" "Paris" "France" (4885 # 100) (235 # 100) 2138551 "Europe/Paris" None.
Definition lyon : City.t :=
  City.mk "fr-69123" "Lyon" "France" (4575 # 100) (485 # 100) 472317 "Europe/Paris" None.
Definition oslo : City.t :=
  City.mk "no-0301" "Oslo" "Norway" (5991 # 100) (1075 # 100) 580000 "Europe/Oslo" None.

Definition clearSky : WeatherData.t :=
  WeatherData.mk (WeatherData.mkCoord (235 # 100) (4885 # 100))
    [Condition.mk 800 "Clear" "clear sky" "01d"] "stations"
    (Main.mk (123 # 10) (11 # 1) (10 # 1) (145 # 10) 1013 65)
    10000 (Wind.mk 5 240 None) (Clouds.mk 0) None None 1700000000
    (WeatherData.mkSys 2 2019646 "FR" 1699990000 1700020000) 3600 2988507 "Paris" 200.

Definition answer (j : Json) : FetchResult := Resolved (mkResponse true 200 (Some j)).

(** A world with an empty console in which no request was sent yet;
    its clock starts at [start] and is seven milliseconds further at
    each reading. *)
Definition freshWorld (key : option string) (start : Z) (seed : N)
           (net : nat -> Request -> FetchResult) : World :=
  mkWorld key (fun k => start + 7 * Z.of_nat k) 0
          (fun k => (N.of_nat k + 1) * seed)%N 0 net [] [].

(** Every request is rejected. *)
Definition offline : World := freshWorld (Some "k3y") 1700000000000 6364136223846793005 (fun _ _ => Rejected).

(** The weather provider answers every request. *)
Definition online : World :=
  freshWorld (Some "k3y") 1700000000000 6364136223846793005
    (fun _ _ => answer (WeatherJson clearSky)).

(** As [online], but the second request is rejected. *)
Definition secondFails : World :=
  freshWorld (Some "k3y") 1700000360000 1442695040888963407
    (fun n _ => if Nat.eqb n 1 then Rejected else answer (WeatherJson clearSky)).

(** The city directory answers with two of 45 hits. *)
Definition directoryUp : World :=
  freshWorld None 1700000000000 6364136223846793005
    (fun _ _ => answer (CitiesJson 45
       [ CityRecord.mk "fr-75056"
           (CityFields.mk "Paris" "France" (4885 # 100, 235 # 100) (Some 2138551)
                          (Some "Europe/Paris"));
         CityRecord.mk "fr-69123"
           (CityFields.mk "Lyon" "France" (4575 # 100, 485 # 100) None None) ])).

(** The weather provider answers the current-weather request and then
    the forecast request, the latter with [l]. *)
Definition forecastOnline (start : Z) (seed : N) (l : list ForecastItem.t) : World :=
  freshWorld (Some "k3y") start seed
    (fun n _ => if Nat.eqb n 0 then answer (WeatherJson clearSky) else answer (ForecastJson l)).

Definition parisParams : FetchWeatherParams := mkWeatherParams (4885 # 100) (235 # 100) None.

Definition secondPage : FetchCitiesParams :=
  mkParams (Some 2) (Some 20) None (Some "population") (Some desc) [("country_code", "FR")].

(** ** Vocabulary of the further statements *)

(** [snapshot] is what [item.main.temp || mid.main.temp] yields: the
    reading of [item], or the reading of [mid] when that is zero. *)
Definition readingOrMiddle (item mid : ForecastItem.t) (snapshot : Q) : Prop :=
  (~ (tempOf item == 0)%Q -> snapshot = tempOf item) /\
  ((tempOf item == 0)%Q -> snapshot = tempOf mid).

(** The samples come in the order of their timestamps. *)
Definition chronological (l : list ForecastItem.t) : Prop :=
  StronglySorted (fun a b => ForecastItem.dt a <= ForecastItem.dt b) l.

(** [dayForecast.sys?.sunrise] and [dayForecast.sys?.sunset]. *)
Definition sysSunrise (item : ForecastItem.t) : option Z :=
  match ForecastItem.sys item with
  | Some s => ForecastItem.sunrise s
  | None => None
  end.

Definition sysSunset (item : ForecastItem.t) : option Z :=
  match ForecastItem.sys item with
  | Some s => ForecastItem.sunset s
  | None => None
  end.

(** The day numbers (days since 1970-01-01) behind the keys of [d]. *)
Definition keysOfDays (d : DailyData) (ns : list Z) : Prop :=
  map fst d = map JSDate.DateFromDay ns.

Definition dayNumber (item : ForecastItem.t) : Z := ForecastItem.dt item / 86400.

(** Number of samples held by [d]. *)
Definition heldSamples (d : DailyData) : nat :=
  list_sum (map (fun e => List.length (snd e)) d).

(** [dayForecast.wind?.gust], [dayForecast.rain?.["3h"]]. *)
Definition windGust (item : ForecastItem.t) : option Q :=
  match ForecastItem.wind item with
  | Some w => Wind.gust w
  | None => None
  end.

Definition rain3h (p : option Precipitation.t) : option Q :=
  match p with
  | Some r => Precipitation.h3 r
  | None => None
  end.

(** The fields of a record that [processDay] copies from the middle
    sample [mid] of the day, and the [feels_like] snapshots. *)
Definition copiedFromMiddle (items : list ForecastItem.t) (mid : ForecastItem.t)
           (r : ForecastData.t) : Prop :=
  let n := length_of items in
  ForecastData.sunrise r = orZ (sysSunrise mid) (ForecastItem.dt mid) /\
  ForecastData.sunset r = orZ (sysSunset mid) (ForecastItem.dt mid + 43200) /\
  ForecastData.pressure r = Main.pressure (ForecastItem.main mid) /\
  ForecastData.humidity r = Main.humidity (ForecastItem.main mid) /\
  ForecastData.weather r = ForecastItem.weather mid /\
  ForecastData.speed r = orQ (option_map Wind.speed (ForecastItem.wind mid)) 0 /\
  ForecastData.deg r = orQ (option_map Wind.deg (ForecastItem.wind mid)) 0 /\
  ForecastData.gust r = orQ (windGust mid) 0 /\
  ForecastData.clouds r = orQ (option_map Clouds.all (ForecastItem.clouds mid)) 0 /\
  ForecastData.rain r = Some (orQ (rain3h (ForecastItem.rain mid)) 0) /\
  ForecastData.snow r = Some (orQ (rain3h (ForecastItem.snow mid)) 0) /\
  ForecastData.FeelsLike.day (ForecastData.feels_like r) = feelsLikeOf mid /\
  ForecastData.FeelsLike.morn (ForecastData.feels_like r)
    = orQ (option_map feelsLikeOf (item_at items 0)) (feelsLikeOf mid) /\
  ForecastData.FeelsLike.eve (ForecastData.feels_like r)
    = orQ (option_map feelsLikeOf (item_at items (Z.min (n - 1) (n / 2 + 2)))) (feelsLikeOf mid) /\
  ForecastData.FeelsLike.night (ForecastData.feels_like r)
    = orQ (option_map feelsLikeOf (item_at items (n - 1))) (feelsLikeOf mid).

(** [w'] is [w] after [n] more random draws and nothing else. *)
Definition afterDraws (n : nat) (w w' : World) : Prop :=
  random_used w' = (random_used w + n)%nat /\
  random_source w' = random_source w /\
  console w' = console w /\
  sent w' = sent w /\
  (clock w' = clock w /\ clock_read w' = clock_read w) /\
  network w' = network w /\
  NEXT_PUBLIC_OPENWEATHER_API_KEY w' = NEXT_PUBLIC_OPENWEATHER_API_KEY w.

(** [w'] is [w] after [n] more random draws, [k] more readings of the
    clock and nothing else. *)
Definition afterDrawsAndReadings (n k : nat) (w w' : World) : Prop :=
  random_used w' = (random_used w + n)%nat /\
  clock_read w' = (clock_read w + k)%nat /\
  random_source w' = random_source w /\
  console w' = console w /\
  sent w' = sent w /\
  clock w' = clock w /\
  network w' = network w /\
  NEXT_PUBLIC_OPENWEATHER_API_KEY w' = NEXT_PUBLIC_OPENWEATHER_API_KEY w.

(** The key that [readApiKey] yields in [w]. *)
Definition effectiveKey (w : World) : string :=
  match NEXT_PUBLIC_OPENWEATHER_API_KEY w with
  | Some k => if truthy k then k else placeholderKey
  | None => placeholderKey
  end.

(** [tempUnit] and [windUnit] of [getMockWeatherData]. *)
Definition mockTempUnit (u : Units) : Z := match u with metric => 20 | imperial => 68 end.
Definition mockWindUnit (u : Units) : Z := match u with metric => 5 | imperial => 11 end.

(** What [fetchWeatherForCities] writes for a city without an API key. *)
Definition mockedWeather (c c' : City.t) : Prop :=
  sameIdentity c c' /\
  exists cw,
    City.weather c' = Some cw /\
    15 <= CityWeather.temp cw <= 25 /\
    20 <= CityWeather.high cw <= 30 /\
    10 <= CityWeather.low cw <= 15 /\
    In (CityWeather.description cw) ["Clear"; "Cloudy"; "Rainy"] /\
    In (CityWeather.icon cw) ["01d"; "02d"; "10d"].

(** What [getMockWeatherData] writes for day [i] when the clock reads
    [reading] milliseconds. *)
Definition mockedDay (u : Units) (reading : Z) (i : nat) (r : ForecastData.t) : Prop :=
  let t := mockTempUnit u in
  let temp := ForecastData.temp r in
  ForecastData.dt r = reading / 1000 + 86400 * Z.of_nat i /\
  ForecastData.sunrise r = ForecastData.dt r - 3600 /\
  ForecastData.sunset r = ForecastData.dt r + 3600 /\
  (exists z, ForecastData.Temp.min temp = inject_Z z /\ t - 4 <= z <= t) /\
  (exists z, ForecastData.Temp.max temp = inject_Z z /\ t <= z <= t + 7) /\
  (exists z, ForecastData.Temp.day temp = inject_Z z /\ t <= z <= t + 4) /\
  (exists z, ForecastData.Temp.night temp = inject_Z z /\ t - 2 <= z <= t) /\
  ForecastData.Temp.eve temp = inject_Z t /\
  ForecastData.Temp.morn temp = inject_Z (t - 2) /\
  (0 <= ForecastData.pop r < 1)%Q /\
  (exists z, ForecastData.clouds r = inject_Z z /\ 0 <= z <= 99) /\
  List.length (ForecastData.weather r) = 1%nat.

(** The console gained exactly the entry [entry]. *)
Definition logged (w w' : World) (entry : LogEntry) : Prop :=
  console w' = console w ++ [entry].

(** A mock response: seven daily records and London's current weather. *)
Definition isMockResponse (res : WeatherResponse) : Prop :=
  List.length (forecast res) = 7%nat /\
  exists data, current res = WeatherJson data /\ WeatherData.name data = "London".

(** A forecast list whose second sample lies beyond the last day a
    [Date] can hold. *)
Definition farFuture : list ForecastItem.t :=
  [ sampleAt 1700006400 (3 # 1) None; sampleAt 8640000000001 (4 # 1) None ].

(** The cities whose request fails, in order, when the first request
    is the [n]-th. *)
Fixpoint failedCities (units : Units) (apiKey : string)
         (net : nat -> Request -> FetchResult) (n : nat) (cities : list City.t) : list City.t :=
  match cities with
  | [] => []
  | city :: rest =>
      (if weatherFetchFails (net n (cityRequest units apiKey city)) then [city] else [])
      ++ failedCities units apiKey net (S n) rest
  end.

(** The console text of a failed city. *)
Definition cityErrorText (city : City.t) : string :=
  "Error fetching weather for " +++ City.name city +++ ":".

(** [city] with the weather read off the current-weather record [data]
    whose first condition is [w0]. *)
Definition cityWithWeather (city : City.t) (data : WeatherData.t) (w0 : Condition.t) : City.t :=
  City.mk (City.id city) (City.name city) (City.country city)
          (City.latitude city) (City.longitude city)
          (City.population city) (City.timezone city)
          (Some (CityWeather.mk
                   (Math_round (Main.temp (WeatherData.main data)))
                   (Math_round (Main.temp_max (WeatherData.main data)))
                   (Math_round (Main.temp_min (WeatherData.main data)))
                   (Condition.description w0)
                   (Condition.icon w0))).

(** What [fetchCities] writes for the [i]-th mock city of a page that
    starts at [offset]. *)
Definition mockedCity (offset : Z) (i : nat) (c : City.t) : Prop :=
  City.id c = "mock-" +++ Number_toString (Z.of_nat i + offset) /\
  City.name c = "City " +++ Number_toString (Z.of_nat i + offset + 1) /\
  In (City.country c) countries /\
  In (City.timezone c) timezones /\
  (-90 <= City.latitude c < 90)%Q /\
  (-180 <= City.longitude c < 180)%Q /\
  0 <= City.population c < 10000000 /\
  City.weather c = None.

(** The filters named [key] whose value is not empty, in order. *)
Definition activeFilters (key : string) (fs : list (string * string)) : list string :=
  map snd (filter (fun kv => String.eqb (fst kv) key && truthy (snd kv)) fs).

(** A page of a hundred thousand million rows. *)
Definition hugePage : FetchCitiesParams :=
  mkParams (Some 1) (Some 100000000000) None None None [].

Definition parisRecord : CityRecord.t :=
  CityRecord.mk "fr-75056"
    (CityFields.mk "Paris" "France" (4885 # 100, 235 # 100) (Some 2138551) (Some "Europe/Paris")).

(** ** [src/components/cities-table.tsx]: the state of the table and
       its handlers

    A handler or effect is the function from the state of the render it
    runs in to the state after its setter calls, applied in the order
    of the calls, no other event coming in between. *)

(** [keyof City] *)
Module CityKey.
Inductive t : Type :=
| id | name | country | latitude | longitude | population | timezone | weather.

Definition toString (k : t) : string :=
  match k with
  | id => "id" | name => "name" | country => "country" | latitude => "latitude"
  | longitude => "longitude" | population => "population" | timezone => "timezone"
  | weather => "weather"
  end.

Definition eqb (a b : t) : bool :=
  match a, b with
  | id, id | name, name | country, country | latitude, latitude
  | longitude, longitude | population, population | timezone, timezone
  | weather, weather => true
  | _, _ => false
  end.
End CityKey.

(** [filters: Record<string, string>], its keys in insertion order. *)
Definition Filters : Type := list (CityKey.t * string).

(** [{ ...prev, [field]: value }] *)
Fixpoint withFilter (prev : Filters) (field : CityKey.t) (value : string) : Filters :=
  match prev with
  | [] => [(field, value)]
  | (k, v) :: rest =>
      if CityKey.eqb k field then (k, value) :: rest
      else (k, v) :: withFilter rest field value
  end.

(** [const newFilters = { ...filters }; delete newFilters[field]] *)
Definition withoutFilter (filters : Filters) (field : CityKey.t) : Filters :=
  filter (fun kv => negb (CityKey.eqb (fst kv) field)) filters.

Module TableState.
Record t : Type := mk {
  cities : list City.t;
  loading : bool;
  error : option string;
  page : Z;
  hasMore : bool;
  searchTerm : string;
  suggestions : list City.t;
  showSuggestions : bool;
  sortField : CityKey.t;
  sortDirection : SortDirection;
  filters : Filters;
  weatherLoading : bool;
  units : Units }.

(** The state of the first render. *)
Definition initial : t :=
  mk [] true None 1 true "" [] false CityKey.name asc [] false metric.

Definition setCities (v : list City.t) (s : t) : t :=
  mk v (loading s) (error s) (page s) (hasMore s) (searchTerm s) (suggestions s)
     (showSuggestions s) (sortField s) (sortDirection s) (filters s) (weatherLoading s) (units s).
Definition setLoading (v : bool) (s : t) : t :=
  mk (cities s) v (error s) (page s) (hasMore s) (searchTerm s) (suggestions s)
     (showSuggestions s) (sortField s) (sortDirection s) (filters s) (weatherLoading s) (units s).
Definition setError (v : option string) (s : t) : t :=
  mk (cities s) (loading s) v (page s) (hasMore s) (searchTerm s) (suggestions s)
     (showSuggestions s) (sortField s) (sortDirection s) (filters s) (weatherLoading s) (units s).
Definition setPage (v : Z) (s : t) : t :=
  mk (cities s) (loading s) (error s) v (hasMore s) (searchTerm s) (suggestions s)
     (showSuggestions s) (sortField s) (sortDirection s) (filters s) (weatherLoading s) (units s).
Definition setSearchTerm (v : string) (s : t) : t :=
  mk (cities s) (loading s) (error s) (page s) (hasMore s) v (suggestions s)
     (showSuggestions s) (sortField s) (sortDirection s) (filters s) (weatherLoading s) (units s).
Definition setSuggestions (v : list City.t) (s : t) : t :=
  mk (cities s) (loading s) (error s) (page s) (hasMore s) (searchTerm s) v
     (showSuggestions s) (sortField s) (sortDirection s) (filters s) (weatherLoading s) (units s).
Definition setShowSuggestions (v : bool) (s : t) : t :=
  mk (cities s) (loading s) (error s) (page s) (hasMore s) (searchTerm s) (suggestions s)
     v (sortField s) (sortDirection s) (filters s) (weatherLoading s) (units s).
Definition setSortField (v : CityKey.t) (s : t) : t :=
  mk (cities s) (loading s) (error s) (page s) (hasMore s) (searchTerm s) (suggestions s)
     (showSuggestions s) v (sortDirection s) (filters s) (weatherLoading s) (units s).
Definition setSortDirection (v : SortDirection) (s : t) : t :=
  mk (cities s) (loading s) (error s) (page s) (hasMore s) (searchTerm s) (suggestions s)
     (showSuggestions s) (sortField s) v (filters s) (weatherLoading s) (units s).
Definition setFilters (v : Filters) (s : t) : t :=
  mk (cities s) (loading s) (error s) (page s) (hasMore s) (searchTerm s) (suggestions s)
     (showSuggestions s) (sortField s) (sortDirection s) v (weatherLoading s) (units s).
Definition setWeatherLoading (v : bool) (s : t) : t :=
  mk (cities s) (loading s) (error s) (page s) (hasMore s) (searchTerm s) (suggestions s)
     (showSuggestions s) (sortField s) (sortDirection s) (filters s) v (units s).
End TableState.

Definition handleSort (s : TableState.t) (field : CityKey.t) : TableState.t :=
  let s' :=
    if CityKey.eqb (TableState.sortField s) field
    then TableState.setSortDirection
           (match TableState.sortDirection s with asc => desc | desc => asc end) s
    else TableState.setSortDirection asc (TableState.setSortField field s) in
  TableState.setPage 1 s'.

Definition handleFilter (s : TableState.t) (field : CityKey.t) (value : string) : TableState.t :=
  TableState.setPage 1
    (TableState.setFilters (withFilter (TableState.filters s) field value) s).

Definition clearFilter (s : TableState.t) (field : CityKey.t) : TableState.t :=
  TableState.setPage 1
    (TableState.setFilters (withoutFilter (TableState.filters s) field) s).

Definition handleSearchChange (s : TableState.t) (value : string) : TableState.t :=
  TableState.setSearchTerm value s.

Definition selectSuggestion (s : TableState.t) (city : City.t) : TableState.t :=
  TableState.setPage 1
    (TableState.setShowSuggestions false
       (TableState.setSuggestions []
          (TableState.setSearchTerm (City.name city) s))).

Definition clearSearch (s : TableState.t) : TableState.t :=
  TableState.setPage 1
    (TableState.setShowSuggestions false
       (TableState.setSuggestions []
          (TableState.setSearchTerm "" s))).

(** The [params] of [loadCities]; [debouncedSearchTerm] comes from the
    [useDebounce] hook. The filters are spread last; none of their keys
    is one of the five named before them. *)
Definition loadCitiesParams (s : TableState.t) (debouncedSearchTerm : string) : FetchCitiesParams :=
  mkParams (Some (TableState.page s)) (Some 20) (Some debouncedSearchTerm)
           (Some (CityKey.toString (TableState.sortField s)))
           (Some (TableState.sortDirection s))
           (map (fun kv => (CityKey.toString (fst kv), snd kv)) (TableState.filters s)).


(** The callback of [prevCities.map] in [loadWeatherData]:
    [updatedCities.find((c) => c.id === city.id) || city]. *)
Definition mergeCity (updatedCities : list City.t) (city : City.t) : City.t :=
  match find (fun c => String.eqb (City.id c) (City.id city)) updatedCities with
  | Some updatedCity => updatedCity
  | None => city
  end.

Definition hasNoWeather (city : City.t) : bool :=
  match City.weather city with Some _ => false | None => true end.

Definition loadWeatherData (s : TableState.t) : IO TableState.t :=
  let s1 := TableState.setWeatherLoading true s in
  try_catch
    (let citiesToUpdate := filter hasNoWeather (TableState.cities s) in
     if length_of citiesToUpdate =? 0 then ret (TableState.setWeatherLoading false s1)
     else
       updatedCities <- fetchWeatherForCities citiesToUpdate (Some (TableState.units s)) ;;
       ret (TableState.setWeatherLoading false
              (TableState.setCities (map (mergeCity updatedCities) (TableState.cities s1)) s1)))%io
    (fun err =>
       (console_error "Error loading weather data:" err ;;
        ret (TableState.setWeatherLoading false s1))%io).

(** The effect that loads the weather of the visible cities. *)
Definition weatherEffect (s : TableState.t) : IO TableState.t :=
  if (0 <? length_of (TableState.cities s)) && negb (TableState.weatherLoading s)
  then loadWeatherData s
  else ret s.

(** The [params] of the suggestions effect. *)
Definition suggestionsParams (searchTerm : string) : FetchCitiesParams :=
  mkParams (Some 1) (Some 5) (Some searchTerm) None None [].

(** The effect that loads the search suggestions. The [then] callback
    cannot throw, so [catch] sees what [fetchCities] throws. A
    character of the text stands for one UTF-16 code unit. *)
Definition suggestionsEffect (s : TableState.t) : IO TableState.t :=
  if 1 <? Z.of_nat (String.length (TableState.searchTerm s)) then
    try_catch
      (data <- fetchCities (suggestionsParams (TableState.searchTerm s)) ;;
       ret (TableState.setShowSuggestions true
              (TableState.setSuggestions (cities data) s)))%io
      (fun err => (console_error "Error fetching suggestions:" err ;; ret s)%io)
  else ret (TableState.setShowSuggestions false (TableState.setSuggestions [] s)).


(** The query of the request [loadCities] sends in state [s]. *)
Definition tableQuery (s : TableState.t) (debouncedSearchTerm : string) :
  list (string * QueryValue) :=
  citiesQuery (loadCitiesParams s debouncedSearchTerm).

(** Its [refine.<field>] parameters. *)
Definition refinements (s : TableState.t) (debouncedSearchTerm : string) (field : CityKey.t) :
  list QueryValue :=
  paramsNamed ("refine." +++ CityKey.toString field) (tableQuery s debouncedSearchTerm).

(** [Object.keys(filters)] *)
Definition filterKeys (s : TableState.t) : list CityKey.t :=
  map fst (TableState.filters s).

(** What [loadWeatherData] may make of a row. *)
Definition sameRow (c c' : City.t) : Prop :=
  sameIdentity c c' /\ (City.weather c <> None -> c' = c).

(** A table of three cities without weather, and one filtered by country. *)
Definition threeRows : TableState.t :=
  TableState.setCities [paris; lyon; oslo] TableState.initial.
Definition frenchRows : TableState.t :=
  handleFilter threeRows CityKey.country "France".

(** ** [src/components/cities-table.tsx]: the weather display *)

Module DisplayState.
Record t : Type := mk {
  currentWeather : option Json;
  forecast : option (list ForecastData.t);
  loading : bool;
  error : option string;
  units : Units }.

Definition initial : t := mk None None true None metric.

Definition setCurrentWeather (v : option Json) (s : t) : t :=
  mk v (forecast s) (loading s) (error s) (units s).
Definition setForecast (v : option (list ForecastData.t)) (s : t) : t :=
  mk (currentWeather s) v (loading s) (error s) (units s).
Definition setLoading (v : bool) (s : t) : t :=
  mk (currentWeather s) (forecast s) v (error s) (units s).
Definition setError (v : option string) (s : t) : t :=
  mk (currentWeather s) (forecast s) (loading s) v (units s).
Definition setUnits (v : Units) (s : t) : t :=
  mk (currentWeather s) (forecast s) (loading s) (error s) v.
End DisplayState.

Module WeatherDisplay.
(** The parameters of the call of [fetchWeather]. *)
Definition weatherParams (city : City.t) (s : DisplayState.t) : FetchWeatherParams :=
  mkWeatherParams (City.latitude city) (City.longitude city) (Some (DisplayState.units s)).

(** [loadWeatherData] of the effect on [city] and [units]. *)
Definition loadWeatherData (city : City.t) (s : DisplayState.t) : IO DisplayState.t :=
  let s := DisplayState.setError None (DisplayState.setLoading true s) in
  try_catch
    (res <- fetchWeather (weatherParams city s) ;;
     ret (DisplayState.setLoading false
            (DisplayState.setForecast (Some (forecast res))
               (DisplayState.setCurrentWeather (Some (current res)) s))))%io
    (fun err =>
       ret (DisplayState.setLoading false
              (DisplayState.setError (Some "Failed to load weather data. Please try again.") s))).

Definition toggleUnits (s : DisplayState.t) : DisplayState.t :=
  DisplayState.setUnits
    (match DisplayState.units s with metric => imperial | imperial => metric end) s.
End WeatherDisplay.

(** * Properties *)

(** ** Dates *)

Lemma IsoDate_eqb_eq (a b : JSDate.IsoDate) : JSDate.IsoDate_eqb a b = true <-> a = b.
Proof.
  unfold JSDate.IsoDate_eqb. destruct a as [y m d], b as [y' m' d']; simpl.
  rewrite !andb_true_iff, !Z.eqb_eq. split.
  - intros [[-> ->] ->]. reflexivity.
  - intros H. injection H as -> -> ->. auto.
Qed.

Lemma IsoDate_eqb_refl (a : JSDate.IsoDate) : JSDate.IsoDate_eqb a a = true.
Proof. apply IsoDate_eqb_eq. reflexivity. Qed.

Lemma IsoDate_eqb_neq (a b : JSDate.IsoDate) : JSDate.IsoDate_eqb a b = false <-> a <> b.
Proof.
  rewrite <- IsoDate_eqb_eq. destruct (JSDate.IsoDate_eqb a b); split; congruence.
Qed.

(** Reading a date text back gives the day it was printed from. *)
Lemma MakeDay_DateFromDay (d : Z) : JSDate.MakeDay (JSDate.DateFromDay d) = d.
Proof.
  unfold JSDate.MakeDay, JSDate.DateFromDay. simpl.
  replace (JSDate.MonthFromDayWithinYear (d - JSDate.DayFromYear (JSDate.YearFromDay d))
             (JSDate.InLeapYear (JSDate.YearFromDay d)) + 1 - 1)
    with (JSDate.MonthFromDayWithinYear (d - JSDate.DayFromYear (JSDate.YearFromDay d))
             (JSDate.InLeapYear (JSDate.YearFromDay d))) by lia.
  lia.
Qed.

Lemma DateFromDay_inj (d d' : Z) : JSDate.DateFromDay d = JSDate.DateFromDay d' -> d = d'.
Proof.
  intros H. rewrite <- (MakeDay_DateFromDay d), <- (MakeDay_DateFromDay d'), H. reflexivity.
Qed.

(** The year found is the calendar year: its first day is not after [d]
    and the next year's first day is. *)
Lemma YearFromDay_spec (d : Z) :
  JSDate.DayFromYear (JSDate.YearFromDay d) <= d < JSDate.DayFromYear (JSDate.YearFromDay d + 1).
Proof.
  unfold JSDate.YearFromDay.
  set (y0 := 1970 + d * 400 / 146097).
  assert (Hy : 146097 * (y0 - 1970) <= d * 400 < 146097 * (y0 - 1970) + 146097).
  { unfold y0. pose proof (Z.div_mod (d * 400) 146097 ltac:(lia)).
    pose proof (Z.mod_pos_bound (d * 400) 146097 ltac:(lia)). lia. }
  clearbody y0.
  destruct (d <? JSDate.DayFromYear y0) eqn:E1.
  - apply Z.ltb_lt in E1. replace (y0 - 1 + 1) with y0 by lia. split; [|exact E1].
    unfold JSDate.DayFromYear in *.
    Z.to_euclidean_division_equations. lia.
  - apply Z.ltb_ge in E1.
    destruct (JSDate.DayFromYear (y0 + 1) <=? d) eqn:E2.
    + apply Z.leb_le in E2. split; [exact E2|].
      unfold JSDate.DayFromYear in *.
      Z.to_euclidean_division_equations. lia.
    + apply Z.leb_gt in E2. lia.
Qed.

Lemma DaysInYear (y : Z) :
  JSDate.DayFromYear (y + 1)
  = JSDate.DayFromYear y + 365 + (if JSDate.InLeapYear y then 1 else 0).
Proof.
  unfold JSDate.DayFromYear, JSDate.InLeapYear.
  assert (H4 : (y + 1 - 1969) / 4 = (y - 1969) / 4 + (if y mod 4 =? 0 then 1 else 0)).
  { destruct (y mod 4 =? 0) eqn:E; rewrite ?Z.eqb_eq, ?Z.eqb_neq in E;
      Z.to_euclidean_division_equations; lia. }
  assert (H100 : (y + 1 - 1901) / 100 = (y - 1901) / 100 + (if y mod 100 =? 0 then 1 else 0)).
  { destruct (y mod 100 =? 0) eqn:E; rewrite ?Z.eqb_eq, ?Z.eqb_neq in E;
      Z.to_euclidean_division_equations; lia. }
  assert (H400 : (y + 1 - 1601) / 400 = (y - 1601) / 400 + (if y mod 400 =? 0 then 1 else 0)).
  { destruct (y mod 400 =? 0) eqn:E; rewrite ?Z.eqb_eq, ?Z.eqb_neq in E;
      Z.to_euclidean_division_equations; lia. }
  rewrite H4, H100, H400.
  assert (Ha : y mod 100 = 0 -> y mod 4 = 0).
  { intros H. apply Z.mod_divide; [lia|]. apply Z.mod_divide in H; [|lia].
    destruct H as [k ->]. exists (25 * k). lia. }
  assert (Hb : y mod 400 = 0 -> y mod 100 = 0).
  { intros H. apply Z.mod_divide; [lia|]. apply Z.mod_divide in H; [|lia].
    destruct H as [k ->]. exists (4 * k). lia. }
  destruct (y mod 4 =? 0) eqn:E4; destruct (y mod 100 =? 0) eqn:E100;
    destruct (y mod 400 =? 0) eqn:E400; cbn [andb orb negb];
    rewrite ?Z.eqb_eq, ?Z.eqb_neq in *; lia.
Qed.

(** The fields printed are a month of the year and a day of a month. *)
Lemma DateFromDay_wellformed (d : Z) :
  1 <= JSDate.month (JSDate.DateFromDay d) <= 12 /\
  1 <= JSDate.date (JSDate.DateFromDay d) <= 31.
Proof.
  pose proof (YearFromDay_spec d) as Hy.
  rewrite DaysInYear in Hy.
  unfold JSDate.DateFromDay. cbn [JSDate.month JSDate.date].
  set (dwy := d - JSDate.DayFromYear (JSDate.YearFromDay d)).
  assert (Hdwy : 0 <= dwy < 365 + (if JSDate.InLeapYear (JSDate.YearFromDay d) then 1 else 0))
    by (unfold dwy; lia).
  clearbody dwy. clear Hy.
  unfold JSDate.MonthFromDayWithinYear.
  destruct (JSDate.InLeapYear (JSDate.YearFromDay d));
    repeat match goal with
           | |- context [if ?a <? ?b then _ else _] =>
               let E := fresh "E" in
               destruct (a <? b) eqn:E;
               [apply Z.ltb_lt in E | apply Z.ltb_ge in E]
           end;
    cbn in *; lia.
Qed.

(** ** The date-keyed object *)

Lemma obj_get_None {V} (o : JSObject V) (k : JSDate.IsoDate) :
  obj_get o k = None <-> ~ In k (map fst o).
Proof.
  induction o as [|[k' v] o IH]; simpl.
  - tauto.
  - destruct (JSDate.IsoDate_eqb k' k) eqn:E.
    + apply IsoDate_eqb_eq in E. split; [discriminate | tauto].
    + apply IsoDate_eqb_neq in E. rewrite IH. tauto.
Qed.

Lemma obj_get_Some_key {V} (o : JSObject V) (k : JSDate.IsoDate) (v : V) :
  obj_get o k = Some v -> In k (map fst o).
Proof.
  induction o as [|[k' v'] o IH]; simpl; [discriminate|].
  destruct (JSDate.IsoDate_eqb k' k) eqn:E.
  - apply IsoDate_eqb_eq in E. auto.
  - auto.
Qed.

Lemma obj_set_absent {V} (o : JSObject V) (k : JSDate.IsoDate) (v : V) :
  obj_get o k = None -> obj_set o k v = o ++ [(k, v)].
Proof.
  induction o as [|[k' v'] o IH]; simpl; [reflexivity|].
  destruct (JSDate.IsoDate_eqb k' k); [discriminate|].
  intros H. rewrite IH by assumption. reflexivity.
Qed.

Lemma obj_get_last {V} (o : JSObject V) (k : JSDate.IsoDate) (v : V) :
  obj_get o k = None -> obj_get (o ++ [(k, v)]) k = Some v.
Proof.
  induction o as [|[k' v'] o IH]; simpl.
  - rewrite IsoDate_eqb_refl. reflexivity.
  - destruct (JSDate.IsoDate_eqb k' k); [discriminate | exact IH].
Qed.

Lemma obj_set_last {V} (o : JSObject V) (k : JSDate.IsoDate) (v v' : V) :
  obj_get o k = None -> obj_set (o ++ [(k, v)]) k v' = o ++ [(k, v')].
Proof.
  induction o as [|[k1 v1] o IH]; simpl.
  - rewrite IsoDate_eqb_refl. reflexivity.
  - destruct (JSDate.IsoDate_eqb k1 k); [discriminate|].
    intros H. rewrite IH by assumption. reflexivity.
Qed.

Lemma pushItem_absent (d : DailyData) (k : JSDate.IsoDate) (item : ForecastItem.t) :
  obj_get d k = None -> pushItem d k item = d ++ [(k, [item])].
Proof.
  induction d as [|[k' items] d IH]; simpl; [reflexivity|].
  destruct (JSDate.IsoDate_eqb k' k); [discriminate|].
  intros H. rewrite IH by assumption. reflexivity.
Qed.

Lemma pushItem_present (d : DailyData) (k : JSDate.IsoDate) (item : ForecastItem.t) items :
  obj_get d k = Some items -> obj_set d k (items ++ [item]) = pushItem d k item.
Proof.
  induction d as [|[k' items'] d IH]; simpl; [discriminate|].
  destruct (JSDate.IsoDate_eqb k' k).
  - intros [= ->]. reflexivity.
  - intros H. rewrite IH by assumption. reflexivity.
Qed.

(** A key that is present splits the object at its entry. *)
Lemma pushItem_split (d : DailyData) (k : JSDate.IsoDate) (item : ForecastItem.t) :
  In k (map fst d) ->
  exists d1 items d2,
    d = d1 ++ (k, items) :: d2 /\
    pushItem d k item = d1 ++ (k, items ++ [item]) :: d2.
Proof.
  induction d as [|[k' items'] d IH]; simpl; [tauto|].
  intros H. destruct (JSDate.IsoDate_eqb k' k) eqn:E.
  - apply IsoDate_eqb_eq in E. subst k'. exists [], items', d. split; reflexivity.
  - apply IsoDate_eqb_neq in E. destruct H as [H|H]; [contradiction|].
    destruct (IH H) as (d1 & items & d2 & -> & ->).
    exists ((k', items') :: d1), items, d2. split; reflexivity.
Qed.

(** The [forEach] callback pushes the sample onto its day's array. *)
Lemma bucketItem_pushItem (d : DailyData) (item : ForecastItem.t) :
  validTimestamp item ->
  bucketItem d item = Normal (pushItem d (utcDate item) item).
Proof.
  intros Hv. unfold bucketItem, JSDate.toISODate, JSDate.TimeClip.
  unfold validTimestamp in Hv. apply Z.leb_le in Hv. rewrite Hv. simpl.
  fold (utcDateOfSeconds (ForecastItem.dt item)). fold (utcDate item).
  destruct (obj_get d (utcDate item)) as [items|] eqn:E.
  - rewrite E. rewrite (pushItem_present _ _ _ _ E). reflexivity.
  - rewrite (obj_set_absent _ _ _ E), (obj_get_last _ _ _ E), (obj_set_last _ _ _ _ E).
    rewrite (pushItem_absent _ _ _ E). reflexivity.
Qed.

Lemma bucketItem_invalid (d : DailyData) (item : ForecastItem.t) :
  ~ validTimestamp item -> bucketItem d item = Throw RangeError.
Proof.
  intros Hv. unfold bucketItem, JSDate.toISODate, JSDate.TimeClip.
  unfold validTimestamp in Hv. apply Z.leb_nle in Hv. rewrite Hv. reflexivity.
Qed.

Lemma samplesOn_app (k : JSDate.IsoDate) (l l' : list ForecastItem.t) :
  samplesOn k (l ++ l') = samplesOn k l ++ samplesOn k l'.
Proof. apply filter_app. Qed.

Lemma samplesOn_In (k : JSDate.IsoDate) (l : list ForecastItem.t) (item : ForecastItem.t) :
  In item (samplesOn k l) <-> In item l /\ utcDate item = k.
Proof. unfold samplesOn. rewrite filter_In, IsoDate_eqb_eq. reflexivity. Qed.

Lemma samplesOn_single_same (item : ForecastItem.t) :
  samplesOn (utcDate item) [item] = [item].
Proof. unfold samplesOn. simpl. rewrite IsoDate_eqb_refl. reflexivity. Qed.

Lemma samplesOn_single_other (k : JSDate.IsoDate) (item : ForecastItem.t) :
  utcDate item <> k -> samplesOn k [item] = [].
Proof.
  intros H. unfold samplesOn. simpl. apply IsoDate_eqb_neq in H. rewrite H. reflexivity.
Qed.

Lemma samplesOn_none (k : JSDate.IsoDate) (l : list ForecastItem.t) :
  (forall item, In item l -> utcDate item <> k) -> samplesOn k l = [].
Proof.
  induction l as [|a l IH]; intros H; [reflexivity|].
  unfold samplesOn in *. simpl.
  assert (Ha : utcDate a <> k) by (apply H; left; reflexivity).
  apply IsoDate_eqb_neq in Ha. rewrite Ha. apply IH. intros item Hi. apply H. right. exact Hi.
Qed.

Lemma grouped_nil : grouped [] [].
Proof.
  repeat split; simpl; try constructor; intros; contradiction.
Qed.

(** One [push] keeps the object in step with the samples seen. *)
Lemma grouped_pushItem (seen : list ForecastItem.t) (d : DailyData) (item : ForecastItem.t) :
  grouped seen d -> grouped (seen ++ [item]) (pushItem d (utcDate item) item).
Proof.
  intros (Hnd & Hgr & Hcov).
  destruct (obj_get d (utcDate item)) as [items|] eqn:E.
  - assert (Hin : In (utcDate item) (map fst d)).
    { apply (obj_get_Some_key _ _ _ E). }
    destruct (pushItem_split d (utcDate item) item Hin) as (d1 & its & d2 & Hd & Hp).
    rewrite Hp. subst d.
    assert (Hkeys : map fst (d1 ++ (utcDate item, its ++ [item]) :: d2)
                    = map fst (d1 ++ (utcDate item, its) :: d2)).
    { rewrite !map_app. reflexivity. }
    split; [rewrite Hkeys; exact Hnd|]. split.
    + intros k items' Hk. rewrite samplesOn_app.
      apply in_app_or in Hk. destruct Hk as [Hk|[Hk|Hk]].
      * assert (Hk' : In (k, items') (d1 ++ (utcDate item, its) :: d2))
          by (apply in_or_app; left; exact Hk).
        destruct (Hgr _ _ Hk') as [Hne Heq]. split; [exact Hne|].
        rewrite samplesOn_single_other, app_nil_r; [exact Heq|].
        intros <-. rewrite map_app in Hnd. simpl in Hnd.
        apply NoDup_remove_2 in Hnd. apply Hnd. apply in_or_app. left.
        apply (in_map fst) in Hk. exact Hk.
      * injection Hk as <- <-. split; [destruct its; discriminate|].
        rewrite samplesOn_single_same. f_equal.
        apply (Hgr (utcDate item) its). apply in_or_app. right. left. reflexivity.
      * assert (Hk' : In (k, items') (d1 ++ (utcDate item, its) :: d2))
          by (apply in_or_app; right; right; exact Hk).
        destruct (Hgr _ _ Hk') as [Hne Heq]. split; [exact Hne|].
        rewrite samplesOn_single_other, app_nil_r; [exact Heq|].
        intros <-. rewrite map_app in Hnd. simpl in Hnd.
        apply NoDup_remove_2 in Hnd. apply Hnd. apply in_or_app. right.
        apply (in_map fst) in Hk. exact Hk.
    + intros it Hit. rewrite Hkeys. apply in_app_or in Hit. destruct Hit as [Hit|[<-|[]]].
      * apply Hcov. exact Hit.
      * exact Hin.
  - rewrite (pushItem_absent _ _ _ E). pose proof (proj1 (obj_get_None _ _) E) as Hnot.
    split; [|split].
    + rewrite map_app. simpl. apply NoDup_app.
      * exact Hnd.
      * repeat constructor. simpl. tauto.
      * intros k Hk [<-|[]]. contradiction.
    + intros k items' Hk. rewrite samplesOn_app.
      apply in_app_or in Hk. destruct Hk as [Hk|[Hk|[]]].
      * destruct (Hgr _ _ Hk) as [Hne Heq]. split; [exact Hne|].
        rewrite samplesOn_single_other, app_nil_r; [exact Heq|].
        intros <-. apply Hnot. apply (in_map fst) in Hk. exact Hk.
      * injection Hk as <- <-. split; [discriminate|].
        rewrite samplesOn_single_same.
        rewrite samplesOn_none; [reflexivity|].
        intros it Hit Heq. apply Hnot. rewrite <- Heq. apply Hcov. exact Hit.
    + intros it Hit. rewrite map_app. apply in_or_app.
      apply in_app_or in Hit. destruct Hit as [Hit|[<-|[]]].
      * left. apply Hcov. exact Hit.
      * right. left. reflexivity.
Qed.

(** The whole [forEach]: with every timestamp valid it ends, and the
    object holds each day's samples in input order. *)
Lemma cfold_bucketItem (l seen : list ForecastItem.t) (d : DailyData) :
  Forall validTimestamp l -> grouped seen d ->
  exists d', cfold bucketItem l d = Normal d' /\ grouped (seen ++ l) d'.
Proof.
  revert seen d. induction l as [|item l IH]; intros seen d Hv Hg; simpl.
  - exists d. rewrite app_nil_r. auto.
  - inversion Hv as [|? ? Hitem Hrest]; subst.
    rewrite (bucketItem_pushItem _ _ Hitem). simpl.
    destruct (IH (seen ++ [item]) _ Hrest (grouped_pushItem _ _ item Hg)) as (d' & Hd' & Hg').
    exists d'. split; [exact Hd'|]. rewrite <- app_assoc in Hg'. exact Hg'.
Qed.

Lemma groupByDate_grouped (l : list ForecastItem.t) :
  Forall validTimestamp l ->
  exists d, groupByDate l = Normal d /\ grouped l d.
Proof.
  intros Hv. apply (cfold_bucketItem l [] [] Hv grouped_nil).
Qed.

(** A timestamp no [Date] can hold aborts the grouping. *)
Lemma cfold_bucketItem_invalid (l : list ForecastItem.t) (d : DailyData) :
  ~ Forall validTimestamp l -> cfold bucketItem l d = Throw RangeError.
Proof.
  revert d. induction l as [|item l IH]; intros d Hv; simpl.
  - exfalso. apply Hv. constructor.
  - assert (Hdec : validTimestamp item \/ ~ validTimestamp item)
      by (unfold validTimestamp; lia).
    destruct Hdec as [Hi|Hi].
    + rewrite (bucketItem_pushItem _ _ Hi). simpl. apply IH.
      intros Hl. apply Hv. constructor; assumption.
    + rewrite (bucketItem_invalid _ _ Hi). reflexivity.
Qed.

(** ** Minimum and maximum *)

Lemma Qmin_cases (x y : Q) : Qmin x y = x \/ Qmin x y = y.
Proof.
  unfold Qmin, GenericMinMax.gmin. destruct (x ?= y)%Q; auto.
Qed.

Lemma Qmax_cases (x y : Q) : Qmax x y = x \/ Qmax x y = y.
Proof.
  unfold Qmax, GenericMinMax.gmax. destruct (x ?= y)%Q; auto.
Qed.

Lemma fold_Qmin_minimum (xs : list Q) (x : Q) :
  is_minimum (fold_left Qmin xs x) (x :: xs).
Proof.
  revert x. induction xs as [|y xs IH]; intros x; simpl.
  - split; [left; reflexivity|]. intros z [<-|[]]. apply Qle_refl.
  - destruct (IH (Qmin x y)) as [Hin Hle]. split.
    + destruct Hin as [Hin|Hin]; [|right; right; exact Hin].
      rewrite <- Hin. destruct (Qmin_cases x y) as [E|E]; rewrite E; simpl; auto.
    + intros z [<-|[<-|Hz]].
      * eapply Qle_trans; [apply Hle; left; reflexivity | apply Q.le_min_l].
      * eapply Qle_trans; [apply Hle; left; reflexivity | apply Q.le_min_r].
      * apply Hle. right. exact Hz.
Qed.

Lemma fold_Qmax_maximum (xs : list Q) (x : Q) :
  is_maximum (fold_left Qmax xs x) (x :: xs).
Proof.
  revert x. induction xs as [|y xs IH]; intros x; simpl.
  - split; [left; reflexivity|]. intros z [<-|[]]. apply Qle_refl.
  - destruct (IH (Qmax x y)) as [Hin Hle]. split.
    + destruct Hin as [Hin|Hin]; [|right; right; exact Hin].
      rewrite <- Hin. destruct (Qmax_cases x y) as [E|E]; rewrite E; simpl; auto.
    + intros z [<-|[<-|Hz]].
      * eapply Qle_trans; [apply Q.le_max_l | apply Hle; left; reflexivity].
      * eapply Qle_trans; [apply Q.le_max_r | apply Hle; left; reflexivity].
      * apply Hle. right. exact Hz.
Qed.

Lemma Math_min_minimum (l : list Q) (m : Q) : Math_min l = Some m -> is_minimum m l.
Proof.
  destruct l as [|x xs]; simpl; [discriminate|]. intros [= <-]. apply fold_Qmin_minimum.
Qed.

Lemma Math_max_maximum (l : list Q) (m : Q) : Math_max l = Some m -> is_maximum m l.
Proof.
  destruct l as [|x xs]; simpl; [discriminate|]. intros [= <-]. apply fold_Qmax_maximum.
Qed.

(** ** Array reads *)

Lemma item_at_Some {A} (a : list A) (i : Z) :
  0 <= i < length_of a -> exists x, item_at a i = Some x /\ In x a.
Proof.
  intros [H0 H1]. unfold item_at, length_of in *.
  destruct (i <? 0) eqn:E; [apply Z.ltb_lt in E; lia|].
  destruct (nth_error a (Z.to_nat i)) as [x|] eqn:En.
  - exists x. split; [reflexivity|]. eapply nth_error_In. exact En.
  - apply nth_error_None in En. lia.
Qed.

Lemma length_of_pos {A} (a : list A) : a <> [] -> 0 < length_of a.
Proof. destruct a; [congruence|]. intros _. unfold length_of. simpl. lia. Qed.

(** ** One day *)

Lemma processDay_nonempty (k : JSDate.IsoDate) (items : list ForecastItem.t) :
  items <> [] ->
  exists r, processDay (k, items) = Normal r /\ dayRecord k items r.
Proof.
  intros Hne. pose proof (length_of_pos items Hne) as Hn.
  set (n := length_of items) in *.
  assert (Hmid : 0 <= n / 2 < n).
  { split; [apply Z.div_pos; lia | apply Z.div_lt_upper_bound; lia]. }
  destruct (item_at_Some items 0 ltac:(fold n; lia)) as (first & Hfirst & _).
  destruct (item_at_Some items (n / 2) Hmid) as (mid & Hm & _).
  destruct (item_at_Some items (Z.min (n - 1) (n / 2 + 2)) ltac:(fold n; lia))
    as (evening & Heve & _).
  destruct (item_at_Some items (n - 1) ltac:(fold n; lia)) as (last & Hlast & _).
  destruct (Math_min (map tempOf items)) as [minTemp|] eqn:Emin;
    [|destruct items; [congruence | discriminate]].
  destruct (Math_max (map tempOf items)) as [maxTemp|] eqn:Emax;
    [|destruct items; [congruence | discriminate]].
  unfold processDay. fold n. rewrite Emin, Emax, Hm, Hfirst, Heve, Hlast.
  eexists. split; [reflexivity|].
  unfold dayRecord. fold n. simpl.
  split; [reflexivity|].
  split; [apply Math_min_minimum; exact Emin|].
  split; [apply Math_max_maximum; exact Emax|].
  split; [reflexivity|].
  exists first, mid, evening, last. repeat split; assumption.
Qed.

Lemma processDay_empty (k : JSDate.IsoDate) : processDay (k, []) = Throw TypeError.
Proof. reflexivity. Qed.

Lemma cmap_Forall2 {A B} (f : A -> Completion B) (P : A -> B -> Prop) (l : list A) :
  (forall a, In a l -> exists b, f a = Normal b /\ P a b) ->
  exists bs, cmap f l = Normal bs /\ Forall2 P l bs.
Proof.
  induction l as [|a l IH]; intros H; simpl.
  - exists []. split; [reflexivity | constructor].
  - destruct (H a (or_introl eq_refl)) as (b & Hb & HP). rewrite Hb. simpl.
    destruct IH as (bs & Hbs & HF); [intros a' Ha'; apply H; right; exact Ha'|].
    rewrite Hbs. simpl. exists (b :: bs). split; [reflexivity | constructor; assumption].
Qed.

(** ** Days and their records *)

Lemma Day_of_seconds (seconds : Z) : JSDate.Day (seconds * 1000) = seconds / 86400.
Proof.
  unfold JSDate.Day, JSDate.msPerDay.
  replace 86400000 with (86400 * 1000) by reflexivity.
  rewrite Z.div_mul_cancel_r by lia. reflexivity.
Qed.

(** The [dt] written for a day is that day's UTC midnight, and names
    the day again. *)
Lemma midnight_of_utcDate (seconds : Z) :
  JSDate.getTimeOfIsoDate (utcDateOfSeconds seconds) / 1000 = 86400 * (seconds / 86400).
Proof.
  unfold JSDate.getTimeOfIsoDate, utcDateOfSeconds.
  rewrite MakeDay_DateFromDay, Day_of_seconds. unfold JSDate.msPerDay.
  replace (seconds / 86400 * 86400000) with (86400 * (seconds / 86400) * 1000) by lia.
  apply Z.div_mul. lia.
Qed.

Lemma utcDate_of_midnight (seconds : Z) :
  utcDateOfSeconds (JSDate.getTimeOfIsoDate (utcDateOfSeconds seconds) / 1000)
  = utcDateOfSeconds seconds.
Proof.
  rewrite midnight_of_utcDate. unfold utcDateOfSeconds. rewrite !Day_of_seconds.
  rewrite (Z.mul_comm 86400), Z.div_mul by lia. reflexivity.
Qed.

Lemma Forall2_map_eq {A B C} (P : A -> B -> Prop) (f : A -> C) (g : B -> C) l l' :
  Forall2 P l l' -> (forall a b, In a l -> P a b -> g b = f a) -> map g l' = map f l.
Proof.
  induction 1 as [|a b l l' HP HF IH]; intros H; simpl; [reflexivity|].
  rewrite (H a b (or_introl eq_refl) HP), IH; [reflexivity|].
  intros a' b' Ha'. apply H. right. exact Ha'.
Qed.

Lemma Forall2_In_r {A B} (P : A -> B -> Prop) l l' (b : B) :
  Forall2 P l l' -> In b l' -> exists a, In a l /\ P a b.
Proof.
  induction 1 as [|a0 b0 l l' HP HF IH]; intros Hb; [contradiction|].
  destruct Hb as [<-|Hb].
  - exists a0. split; [left; reflexivity | exact HP].
  - destruct (IH Hb) as (a & Ha & HPa). exists a. split; [right; exact Ha | exact HPa].
Qed.

(** The shape of every successful run: one record per calendar day of
    the input, built from exactly that day's samples. *)
Lemma processForecastData_days (l : list ForecastItem.t) (units : Units) :
  Forall validTimestamp l ->
  exists out,
    processForecastData l units = Normal out /\
    NoDup (map recordDate out) /\
    (forall item, In item l -> In (utcDate item) (map recordDate out)) /\
    (forall r, In r out ->
       samplesOn (recordDate r) l <> [] /\
       dayRecord (recordDate r) (samplesOn (recordDate r) l) r).
Proof.
  intros Hv. destruct (groupByDate_grouped l Hv) as (d & Hd & Hnd & Hgr & Hcov).
  unfold processForecastData. rewrite Hd. simpl. unfold Object_entries.
  destruct (cmap_Forall2 processDay
              (fun e r => dayRecord (fst e) (snd e) r /\ recordDate r = fst e) d)
    as (out & Hout & HF).
  { intros [k items] Hk. destruct (Hgr _ _ Hk) as [Hne Heq].
    destruct (processDay_nonempty k items Hne) as (r & Hr & Hrec).
    exists r. split; [exact Hr|]. split; [exact Hrec|]. simpl.
    destruct items as [|item items']; [congruence|].
    assert (Hi : In item (samplesOn k l)) by (rewrite <- Heq; left; reflexivity).
    apply samplesOn_In in Hi. destruct Hi as [_ <-].
    unfold recordDate. destruct Hrec as [-> _]. apply utcDate_of_midnight. }
  exists out. split; [exact Hout|].
  assert (Hkeys : map recordDate out = map fst d).
  { apply (Forall2_map_eq _ _ _ _ _ HF). intros a b _ [_ H]. exact H. }
  rewrite Hkeys. split; [exact Hnd|]. split; [exact Hcov|].
  intros r Hr. destruct (Forall2_In_r _ _ _ _ HF Hr) as ([k items] & Hk & Hrec & Hdate).
  simpl in Hrec, Hdate. rewrite Hdate. destruct (Hgr _ _ Hk) as [Hne Heq].
  rewrite <- Heq. split; assumption.
Qed.

(** A timestamp outside the range of [Date] makes the run throw. *)
Lemma processForecastData_invalid (l : list ForecastItem.t) (units : Units) :
  ~ Forall validTimestamp l -> processForecastData l units = Throw RangeError.
Proof.
  intros Hv. unfold processForecastData, groupByDate.
  rewrite (cfold_bucketItem_invalid l [] Hv). reflexivity.
Qed.

Lemma filter_unique {A B} (f : A -> B) (eqb : B -> B -> bool) (l : list A) (x : B) :
  (forall a b, eqb a b = true <-> a = b) ->
  NoDup (map f l) -> In x (map f l) ->
  List.length (filter (fun a => eqb (f a) x) l) = 1%nat.
Proof.
  intros Heqb. induction l as [|a l IH]; simpl; intros Hnd Hin; [contradiction|].
  inversion Hnd as [|? ? Hnot Hnd']; subst.
  destruct (eqb (f a) x) eqn:E.
  - apply Heqb in E. subst x. simpl. f_equal.
    assert (Hnone : forall a', In a' l -> eqb (f a') (f a) = false).
    { intros a' Ha'. destruct (eqb (f a') (f a)) eqn:E'; [|reflexivity].
      apply Heqb in E'. exfalso. apply Hnot. rewrite <- E'. apply in_map. exact Ha'. }
    clear -Hnone. induction l as [|b l IH]; [reflexivity|]. simpl.
    rewrite (Hnone b (or_introl eq_refl)). apply IH. intros a' Ha'. apply Hnone. right. exact Ha'.
  - destruct Hin as [Hin|Hin].
    + exfalso. apply Heqb in Hin. congruence.
    + apply IH; assumption.
Qed.

(** ** Grouping, minimum and maximum *)

(** C1. With every timestamp one a [Date] can hold, [processForecastData]
    returns, its records stand for pairwise distinct UTC calendar days,
    these are exactly the days of the input samples, every sample's day
    is the day of exactly one record, and each record's [temp.min] and
    [temp.max] are the least and the greatest [main.temp] among the
    input samples of its day. *)
Theorem processForecastData_groups_by_utc_day (l : list ForecastItem.t) (units : Units) :
  Forall validTimestamp l ->
  exists out,
    processForecastData l units = Normal out /\
    NoDup (map recordDate out) /\
    (forall d, In d (map recordDate out) <-> exists item, In item l /\ utcDate item = d) /\
    (forall item, In item l ->
       List.length
         (filter (fun r => JSDate.IsoDate_eqb (recordDate r) (utcDate item)) out) = 1%nat) /\
    (forall r, In r out ->
       is_minimum (ForecastData.Temp.min (ForecastData.temp r))
                  (map tempOf (samplesOn (recordDate r) l)) /\
       is_maximum (ForecastData.Temp.max (ForecastData.temp r))
                  (map tempOf (samplesOn (recordDate r) l))).
Proof.
  intros Hv. destruct (processForecastData_days l units Hv) as (out & Hout & Hnd & Hcov & Hrec).
  exists out. split; [exact Hout|]. split; [exact Hnd|]. split; [|split].
  - intros d. split.
    + intros Hd. apply in_map_iff in Hd. destruct Hd as (r & <- & Hr).
      destruct (Hrec r Hr) as [Hne _].
      destruct (samplesOn (recordDate r) l) as [|item rest] eqn:E; [congruence|].
      assert (Hi : In item (samplesOn (recordDate r) l)) by (rewrite E; left; reflexivity).
      apply samplesOn_In in Hi. exists item. exact Hi.
    + intros (item & Hi & <-). apply Hcov. exact Hi.
  - intros item Hi.
    apply (filter_unique recordDate JSDate.IsoDate_eqb out (utcDate item) IsoDate_eqb_eq Hnd).
    apply Hcov. exact Hi.
  - intros r Hr. destruct (Hrec r Hr) as [_ (_ & Hmin & Hmax & _)]. split; assumption.
Qed.

(** The statement above at the four samples of [twoDays]. *)
Lemma processForecastData_groups_by_utc_day_witness :
  exists out,
    processForecastData twoDays metric = Normal out /\
    NoDup (map recordDate out) /\
    (forall d, In d (map recordDate out) <-> exists item, In item twoDays /\ utcDate item = d) /\
    (forall item, In item twoDays ->
       List.length
         (filter (fun r => JSDate.IsoDate_eqb (recordDate r) (utcDate item)) out) = 1%nat) /\
    (forall r, In r out ->
       is_minimum (ForecastData.Temp.min (ForecastData.temp r))
                  (map tempOf (samplesOn (recordDate r) twoDays)) /\
       is_maximum (ForecastData.Temp.max (ForecastData.temp r))
                  (map tempOf (samplesOn (recordDate r) twoDays))).
Proof.
  apply (processForecastData_groups_by_utc_day twoDays metric).
  unfold twoDays.
  repeat (apply Forall_cons; [apply Z.leb_le; reflexivity|]). apply Forall_nil.
Defined.

(** ** Probability of precipitation *)

Lemma orQ_popOrZero (item : ForecastItem.t) :
  (orQ (ForecastItem.pop item) 0 == popOrZero item)%Q.
Proof.
  unfold popOrZero. destruct (ForecastItem.pop item) as [p|]; simpl; [|reflexivity].
  destruct (Qeq_bool p 0) eqn:E; [|reflexivity].
  apply Qeq_bool_iff in E. symmetry. exact E.
Qed.

(** ** Snapshots *)

(** C3. At [frostyMorning], two samples of 1970-01-01 that read 0 and
    5 degrees, the code returns one record for the day of both. Its
    [temp.morn] is 5, the reading of the middle sample, although the
    first sample of the day reads 0: the guard [||] takes the zero for
    a missing reading. [temp.min], which is read without the guard,
    is 0. *)
Theorem processForecastData_zero_reading_morning :
  exists r,
    processForecastData frostyMorning metric = Normal [r] /\
    samplesOn (recordDate r) frostyMorning = frostyMorning /\
    item_at frostyMorning 0 = Some frost /\
    (tempOf frost == 0)%Q /\
    (ForecastData.Temp.morn (ForecastData.temp r) == 5)%Q /\
    ~ (ForecastData.Temp.morn (ForecastData.temp r) == tempOf frost)%Q /\
    (ForecastData.Temp.min (ForecastData.temp r) == 0)%Q.
Proof.
  eexists. split; [vm_compute; reflexivity|]. split; [reflexivity|]. split; [reflexivity|].
  split; [reflexivity|]. split; [reflexivity|]. split; [|reflexivity].
  vm_compute. discriminate.
Qed.

Lemma orQ_either (v d : Q) : orQ (Some v) d = v \/ orQ (Some v) d = d.
Proof. simpl. destruct (Qeq_bool v 0); auto. Qed.

(** C8. With every timestamp one a [Date] can hold, [processForecastData]
    returns, and in each record every snapshot ([temp.morn], [temp.day],
    [temp.eve], [temp.night]) is the temperature of a sample of the
    record's day and lies between [temp.min] and [temp.max]. *)
Theorem processForecastData_snapshots_within_range (l : list ForecastItem.t) (units : Units) :
  Forall validTimestamp l ->
  exists out,
    processForecastData l units = Normal out /\
    forall r, In r out ->
      let t := ForecastData.temp r in
      forall s,
        In s [ForecastData.Temp.morn t; ForecastData.Temp.day t;
              ForecastData.Temp.eve t; ForecastData.Temp.night t] ->
        In s (map tempOf (samplesOn (recordDate r) l)) /\
        (ForecastData.Temp.min t <= s <= ForecastData.Temp.max t)%Q.
Proof.
  intros Hv. destruct (processForecastData_days l units Hv) as (out & Hout & _ & _ & Hrec).
  exists out. split; [exact Hout|]. intros r Hr t s Hs.
  destruct (Hrec r Hr) as [_ (_ & Hmin & Hmax & _ & first & mid & evening & last & H)].
  destruct H as (H0 & Hm & He & Hl & Hday & Hmorn & Heve & Hnight).
  fold t in Hmin, Hmax, Hday, Hmorn, Heve, Hnight.
  assert (Hat : forall i x, item_at (samplesOn (recordDate r) l) i = Some x ->
                            In (tempOf x) (map tempOf (samplesOn (recordDate r) l))).
  { intros i x Hx. apply in_map. unfold item_at in Hx.
    destruct (i <? 0); [discriminate|]. eapply nth_error_In. exact Hx. }
  assert (Hin : In s (map tempOf (samplesOn (recordDate r) l))).
  { simpl in Hs. destruct Hs as [<-|[<-|[<-|[<-|[]]]]].
    - rewrite Hmorn. destruct (orQ_either (tempOf first) (tempOf mid)) as [->| ->]; eauto.
    - rewrite Hday. eauto.
    - rewrite Heve. destruct (orQ_either (tempOf evening) (tempOf mid)) as [->| ->]; eauto.
    - rewrite Hnight. destruct (orQ_either (tempOf last) (tempOf mid)) as [->| ->]; eauto. }
  split; [exact Hin|]. split; [apply Hmin | apply Hmax]; exact Hin.
Qed.

(** The statement above at [frostyMorning], where the fallback is taken. *)
Lemma processForecastData_snapshots_within_range_witness :
  exists out,
    processForecastData frostyMorning metric = Normal out /\
    forall r, In r out ->
      let t := ForecastData.temp r in
      forall s,
        In s [ForecastData.Temp.morn t; ForecastData.Temp.day t;
              ForecastData.Temp.eve t; ForecastData.Temp.night t] ->
        In s (map tempOf (samplesOn (recordDate r) frostyMorning)) /\
        (ForecastData.Temp.min t <= s <= ForecastData.Temp.max t)%Q.
Proof.
  apply (processForecastData_snapshots_within_range frostyMorning metric).
  unfold frostyMorning.
  repeat (apply Forall_cons; [apply Z.leb_le; reflexivity|]). apply Forall_nil.
Defined.

(** ** Running [IO] computations *)

Lemma returns_ret {A} (a : A) (w : World) (P : A -> World -> Prop) :
  P a w -> returns (ret a) w P.
Proof. intros H. exists a, w. split; [reflexivity | exact H]. Qed.

Lemma returns_bind {A B} (m : IO A) (k : A -> IO B) (w : World) (P : B -> World -> Prop) :
  returns m w (fun a w1 => returns (k a) w1 P) -> returns (bind m k) w P.
Proof.
  intros (a & w1 & Hm & b & w2 & Hk & HP). exists b, w2. split; [|exact HP].
  unfold bind. rewrite Hm. exact Hk.
Qed.

Lemma returns_weaken {A} (m : IO A) (w : World) (P Q : A -> World -> Prop) :
  returns m w P -> (forall a w', P a w' -> Q a w') -> returns m w Q.
Proof. intros (a & w' & Hm & HP) H. exists a, w'. split; [exact Hm | apply H; exact HP]. Qed.

Lemma returns_try_catch {A} (m : IO A) (h : Exception -> IO A) (w : World)
      (P : A -> World -> Prop) :
  (forall a w', m w = (Normal a, w') -> P a w') ->
  (forall e w', m w = (Throw e, w') -> returns (h e) w' P) ->
  returns (try_catch m h) w P.
Proof.
  intros Hn Ht. unfold returns, try_catch in *. destruct (m w) as [[a|e] w'] eqn:E.
  - exists a, w'. split; [reflexivity | apply Hn; reflexivity].
  - apply Ht. reflexivity.
Qed.

Lemma returns_Math_random (w : World) (P : Q -> World -> Prop) :
  (forall r w', random_used w' = S (random_used w) ->
                console w' = console w -> sent w' = sent w -> P r w') ->
  returns Math_random w P.
Proof.
  intros H. eexists _, _. split; [reflexivity|]. apply H; reflexivity.
Qed.

Lemma returns_randomChoice (choices : list string) (w : World) (P : string -> World -> Prop) :
  (forall s w', random_used w' = S (random_used w) ->
                console w' = console w -> sent w' = sent w -> P s w') ->
  returns (randomChoice choices) w P.
Proof.
  intros H. unfold randomChoice. apply returns_bind. apply returns_Math_random.
  intros r w' Hr Hc Hs. apply returns_ret. apply H; assumption.
Qed.

Lemma returns_mapM {A B} (f : A -> IO B) (l : list A) (I : nat -> World -> Prop)
      (R : A -> B -> Prop) (w : World) :
  (forall n a w1, In a l -> I n w1 -> returns (f a) w1 (fun b w2 => R a b /\ I (S n) w2)) ->
  forall n, I n w ->
  returns (mapM f l) w (fun bs w' => Forall2 R l bs /\ I (n + List.length l)%nat w').
Proof.
  revert w. induction l as [|a l IH]; intros w Hf n HI; simpl.
  - apply returns_ret. split; [constructor|]. rewrite Nat.add_0_r. exact HI.
  - apply returns_bind.
    eapply returns_weaken; [apply (Hf n a w (or_introl eq_refl) HI)|].
    intros b w1 [HR HI1]. apply returns_bind.
    eapply returns_weaken.
    + apply (IH w1); [|exact HI1]. intros m a' w2 Ha'. apply Hf. right. exact Ha'.
    + intros bs w2 [HF HI2]. apply returns_ret. split; [constructor; assumption|].
      rewrite <- Nat.add_succ_comm. exact HI2.
Qed.

(** ** [fetchCities] *)

Lemma refine_params_not_named (key : string) (fs : list (string * string)) :
  (forall k, String.eqb ("refine." +++ k) key = false) ->
  filter (fun kv : string * QueryValue => String.eqb (fst kv) key)
         (flat_map (fun '(key, value) =>
                      if truthy value then [("refine." +++ key, QStr value)] else [])
                   fs) = [].
Proof.
  intros Hk. induction fs as [|[k v] fs IH]; [reflexivity|].
  cbn [flat_map]. rewrite filter_app, IH, app_nil_r.
  destruct (truthy v); [|reflexivity].
  cbn [filter fst]. rewrite Hk. reflexivity.
Qed.

Lemma citiesQuery_start (params : FetchCitiesParams) :
  paramsNamed "start" (citiesQuery params)
  = [QStr (Number_toString ((default (page params) 1 - 1) * default (limit params) 20))].
Proof.
  unfold paramsNamed, citiesQuery.
  rewrite !filter_app, refine_params_not_named by (intros k; reflexivity).
  destruct (truthy (default (search params) "")); reflexivity.
Qed.

Lemma citiesQuery_sort (params : FetchCitiesParams) :
  paramsNamed "sort" (citiesQuery params)
  = [QStr ((match default (sortDirection params) asc with desc => "-" | asc => "" end)
           +++ default (sortField params) "name")].
Proof.
  unfold paramsNamed, citiesQuery.
  rewrite !filter_app, refine_params_not_named by (intros k; reflexivity).
  destruct (truthy (default (search params) "")); reflexivity.
Qed.

Lemma dash_prefix_changes (s : string) : "-" +++ s <> s.
Proof.
  intros H. apply (f_equal String.length) in H. simpl in H. lia.
Qed.

(** C7. When the city directory answers OK with a listing of [nhits]
    hits, [fetchCities] with page [p] and limit [l] (1 and 20 when not
    given) has sent exactly one request, whose only [start] parameter is
    [(p-1)*l] and whose only [sort] parameter is the sort field,
    prefixed with "-" exactly when the direction is [desc]; it returns
    [total = nhits], and [hasMore] is true exactly when [(p-1)*l] plus
    the number of returned cities is less than [nhits]. The numbers are
    safe integers: [p], [l], the offset [(p-1)*l], its sum with the
    number of cities, and [nhits]. *)
Theorem fetchCities_success (w : World) (params : FetchCitiesParams)
        (httpStatus nhits : Z) (records : list CityRecord.t) :
  let p := default (page params) 1 in
  let l := default (limit params) 20 in
  let field := default (sortField params) "name" in
  let direction := default (sortDirection params) asc in
  nextResult w (citiesRequest params)
    = Resolved (mkResponse true httpStatus (Some (CitiesJson nhits records))) ->
  safeInteger p -> safeInteger l -> safeInteger ((p - 1) * l) ->
  safeInteger ((p - 1) * l + length_of records) -> safeInteger nhits ->
  returns (fetchCities params) w (fun res w' =>
    exists q sortValue,
      sent w' = sent w ++ [mkRequest citiesEndpoint q] /\
      paramsNamed "start" q = [QStr (Number_toString ((p - 1) * l))] /\
      paramsNamed "sort" q = [QStr sortValue] /\
      (sortValue = "-" +++ field <-> direction = desc) /\
      (direction <> desc -> sortValue = field) /\
      cities res = map cityOfRecord records /\
      total res = nhits /\
      (hasMore res = true <-> (p - 1) * l + length_of (cities res) < nhits)).
Proof.
  intros p l field direction Hnet _ _ _ _ _.
  unfold returns, fetchCities, fetchCitiesTry, try_catch, bind, fetch.
  unfold nextResult in Hnet. rewrite Hnet. simpl.
  eexists _, _. split; [reflexivity|]. simpl.
  exists (citiesQuery params),
         ((match direction with desc => "-" | asc => "" end) +++ field).
  split; [reflexivity|]. split; [apply citiesQuery_start|].
  split; [apply citiesQuery_sort|]. split; [|split; [|split; [|split]]].
  - destruct direction; simpl; split; try congruence.
    intros H. symmetry in H. apply dash_prefix_changes in H. contradiction.
  - destruct direction; simpl; congruence.
  - reflexivity.
  - reflexivity.
  - fold p l. apply Z.ltb_lt.
Qed.

(** ** [getCityById] *)

(** C10. [getCityById] always returns normally. It returns [null] when
    the directory answers OK with no record, and when the fetch fails
    for an id that does not start with "mock-"; a city is returned only
    from an OK answer with a first record, or after a failed fetch for
    an id that starts with "mock-". *)
Theorem getCityById_never_throws (w : World) (id : string) :
  let res := nextResult w (cityByIdRequest id) in
  returns (getCityById id) w (fun v w' =>
    (forall httpStatus nhits,
       res = Resolved (mkResponse true httpStatus (Some (CitiesJson nhits []))) -> v = None) /\
    (citiesFetchFails res = true -> String.prefix "mock-" id = false -> v = None) /\
    (forall c, v = Some c ->
       (exists httpStatus nhits record rest,
          res = Resolved (mkResponse true httpStatus (Some (CitiesJson nhits (record :: rest))))
          /\ c = cityOfRecord record) \/
       (citiesFetchFails res = true /\ String.prefix "mock-" id = true))).
Proof.
  unfold returns, getCityById, getCityByIdTry, getCityByIdCatch, cityByIdRequest,
    try_catch, bind, fetch, nextResult.
  destruct (network w (List.length (sent w)) _)
    as [|[[|] st [[n [|record rest]|data|items|]|]]] eqn:E; simpl;
    try (destruct (String.prefix "mock-" id) eqn:Ep; simpl);
    (eexists _, _; split; [reflexivity|]);
    (split; [intros ? ? H; try discriminate H; try reflexivity
            |split; [intros H1 H2; try discriminate H1; try discriminate H2; try reflexivity
                    |intros c Hc; try discriminate Hc]]).
  all: try (right; split; reflexivity).
  all: left; injection Hc as <-; exists st, n, record, rest; split; reflexivity.
Qed.

(** With every request rejected, an id without the prefix gives [null]. *)
Lemma getCityById_never_throws_witness :
  returns (getCityById "fr-75056") offline (fun v _ => v = None).
Proof.
  destruct (getCityById_never_throws offline "fr-75056") as (v & w' & Hrun & _ & Hnull & _).
  exists v, w'. split; [exact Hrun|]. apply Hnull; reflexivity.
Defined.

(** ** [fetchWeatherForCities] *)

Lemma sameIdentity_refl (c : City.t) : sameIdentity c c.
Proof. repeat split. Qed.

Lemma withWeather_sameIdentity (city c : City.t) (weatherData : Json) :
  withWeather city weatherData = Normal c -> sameIdentity city c.
Proof.
  unfold withWeather. destruct weatherData as [| data | |]; try discriminate.
  destruct (WeatherData.weather data); [discriminate|].
  intros [= <-]. repeat split.
Qed.

Lemma updateCityWeather_sameIdentity (city c : City.t) (weatherData : Json) :
  updateCityWeather city weatherData = Normal c -> sameIdentity city c.
Proof. apply withWeather_sameIdentity. Qed.

Lemma cityOutcome_sameIdentity (city : City.t) (res : FetchResult) :
  sameIdentity city (cityOutcome city res).
Proof.
  unfold cityOutcome. destruct res as [|[[|] st [j|]]]; try apply sameIdentity_refl.
  destruct (withWeather city j) as [c|e] eqn:E; [|apply sameIdentity_refl].
  apply (withWeather_sameIdentity _ _ _ E).
Qed.

Lemma cityOutcome_failure (city : City.t) (res : FetchResult) :
  weatherFetchFails res = true -> cityOutcome city res = city.
Proof.
  unfold cityOutcome, weatherFetchFails.
  destruct res as [|[[|] st [[| data | |]|]]]; simpl; try reflexivity; try discriminate.
  destruct (WeatherData.weather data); [reflexivity | discriminate].
Qed.

(** The per-city callback never throws: it issues one request, draws
    no random number, and its result depends on the world only through
    what that request yields. A failure leaves one console entry. *)
Lemma fetchCityWeather_run (units : Units) (apiKey : string) (city : City.t) (w : World) :
  let res := nextResult w (cityRequest units apiKey city) in
  returns (fetchCityWeather units apiKey city) w (fun c w' =>
    c = cityOutcome city res /\
    sent w' = sent w ++ [cityRequest units apiKey city] /\
    network w' = network w /\
    random_used w' = random_used w /\
    exists log, console w' = console w ++ log /\
      (weatherFetchFails res = true ->
       exists e, log = [mkLog error ("Error fetching weather for " +++ City.name city +++ ":")
                              (Some e)])).
Proof.
  unfold returns, fetchCityWeather, cityRequest, try_catch, bind, fetch, nextResult, lift.
  destruct (network w (List.length (sent w)) _)
    as [|[[|] st [[n records|data|items|]|]]] eqn:E; simpl;
    try (destruct (WeatherData.weather data) as [|w0 ws] eqn:Ew; simpl);
    (eexists _, _; split; [reflexivity|]); simpl;
    (split; [try rewrite Ew; reflexivity|]);
    (split; [reflexivity|]); (split; [reflexivity|]); (split; [reflexivity|]).
  all: try (eexists; split; [reflexivity|]; intros _; eexists; reflexivity).
  exists []. split; [rewrite app_nil_r; reflexivity | discriminate].
Qed.

Lemma mapM_fetchCityWeather (units : Units) (apiKey : string) (cities : list City.t) (w : World) :
  returns (mapM (fetchCityWeather units apiKey) cities) w (fun out w' =>
    out = cityOutcomes units apiKey (network w) (List.length (sent w)) cities /\
    sent w' = sent w ++ map (cityRequest units apiKey) cities /\
    network w' = network w /\
    random_used w' = random_used w /\
    exists log, console w' = console w ++ log /\
      forall i city,
        nth_error cities i = Some city ->
        weatherFetchFails (network w (List.length (sent w) + i)%nat
                                   (cityRequest units apiKey city)) = true ->
        exists e, In (mkLog error ("Error fetching weather for " +++ City.name city +++ ":")
                            (Some e)) log).
Proof.
  revert w. induction cities as [|city rest IH]; intros w; simpl.
  - apply returns_ret. rewrite app_nil_r. repeat split. exists []. rewrite app_nil_r.
    split; [reflexivity|]. intros [|i] c H; discriminate H.
  - apply returns_bind.
    eapply returns_weaken; [apply fetchCityWeather_run|].
    intros c w1 (Hc & Hsent & Hnet & Hrand & log1 & Hlog1 & Hfail1).
    apply returns_bind. eapply returns_weaken; [apply IH|].
    intros cs w2 (Hcs & Hsent2 & Hnet2 & Hrand2 & log2 & Hlog2 & Hfail2).
    apply returns_ret. split; [|split; [|split; [|split]]].
    + rewrite Hc, Hcs, Hnet, Hsent, length_app. simpl.
      rewrite Nat.add_1_r. reflexivity.
    + rewrite Hsent2, Hsent, <- app_assoc. reflexivity.
    + congruence.
    + congruence.
    + exists (log1 ++ log2). split; [rewrite Hlog2, Hlog1, app_assoc; reflexivity|].
      intros [|i] c' Hc' Hf; simpl in Hc'.
      * injection Hc' as <-. rewrite Nat.add_0_r in Hf.
        destruct (Hfail1 Hf) as (e & ->). exists e. left. reflexivity.
      * rewrite Hnet, Hsent, length_app in Hfail2. simpl in Hfail2.
        destruct (Hfail2 i c' Hc') as (e & He).
        { rewrite <- Hf. f_equal. f_equal. lia. }
        exists e. apply in_or_app. right. exact He.
Qed.

Lemma cityOutcomes_nth (units : Units) (apiKey : string) net (cities : list City.t) (n i : nat) :
  nth_error (cityOutcomes units apiKey net n cities) i
  = option_map (fun city => cityOutcome city (net (n + i)%nat (cityRequest units apiKey city)))
               (nth_error cities i).
Proof.
  revert n i. induction cities as [|city rest IH]; intros n i; simpl.
  - destruct i; reflexivity.
  - destruct i as [|i]; simpl.
    + rewrite Nat.add_0_r. reflexivity.
    + rewrite IH, Nat.add_succ_comm. reflexivity.
Qed.

Lemma cityOutcomes_sameIdentity (units : Units) (apiKey : string) net (cities : list City.t) n :
  Forall2 sameIdentity cities (cityOutcomes units apiKey net n cities).
Proof.
  revert n. induction cities as [|city rest IH]; intros n; simpl; constructor.
  - apply cityOutcome_sameIdentity.
  - apply IH.
Qed.

Lemma cityOutcomes_length (units : Units) (apiKey : string) net (cities : list City.t) n :
  List.length (cityOutcomes units apiKey net n cities) = List.length cities.
Proof.
  symmetry. apply (Forall2_length (cityOutcomes_sameIdentity units apiKey net cities n)).
Qed.

Lemma readApiKey_configured (w : World) (apiKey : string) :
  keyConfigured w apiKey -> readApiKey w = (Normal apiKey, w).
Proof.
  intros [Hk Hn]. unfold readApiKey, bind, getenv_OPENWEATHER_API_KEY, ret. rewrite Hk.
  unfold noApiKey in Hn. apply orb_false_iff in Hn. destruct Hn as [Hn _].
  apply negb_false_iff in Hn. rewrite Hn. reflexivity.
Qed.

(** With a key configured the whole operation is the per-city map. *)
Lemma fetchWeatherForCities_configured (w : World) (apiKey : string)
      (cities : list City.t) (units : option Units) :
  keyConfigured w apiKey ->
  returns (fetchWeatherForCities cities units) w (fun out w' =>
    out = cityOutcomes (default units metric) apiKey (network w) (List.length (sent w)) cities /\
    sent w' = sent w ++ map (cityRequest (default units metric) apiKey) cities /\
    random_used w' = random_used w /\
    exists log, console w' = console w ++ log /\
      forall i city,
        nth_error cities i = Some city ->
        weatherFetchFails (network w (List.length (sent w) + i)%nat
                                   (cityRequest (default units metric) apiKey city)) = true ->
        exists e, In (mkLog error ("Error fetching weather for " +++ City.name city +++ ":")
                            (Some e)) log).
Proof.
  intros Hk. destruct (mapM_fetchCityWeather (default units metric) apiKey cities w)
    as (out & w' & Hrun & Hout & Hsent & _ & Hrand & Hlog).
  exists out, w'. split; [|auto].
  unfold fetchWeatherForCities, bind. rewrite (readApiKey_configured _ _ Hk).
  destruct Hk as [_ ->]. unfold try_catch. rewrite Hrun. reflexivity.
Qed.

(** C9. [fetchWeatherForCities] always returns normally, with a list
    of the same length and order as its input in which every city has
    the [id], [name], [country], [latitude], [longitude], [population]
    and [timezone] of the input city at its position. *)
Theorem fetchWeatherForCities_frame (w : World) (cities : list City.t) (units : option Units) :
  returns (fetchWeatherForCities cities units) w (fun out _ =>
    List.length out = List.length cities /\ Forall2 sameIdentity cities out).
Proof.
  assert (Hlen : forall out, Forall2 sameIdentity cities out ->
                   List.length out = List.length cities /\ Forall2 sameIdentity cities out).
  { intros out HF. split; [symmetry; eapply Forall2_length; exact HF | exact HF]. }
  unfold fetchWeatherForCities. apply returns_bind.
  unfold readApiKey. apply returns_bind. eexists _, _. split; [reflexivity|].
  apply returns_ret.
  match goal with |- returns (if noApiKey ?k then _ else _) _ _ => destruct (noApiKey k) end.
  - eapply returns_weaken.
    + apply (returns_mapM mockCityWeather cities (fun _ _ => True) sameIdentity w)
        with (n := 0%nat); [|exact I].
      intros n city w1 _ _. unfold mockCityWeather.
      repeat (apply returns_bind;
              first [apply returns_Math_random | apply returns_randomChoice]; intros).
      apply returns_ret. split; [repeat split | exact I].
    + intros out w' [HF _]. apply Hlen. exact HF.
  - apply returns_try_catch.
    + intros out w' Hrun.
      destruct (mapM_fetchCityWeather (default units metric)
                  (match NEXT_PUBLIC_OPENWEATHER_API_KEY w with
                   | Some k => if truthy k then k else placeholderKey
                   | None => placeholderKey
                   end) cities w) as (out' & w'' & Hrun' & Hout' & _).
      rewrite Hrun in Hrun'. injection Hrun' as -> ->.
      apply Hlen. rewrite Hout'. apply cityOutcomes_sameIdentity.
    + intros e w' Hrun.
      destruct (mapM_fetchCityWeather (default units metric)
                  (match NEXT_PUBLIC_OPENWEATHER_API_KEY w with
                   | Some k => if truthy k then k else placeholderKey
                   | None => placeholderKey
                   end) cities w) as (out' & w'' & Hrun' & _).
      rewrite Hrun in Hrun'. discriminate Hrun'.
Qed.

(** C6. With a key configured, let the request of the city at position
    [i] fail in world [w], and let [w'] be any world in which the
    requests of all other cities yield what they yield in [w]. Then the
    run in [w] sends exactly one request per city, returns the city at
    position [i] as it was given, and returns at every other position
    the city that the run in [w'] returns there. *)
Theorem fetchWeatherForCities_failure_isolated
        (w w' : World) (apiKey : string) (cities : list City.t) (units : option Units)
        (i : nat) (city : City.t) :
  let u := default units metric in
  keyConfigured w apiKey ->
  keyConfigured w' apiKey ->
  nth_error cities i = Some city ->
  weatherFetchFails (network w (List.length (sent w) + i)%nat (cityRequest u apiKey city)) = true ->
  (forall j c, j <> i -> nth_error cities j = Some c ->
     network w' (List.length (sent w') + j)%nat (cityRequest u apiKey c)
     = network w (List.length (sent w) + j)%nat (cityRequest u apiKey c)) ->
  returns (fetchWeatherForCities cities units) w (fun out w1 =>
    sent w1 = sent w ++ map (cityRequest u apiKey) cities /\
    nth_error out i = Some city /\
    returns (fetchWeatherForCities cities units) w' (fun out' _ =>
      List.length out' = List.length out /\
      forall j, j <> i -> nth_error out' j = nth_error out j)).
Proof.
  intros u Hk Hk' Hi Hfail Hsame.
  eapply returns_weaken; [apply (fetchWeatherForCities_configured w apiKey cities units Hk)|].
  intros out w1 (Hout & Hsent & _). fold u in Hout, Hsent.
  split; [exact Hsent|]. split.
  - rewrite Hout, cityOutcomes_nth, Hi. simpl. f_equal. apply cityOutcome_failure. exact Hfail.
  - eapply returns_weaken; [apply (fetchWeatherForCities_configured w' apiKey cities units Hk')|].
    intros out' w1' (Hout' & _). fold u in Hout'. split.
    + rewrite Hout, Hout', !cityOutcomes_length. reflexivity.
    + intros j Hj. rewrite Hout, Hout', !cityOutcomes_nth.
      destruct (nth_error cities j) as [c|] eqn:Ej; [|reflexivity].
      simpl. rewrite (Hsame j c Hj Ej). reflexivity.
Qed.

(** ** Failures and fallbacks *)

Lemma returns_Date_now (w : World) (P : Z -> World -> Prop) :
  (forall w', random_used w' = random_used w ->
              console w' = console w -> sent w' = sent w -> P (now w) w') ->
  returns Date_now w P.
Proof. intros H. eexists _, _. split; [reflexivity|]. apply H; reflexivity. Qed.

Lemma returns_console_log (l : LogLevel) (msg : string) (e : option Exception)
      (w : World) (P : unit -> World -> Prop) :
  (forall w', console w' = console w ++ [mkLog l msg e] ->
              random_used w' = random_used w -> sent w' = sent w -> P tt w') ->
  returns (console_log l msg e) w P.
Proof. intros H. eexists _, _. split; [reflexivity|]. apply H; reflexivity. Qed.

(** One statement of a block: run it, name the world it leaves. *)
Ltac step_io :=
  apply returns_bind;
  first [ apply returns_Math_random | apply returns_randomChoice
        | apply returns_Date_now | apply returns_console_log ];
  intros.

Lemma mockCity_run (offset i : Z) (w : World) :
  returns (mockCity offset i) w (fun c w' =>
    String.prefix "mock-" (City.id c) = true /\
    random_used w' = (random_used w + 5)%nat /\
    console w' = console w /\ sent w' = sent w).
Proof.
  unfold mockCity. do 5 step_io. apply returns_ret. cbn [City.id].
  split; [destruct (Number_toString (i + offset)); reflexivity|].
  split; [lia|]. split; congruence.
Qed.

Lemma Array_from_mockCity (offset limit : Z) (w : World) :
  limit <= 4294967295 ->
  returns (Array_from limit (mockCity offset)) w (fun mockCities w' =>
    List.length mockCities = Z.to_nat limit /\
    Forall (fun c => String.prefix "mock-" (City.id c) = true) mockCities /\
    random_used w' = (random_used w + 5 * List.length mockCities)%nat /\
    console w' = console w /\ sent w' = sent w).
Proof.
  intros Hl. unfold Array_from.
  destruct (4294967295 <? limit) eqn:E; [apply Z.ltb_lt in E; lia|].
  eapply returns_weaken.
  - apply (returns_mapM (fun i => mockCity offset (Z.of_nat i)) (seq 0 (Z.to_nat limit))
             (fun n w1 => random_used w1 = (random_used w + 5 * n)%nat /\
                          console w1 = console w /\ sent w1 = sent w)
             (fun _ c => String.prefix "mock-" (City.id c) = true) w) with (n := 0%nat).
    + intros n i w1 _ (Hr & Hc & Hs).
      eapply returns_weaken; [apply mockCity_run|].
      intros c w2 (Hp & Hr2 & Hc2 & Hs2). split; [exact Hp|].
      repeat split; [lia | congruence | congruence].
    + repeat split. lia.
  - intros mockCities w' (HF & Hr & Hc & Hs). rewrite length_seq in Hr.
    pose proof (Forall2_length HF) as Hlen. rewrite length_seq in Hlen.
    split; [symmetry; exact Hlen|]. split.
    + clear -HF. induction HF; constructor; assumption.
    + rewrite <- Hlen. auto.
Qed.

Lemma fetchCitiesTry_fails (params : FetchCitiesParams) (w : World) :
  citiesFetchFails (nextResult w (citiesRequest params)) = true ->
  exists e w1, fetchCitiesTry params w = (Throw e, w1) /\
               console w1 = console w /\ random_used w1 = random_used w.
Proof.
  unfold fetchCitiesTry, citiesFetchFails, nextResult, bind, fetch.
  destruct (network w (List.length (sent w)) (citiesRequest params))
    as [|[[|] st [[n records|data|items|]|]]]; simpl; intros H; try discriminate H;
    eexists _, _; (split; [reflexivity|]); split; reflexivity.
Qed.

Lemma fetchCitiesCatch_run (params : FetchCitiesParams) (e : Exception) (w : World) :
  default (limit params) 20 <= 4294967295 ->
  returns (fetchCitiesCatch params e) w (fun res w' =>
    console w' = console w ++ [mkLog error "Error fetching cities:" (Some e)] /\
    List.length (cities res) = Z.to_nat (default (limit params) 20) /\
    Forall (fun c => String.prefix "mock-" (City.id c) = true) (cities res) /\
    random_used w' = (random_used w + 5 * List.length (cities res))%nat /\
    total res = 100 /\
    hasMore res = (default (page params) 1 <? 5)).
Proof.
  intros Hl. unfold fetchCitiesCatch, console_error. step_io.
  apply returns_bind. eapply returns_weaken; [apply Array_from_mockCity; exact Hl|].
  intros mockCities w2 (Hlen & HF & Hr & Hc & Hs). apply returns_ret.
  cbn [cities hasMore total].
  repeat split; try assumption; congruence.
Qed.

Lemma getCityByIdTry_fails (id : string) (w : World) :
  citiesFetchFails (nextResult w (cityByIdRequest id)) = true ->
  exists e w1, getCityByIdTry id w = (Throw e, w1) /\
               console w1 = console w /\ random_used w1 = random_used w.
Proof.
  unfold getCityByIdTry, citiesFetchFails, nextResult, bind, fetch.
  destruct (network w (List.length (sent w)) (cityByIdRequest id))
    as [|[[|] st [[n records|data|items|]|]]]; simpl; intros H; try discriminate H;
    eexists _, _; (split; [reflexivity|]); split; reflexivity.
Qed.

Lemma getCityByIdCatch_run (id : string) (e : Exception) (w : World) :
  returns (getCityByIdCatch id e) w (fun v w' =>
    console w' = console w ++ [mkLog error "Error fetching city by ID:" (Some e)] /\
    if String.prefix "mock-" id
    then (exists c, v = Some c /\ City.id c = id) /\ random_used w' = (random_used w + 5)%nat
    else v = None /\ random_used w' = random_used w).
Proof.
  unfold getCityByIdCatch, console_error. step_io.
  destruct (String.prefix "mock-" id).
  - do 5 step_io. apply returns_ret. split; [congruence|].
    split; [eexists; split; reflexivity | lia].
  - apply returns_ret. repeat split; assumption.
Qed.

Lemma mockForecastDay_run (tempUnit windUnit i : Z) (w : World) :
  returns (mockForecastDay tempUnit windUnit i) w (fun _ w' =>
    random_used w' = (random_used w + 10)%nat /\ console w' = console w).
Proof.
  unfold mockForecastDay. do 11 step_io. apply returns_ret. split; [lia | congruence].
Qed.

Lemma getMockWeatherData_run (units : Units) (w : World) :
  returns (getMockWeatherData units) w (fun res w' =>
    List.length (forecast res) = 7%nat /\
    (exists data, current res = WeatherJson data /\ WeatherData.name data = "London") /\
    random_used w' = (random_used w + 70)%nat /\
    console w' = console w).
Proof.
  unfold getMockWeatherData. do 3 step_io.
  apply returns_bind. unfold Array_from.
  change (4294967295 <? 7) with false. cbv iota.
  eapply returns_weaken.
  - apply (returns_mapM _ (seq 0 (Z.to_nat 7))
             (fun n w1 => random_used w1 = (random_used w + 10 * n)%nat /\
                          console w1 = console w)
             (fun _ _ => True)) with (n := 0%nat).
    + intros n i w1 _ (Hr & Hc).
      eapply returns_weaken; [apply mockForecastDay_run|].
      intros c w2 (Hr2 & Hc2). split; [exact I|]. split; [lia | congruence].
    + split; [lia | congruence].
  - intros days wf (HF & Hr & Hc). apply returns_ret. simpl.
    apply Forall2_length in HF. rewrite length_seq in HF, Hr.
    split; [symmetry; exact HF|]. split; [eexists; split; reflexivity|].
    split; [exact Hr | exact Hc].
Qed.

Lemma fetchWeatherTry_fails (params : FetchWeatherParams) (apiKey : string) (w : World) :
  noApiKey apiKey = false ->
  weatherFailure w params apiKey ->
  exists e w1, fetchWeatherTry params apiKey w = (Throw e, w1) /\
               console w1 = console w /\ random_used w1 = random_used w.
Proof.
  intros Hk Hf. unfold fetchWeatherTry. rewrite Hk.
  unfold weatherFailure, currentRequest, forecastRequest, nextResult in Hf.
  unfold bind at 1. unfold fetch at 1.
  destruct Hf as [Hf|(st & currentData & Hfirst & Hf)].
  - destruct (network w (List.length (sent w)) _) as [|[[|] st body1]];
      simpl in Hf; try discriminate Hf; simpl;
      eexists _, _; (split; [reflexivity|]); split; reflexivity.
  - rewrite Hfirst. unfold bind, fetch. simpl. rewrite length_app, Nat.add_1_r. simpl.
    destruct (network w (S (List.length (sent w))) _) as [|[[|] st2 body2]];
      simpl in Hf; try discriminate Hf; simpl;
      eexists _, _; (split; [reflexivity|]); split; reflexivity.
Qed.

Lemma fetchWeatherCatch_run (params : FetchWeatherParams) (e : Exception) (w : World) :
  returns (fetchWeatherCatch params e) w (fun res w' =>
    console w' = console w ++ [mkLog error "Error fetching weather data:" (Some e)] /\
    List.length (forecast res) = 7%nat /\
    (exists data, current res = WeatherJson data /\ WeatherData.name data = "London") /\
    random_used w' = (random_used w + 70)%nat).
Proof.
  unfold fetchWeatherCatch, console_error. step_io.
  eapply returns_weaken; [apply getMockWeatherData_run|].
  intros res w2 (Hlen & Hcur & Hr & Hc).
  repeat split; try assumption; congruence.
Qed.

(** C5, as stated, fails for two of the four operations: with every
    request rejected, [getCityById] on an id that does not start with
    "mock-" returns [null], and [fetchWeatherForCities] returns the city
    as it was given; neither draws a random number. *)
Lemma placeholder_on_failure_counterexample :
  (citiesFetchFails (nextResult offline (cityByIdRequest "fr-75056")) = true /\
   exists w', getCityById "fr-75056" offline = (Normal None, w') /\
              random_used w' = random_used offline) /\
  (weatherFetchFails (nextResult offline (cityRequest metric "k3y" paris)) = true /\
   exists w', fetchWeatherForCities [paris] None offline = (Normal [paris], w') /\
              random_used w' = random_used offline).
Proof.
  split; (split; [reflexivity|]); eexists; split; reflexivity.
Qed.

(** C5, amended. On an upstream fetch failure each of the four
    operations returns normally and leaves a diagnostic on the console.
    [fetchCities] (for a limit of at most 2^32 - 1) returns [limit]
    placeholder cities made from five random draws each, and
    [fetchWeather] a placeholder response made from seventy random
    draws; [getCityById] returns a placeholder city made from five
    random draws when the id starts with "mock-" and [null] otherwise;
    [fetchWeatherForCities] returns the city whose request failed as it
    was given, and draws no random number. *)
Theorem fetch_failure_fallbacks :
  (forall w params,
     default (limit params) 20 <= 4294967295 ->
     citiesFetchFails (nextResult w (citiesRequest params)) = true ->
     returns (fetchCities params) w (fun res w' =>
       (exists e, console w' = console w ++ [mkLog error "Error fetching cities:" (Some e)]) /\
       List.length (cities res) = Z.to_nat (default (limit params) 20) /\
       Forall (fun c => String.prefix "mock-" (City.id c) = true) (cities res) /\
       random_used w' = (random_used w + 5 * List.length (cities res))%nat)) /\
  (forall w id,
     citiesFetchFails (nextResult w (cityByIdRequest id)) = true ->
     returns (getCityById id) w (fun v w' =>
       (exists e, console w' = console w ++ [mkLog error "Error fetching city by ID:" (Some e)]) /\
       if String.prefix "mock-" id
       then (exists c, v = Some c /\ City.id c = id) /\
            random_used w' = (random_used w + 5)%nat
       else v = None /\ random_used w' = random_used w)) /\
  (forall w params apiKey,
     keyConfigured w apiKey ->
     weatherFailure w params apiKey ->
     returns (fetchWeather params) w (fun res w' =>
       (exists e, console w' = console w ++ [mkLog error "Error fetching weather data:" (Some e)]) /\
       List.length (forecast res) = 7%nat /\
       (exists data, current res = WeatherJson data /\ WeatherData.name data = "London") /\
       random_used w' = (random_used w + 70)%nat)) /\
  (forall w cities units apiKey i city,
     keyConfigured w apiKey ->
     nth_error cities i = Some city ->
     weatherFetchFails (network w (List.length (sent w) + i)%nat
                                (cityRequest (default units metric) apiKey city)) = true ->
     returns (fetchWeatherForCities cities units) w (fun out w' =>
       nth_error out i = Some city /\
       random_used w' = random_used w /\
       exists e log,
         console w' = console w ++ log /\
         In (mkLog error ("Error fetching weather for " +++ City.name city +++ ":") (Some e)) log)).
Proof.
  split; [|split; [|split]].
  - intros w params Hl Hf.
    destruct (fetchCitiesTry_fails params w Hf) as (e & w1 & Htry & Hc & Hr).
    destruct (fetchCitiesCatch_run params e w1 Hl)
      as (res & w' & Hrun & Hc' & Hlen & HF & Hr' & _).
    exists res, w'. split; [unfold fetchCities, try_catch; rewrite Htry; exact Hrun|].
    split; [exists e; congruence|]. split; [exact Hlen|]. split; [exact HF | congruence].
  - intros w id Hf.
    destruct (getCityByIdTry_fails id w Hf) as (e & w1 & Htry & Hc & Hr).
    destruct (getCityByIdCatch_run id e w1) as (v & w' & Hrun & Hc' & Hv).
    exists v, w'. split; [unfold getCityById, try_catch; rewrite Htry; exact Hrun|].
    split; [exists e; congruence|].
    destruct (String.prefix "mock-" id); destruct Hv as [Hv Hr']; split; congruence.
  - intros w params apiKey Hk Hf.
    destruct (fetchWeatherTry_fails params apiKey w (proj2 Hk) Hf) as (e & w1 & Htry & Hc & Hr).
    destruct (fetchWeatherCatch_run params e w1) as (res & w' & Hrun & Hc' & Hlen & Hcur & Hr').
    exists res, w'. split.
    + unfold fetchWeather, bind. rewrite (readApiKey_configured _ _ Hk).
      unfold try_catch. rewrite Htry. exact Hrun.
    + split; [exists e; congruence|]. split; [exact Hlen|]. split; [exact Hcur | congruence].
  - intros w cities units apiKey i city Hk Hi Hf.
    eapply returns_weaken; [apply (fetchWeatherForCities_configured w apiKey cities units Hk)|].
    intros out w' (Hout & _ & Hr & log & Hlog & Hfail).
    split; [|split; [exact Hr|]].
    + rewrite Hout, cityOutcomes_nth, Hi. simpl. f_equal. apply cityOutcome_failure. exact Hf.
    + destruct (Hfail i city Hi Hf) as (e & He). exists e, log. split; assumption.
Qed.

(** The four parts above, with every request rejected (and, for the
    list of cities, with only the second one rejected). *)
Lemma fetch_failure_fallbacks_witness :
  returns (fetchCities secondPage) offline (fun res w' =>
    (exists e, console w' = console offline ++ [mkLog error "Error fetching cities:" (Some e)]) /\
    List.length (cities res) = Z.to_nat (default (limit secondPage) 20) /\
    Forall (fun c => String.prefix "mock-" (City.id c) = true) (cities res) /\
    random_used w' = (random_used offline + 5 * List.length (cities res))%nat) /\
  returns (getCityById "mock-7") offline (fun v w' =>
    (exists e, console w' = console offline
                            ++ [mkLog error "Error fetching city by ID:" (Some e)]) /\
    if String.prefix "mock-" "mock-7"
    then (exists c, v = Some c /\ City.id c = "mock-7") /\
         random_used w' = (random_used offline + 5)%nat
    else v = None /\ random_used w' = random_used offline) /\
  returns (fetchWeather parisParams) offline (fun res w' =>
    (exists e, console w' = console offline
                            ++ [mkLog error "Error fetching weather data:" (Some e)]) /\
    List.length (forecast res) = 7%nat /\
    (exists data, current res = WeatherJson data /\ WeatherData.name data = "London") /\
    random_used w' = (random_used offline + 70)%nat) /\
  returns (fetchWeatherForCities [paris; lyon; oslo] None) secondFails (fun out w' =>
    nth_error out 1 = Some lyon /\
    random_used w' = random_used secondFails /\
    exists e log,
      console w' = console secondFails ++ log /\
      In (mkLog error ("Error fetching weather for " +++ City.name lyon +++ ":") (Some e)) log).
Proof.
  destruct fetch_failure_fallbacks as (Hcities & Hcity & Hweather & Hlist).
  split; [|split; [|split]].
  - apply (Hcities offline secondPage); [apply Z.leb_le; reflexivity | reflexivity].
  - apply (Hcity offline "mock-7"). reflexivity.
  - apply (Hweather offline parisParams "k3y"); [split; reflexivity | left; reflexivity].
  - apply (Hlist secondFails [paris; lyon; oslo] None "k3y" 1%nat lyon);
      [split; reflexivity | reflexivity | reflexivity].
Defined.

(** Lyon's request is rejected in [secondFails] and answered in
    [online]; Paris and Oslo come out the same in both. *)
Lemma fetchWeatherForCities_failure_isolated_witness :
  returns (fetchWeatherForCities [paris; lyon; oslo] None) secondFails (fun out w1 =>
    sent w1 = sent secondFails ++ map (cityRequest metric "k3y") [paris; lyon; oslo] /\
    nth_error out 1 = Some lyon /\
    returns (fetchWeatherForCities [paris; lyon; oslo] None) online (fun out' _ =>
      List.length out' = List.length out /\
      forall j, j <> 1%nat -> nth_error out' j = nth_error out j)).
Proof.
  apply (fetchWeatherForCities_failure_isolated secondFails online "k3y"
           [paris; lyon; oslo] None 1%nat lyon).
  - split; reflexivity.
  - split; reflexivity.
  - reflexivity.
  - reflexivity.
  - intros j c Hj _. simpl. destruct j as [|[|j]]; [reflexivity | contradiction | reflexivity].
Defined.

(** Page 2 of 20, sorted by population, descending: [start] is 20 and
    [sort] is [-population]. *)
Lemma fetchCities_success_witness :
  returns (fetchCities secondPage) directoryUp (fun res w' =>
    exists q sortValue,
      sent w' = sent directoryUp ++ [mkRequest citiesEndpoint q] /\
      paramsNamed "start" q = [QStr (Number_toString ((2 - 1) * 20))] /\
      paramsNamed "sort" q = [QStr sortValue] /\
      (sortValue = "-" +++ "population" <-> desc = desc) /\
      (desc <> desc -> sortValue = "population") /\
      cities res = map cityOfRecord
        [ CityRecord.mk "fr-75056"
            (CityFields.mk "Paris" "France" (4885 # 100, 235 # 100) (Some 2138551)
                           (Some "Europe/Paris"));
          CityRecord.mk "fr-69123"
            (CityFields.mk "Lyon" "France" (4575 # 100, 485 # 100) None None) ] /\
      total res = 45 /\
      (hasMore res = true <-> (2 - 1) * 20 + length_of (cities res) < 45)).
Proof.
  apply (fetchCities_success directoryUp secondPage 200 45);
    first [reflexivity | split; apply Z.leb_le; reflexivity].
Defined.

(** * Further properties *)

(** ** [processForecastData]: errors, days and order *)

Lemma cmap_Normal_Forall2 {A B} (f : A -> Completion B) (l : list A) (bs : list B) :
  cmap f l = Normal bs -> Forall2 (fun a b => f a = Normal b) l bs.
Proof.
  revert bs. induction l as [|a l IH]; simpl; intros bs H.
  - injection H as <-. constructor.
  - destruct (f a) as [b|e] eqn:Ea; simpl in H; [|discriminate].
    destruct (cmap f l) as [bs'|e] eqn:El; simpl in H; [|discriminate].
    injection H as <-. constructor; [exact Ea | apply IH; reflexivity].
Qed.

(** Every record of a successful run is what [processDay] makes of the
    input samples of the record's own day, of which there is at least one. *)
Lemma processForecastData_record (l : list ForecastItem.t) (units : Units)
      (out : list ForecastData.t) (r : ForecastData.t) :
  Forall validTimestamp l ->
  processForecastData l units = Normal out ->
  In r out ->
  samplesOn (recordDate r) l <> [] /\
  processDay (recordDate r, samplesOn (recordDate r) l) = Normal r.
Proof.
  intros Hv Hrun Hr.
  destruct (groupByDate_grouped l Hv) as (d & Hd & Hnd & Hgr & Hcov).
  unfold processForecastData in Hrun. rewrite Hd in Hrun. simpl in Hrun.
  unfold Object_entries in Hrun. apply cmap_Normal_Forall2 in Hrun.
  destruct (Forall2_In_r _ _ _ _ Hrun Hr) as ([k items] & Hk & Hday).
  destruct (Hgr _ _ Hk) as [Hne Heq].
  destruct (processDay_nonempty k items Hne) as (r' & Hr' & Hrec).
  rewrite Hday in Hr'. injection Hr' as <-.
  assert (Hdate : recordDate r = k).
  { destruct items as [|item items']; [congruence|].
    assert (Hi : In item (samplesOn k l)) by (rewrite <- Heq; left; reflexivity).
    apply samplesOn_In in Hi. destruct Hi as [_ <-].
    unfold recordDate. destruct Hrec as [-> _]. apply utcDate_of_midnight. }
  rewrite Hdate, <- Heq. split; assumption.
Qed.

Lemma validTimestamp_dec (item : ForecastItem.t) :
  {validTimestamp item} + {~ validTimestamp item}.
Proof. unfold validTimestamp. apply Z_le_dec. Qed.

Lemma Forall_validTimestamp_dec (l : list ForecastItem.t) :
  {Forall validTimestamp l} + {Exists (fun item => ~ validTimestamp item) l}.
Proof.
  induction l as [|item l [IH|IH]].
  - left. constructor.
  - destruct (validTimestamp_dec item) as [H|H].
    + left. constructor; assumption.
    + right. apply Exists_cons_hd. exact H.
  - right. apply Exists_cons_tl. exact IH.
Qed.

(** X1. [processForecastData] returns normally exactly when every
    timestamp is one a [Date] can hold; a single sample outside that
    range makes the whole run throw, and what it throws is a
    [RangeError]. *)
Theorem processForecastData_throws_only_RangeError (l : list ForecastItem.t) (units : Units) :
  match processForecastData l units with
  | Normal _ => Forall validTimestamp l
  | Throw e => e = RangeError /\ Exists (fun item => ~ validTimestamp item) l
  end.
Proof.
  destruct (Forall_validTimestamp_dec l) as [Hv|He].
  - destruct (processForecastData_days l units Hv) as (out & -> & _). exact Hv.
  - rewrite processForecastData_invalid.
    + split; [reflexivity | exact He].
    + intros Hv. apply Exists_exists in He. destruct He as (item & Hi & Hn).
      rewrite Forall_forall in Hv. apply Hn, Hv, Hi.
Qed.

Lemma utcDateOfSeconds_eq (a b : Z) :
  utcDateOfSeconds a = utcDateOfSeconds b <-> a / 86400 = b / 86400.
Proof.
  unfold utcDateOfSeconds. rewrite !Day_of_seconds. split.
  - apply DateFromDay_inj.
  - intros ->. reflexivity.
Qed.

Lemma midnight_of_record (l : list ForecastItem.t) (units : Units)
      (out : list ForecastData.t) (r : ForecastData.t) :
  Forall validTimestamp l ->
  processForecastData l units = Normal out ->
  In r out ->
  exists item, In item l /\ ForecastData.dt r = 86400 * (ForecastItem.dt item / 86400).
Proof.
  intros Hv Hrun Hr.
  destruct (processForecastData_record l units out r Hv Hrun Hr) as [Hne Hday].
  destruct (processDay_nonempty (recordDate r) _ Hne) as (r' & Hr' & Hdt & _).
  rewrite Hday in Hr'. injection Hr' as <-.
  destruct (samplesOn (recordDate r) l) as [|item rest] eqn:E; [congruence|].
  assert (Hi : In item (samplesOn (recordDate r) l)) by (rewrite E; left; reflexivity).
  apply samplesOn_In in Hi. destruct Hi as [Hil Hdate].
  exists item. split; [exact Hil|].
  rewrite Hdt, <- Hdate. apply midnight_of_utcDate.
Qed.

(** X2. The [dt] of every record is a UTC midnight, and the samples
    the record is built from are exactly the input samples whose
    timestamp falls in the 24 hours from that midnight on. *)
Theorem processForecastData_dt_is_utc_midnight (l : list ForecastItem.t) (units : Units) :
  Forall validTimestamp l ->
  exists out,
    processForecastData l units = Normal out /\
    forall r, In r out ->
      ForecastData.dt r mod 86400 = 0 /\
      forall item, In item l ->
        (In item (samplesOn (recordDate r) l) <->
         ForecastData.dt r <= ForecastItem.dt item < ForecastData.dt r + 86400).
Proof.
  intros Hv. destruct (processForecastData_days l units Hv) as (out & Hout & _).
  exists out. split; [exact Hout|]. intros r Hr.
  destruct (midnight_of_record l units out r Hv Hout Hr) as (item0 & Hi0 & Hdt).
  split.
  - rewrite Hdt, Z.mul_comm. apply Z.mod_mul. lia.
  - intros item Hi. rewrite samplesOn_In. unfold utcDate, recordDate.
    rewrite utcDateOfSeconds_eq, Hdt.
    rewrite (Z.mul_comm 86400), Z.div_mul by lia.
    split.
    + intros [_ H]. rewrite <- H.
      pose proof (Z.mul_div_le (ForecastItem.dt item) 86400 ltac:(lia)).
      pose proof (Z.mul_succ_div_gt (ForecastItem.dt item) 86400 ltac:(lia)). lia.
    + intros H. split; [exact Hi|].
      symmetry. apply Z.div_unique with (r := ForecastItem.dt item
                                                - 86400 * (ForecastItem.dt item0 / 86400)); lia.
Qed.

(** Checks the timestamps of a list given in full. *)
Ltac valid_timestamps :=
  repeat (apply Forall_cons; [apply Z.leb_le; reflexivity|]); apply Forall_nil.

(** The statement above at the four samples of [twoDays]. *)
Lemma processForecastData_dt_is_utc_midnight_witness :
  exists out,
    processForecastData twoDays metric = Normal out /\
    forall r, In r out ->
      ForecastData.dt r mod 86400 = 0 /\
      forall item, In item twoDays ->
        (In item (samplesOn (recordDate r) twoDays) <->
         ForecastData.dt r <= ForecastItem.dt item < ForecastData.dt r + 86400).
Proof.
  apply (processForecastData_dt_is_utc_midnight twoDays metric). unfold twoDays.
  valid_timestamps.
Defined.

Lemma processDay_dt (e : JSDate.IsoDate * list ForecastItem.t) (r : ForecastData.t) :
  processDay e = Normal r -> ForecastData.dt r = JSDate.getTimeOfIsoDate (fst e) / 1000.
Proof.
  destruct e as [k items]. unfold processDay.
  destruct (Math_min (map tempOf items)); [|discriminate].
  destruct (Math_max (map tempOf items)); [|discriminate].
  destruct (item_at items (length_of items / 2)); [|discriminate].
  intros [= <-]. reflexivity.
Qed.

Lemma Forall2_impl_In {A B} (P Q : A -> B -> Prop) (l : list A) (l' : list B) :
  Forall2 P l l' ->
  (forall a b, In a l -> In b l' -> P a b -> Q a b) ->
  Forall2 Q l l'.
Proof.
  induction 1 as [|a b l l' HP HF IH]; intros H; constructor.
  - apply H; [left; reflexivity | left; reflexivity | exact HP].
  - apply IH. intros a' b' Ha' Hb'. apply H; right; assumption.
Qed.

(** A successful run, with the object its [forEach] has built. *)
Lemma processForecastData_entries (l : list ForecastItem.t) (units : Units) :
  Forall validTimestamp l ->
  exists d out,
    groupByDate l = Normal d /\
    processForecastData l units = Normal out /\
    Forall2 (fun e r => processDay e = Normal r /\
                        ForecastData.dt r = 86400 * JSDate.MakeDay (fst e) /\
                        snd e = samplesOn (recordDate r) l /\ snd e <> []) d out.
Proof.
  intros Hv. destruct (groupByDate_grouped l Hv) as (d & Hd & Hnd & Hgr & Hcov).
  destruct (processForecastData_days l units Hv) as (out & Hout & _).
  exists d, out. split; [exact Hd|]. split; [exact Hout|].
  pose proof Hout as Hrun. unfold processForecastData in Hrun. rewrite Hd in Hrun.
  simpl in Hrun. unfold Object_entries in Hrun. apply cmap_Normal_Forall2 in Hrun.
  apply (Forall2_impl_In _ _ _ _ Hrun). intros [k items] r Hk Hr Hday.
  split; [exact Hday|]. simpl.
  destruct (Hgr k items Hk) as [Hne Heq].
  pose proof (processDay_dt _ _ Hday) as Hdt. simpl in Hdt.
  split.
  - rewrite Hdt. unfold JSDate.getTimeOfIsoDate, JSDate.msPerDay.
    replace (JSDate.MakeDay k * 86400000) with (86400 * JSDate.MakeDay k * 1000) by lia.
    apply Z.div_mul. lia.
  - split; [|exact Hne].
    assert (Hdate : recordDate r = k).
    { destruct items as [|item items']; [congruence|].
      assert (Hi : In item (samplesOn k l)) by (rewrite <- Heq; left; reflexivity).
      apply samplesOn_In in Hi. destruct Hi as [_ <-].
      unfold recordDate. rewrite Hdt. apply utcDate_of_midnight. }
    rewrite Hdate. exact Heq.
Qed.

(** *** Order *)

Lemma pushItem_keys_present (d : DailyData) (k : JSDate.IsoDate) (item : ForecastItem.t) :
  In k (map fst d) -> map fst (pushItem d k item) = map fst d.
Proof.
  intros H. destruct (pushItem_split d k item H) as (d1 & items & d2 & -> & ->).
  rewrite !map_app. reflexivity.
Qed.

Lemma pushItem_keys_absent (d : DailyData) (k : JSDate.IsoDate) (item : ForecastItem.t) :
  ~ In k (map fst d) -> map fst (pushItem d k item) = map fst d ++ [k].
Proof.
  intros H. apply obj_get_None in H. rewrite (pushItem_absent _ _ _ H), map_app. reflexivity.
Qed.

Lemma StronglySorted_snoc (ns : list Z) (n : Z) :
  StronglySorted Z.lt ns -> Forall (fun m => m < n) ns -> StronglySorted Z.lt (ns ++ [n]).
Proof.
  induction 1 as [|m ns Hs IH Hm]; intros Hlt; simpl.
  - constructor; constructor.
  - inversion Hlt as [|? ? Hmn Hrest]; subst. constructor.
    + apply IH. exact Hrest.
    + apply Forall_app. split; [exact Hm | constructor; [exact Hmn | constructor]].
Qed.

Lemma IsoDate_eq_dec (a b : JSDate.IsoDate) : {a = b} + {a <> b}.
Proof.
  destruct (JSDate.IsoDate_eqb a b) eqn:E.
  - left. apply IsoDate_eqb_eq. exact E.
  - right. apply IsoDate_eqb_neq. exact E.
Qed.

(** Pushing a sample of day [n], no earlier than every day present,
    keeps the keys in increasing order of their days. *)
Lemma pushItem_increasing (d : DailyData) (ns : list Z) (n : Z) (item : ForecastItem.t) :
  keysOfDays d ns -> StronglySorted Z.lt ns -> Forall (fun m => m <= n) ns ->
  exists ns',
    keysOfDays (pushItem d (JSDate.DateFromDay n) item) ns' /\
    StronglySorted Z.lt ns' /\ Forall (fun m => m <= n) ns'.
Proof.
  intros Hk Hs Hle. unfold keysOfDays in *.
  destruct (in_dec IsoDate_eq_dec (JSDate.DateFromDay n) (map fst d)) as [Hin|Hnot].
  - exists ns. rewrite (pushItem_keys_present _ _ _ Hin). auto.
  - exists (ns ++ [n]). rewrite (pushItem_keys_absent _ _ _ Hnot), Hk, map_app.
    split; [reflexivity|].
    assert (Hlt : Forall (fun m => m < n) ns).
    { rewrite Forall_forall in *. intros m Hm.
      assert (m <> n).
      { intros ->. apply Hnot. rewrite Hk. apply in_map. exact Hm. }
      specialize (Hle m Hm). lia. }
    split; [apply StronglySorted_snoc; assumption|].
    apply Forall_app. split; [exact Hle | constructor; [lia | constructor]].
Qed.

Lemma utcDate_dayNumber (item : ForecastItem.t) :
  utcDate item = JSDate.DateFromDay (dayNumber item).
Proof. unfold utcDate, utcDateOfSeconds, dayNumber. rewrite Day_of_seconds. reflexivity. Qed.

Lemma cfold_bucketItem_increasing (l : list ForecastItem.t) :
  Forall validTimestamp l -> chronological l ->
  forall d ns,
    keysOfDays d ns -> StronglySorted Z.lt ns ->
    Forall (fun m => forall item, In item l -> m <= dayNumber item) ns ->
    exists d' ns',
      cfold bucketItem l d = Normal d' /\ keysOfDays d' ns' /\ StronglySorted Z.lt ns'.
Proof.
  induction l as [|item l IH]; intros Hv Hc d ns Hk Hs Hle; simpl.
  - exists d, ns. auto.
  - inversion Hv as [|? ? Hitem Hrest]; subst.
    inversion Hc as [|? ? Hc' Hfirst]; subst.
    rewrite (bucketItem_pushItem _ _ Hitem). simpl. rewrite utcDate_dayNumber.
    destruct (pushItem_increasing d ns (dayNumber item) item Hk Hs) as (ns' & Hk' & Hs' & Hle').
    { rewrite Forall_forall in *. intros m Hm. apply (Hle m Hm). left. reflexivity. }
    apply (IH Hrest Hc' _ ns' Hk' Hs').
    rewrite Forall_forall in *. intros m Hm item' Hi'.
    specialize (Hle' m Hm). specialize (Hfirst item' Hi'). simpl in Hfirst.
    unfold dayNumber in *.
    pose proof (Z.div_le_mono _ _ 86400 ltac:(lia) Hfirst). lia.
Qed.

Lemma StronglySorted_map {A B} (R : B -> B -> Prop) (f : A -> B) (l : list A) :
  StronglySorted R (map f l) -> StronglySorted (fun a b => R (f a) (f b)) l.
Proof.
  induction l as [|a l IH]; simpl; intros H; [constructor|].
  inversion H as [|? ? Hs Hall]; subst. constructor; [apply IH; exact Hs|].
  rewrite Forall_forall in *. intros b Hb. apply Hall. apply in_map. exact Hb.
Qed.

(** X3. Samples given in the order of their timestamps yield the
    records in the order of their days: the [dt] of the records
    increases strictly along the returned list. *)
Theorem processForecastData_keeps_chronological_order
        (l : list ForecastItem.t) (units : Units) :
  Forall validTimestamp l -> chronological l ->
  exists out,
    processForecastData l units = Normal out /\
    StronglySorted (fun r r' => ForecastData.dt r < ForecastData.dt r') out.
Proof.
  intros Hv Hc.
  destruct (processForecastData_entries l units Hv) as (d & out & Hd & Hout & HF).
  exists out. split; [exact Hout|].
  destruct (cfold_bucketItem_increasing l Hv Hc [] [] eq_refl
              (SSorted_nil _) (Forall_nil _)) as (d' & ns & Hd' & Hk & Hs).
  unfold groupByDate in Hd. rewrite Hd in Hd'. injection Hd' as <-.
  assert (Hdts : map ForecastData.dt out = map (fun n => 86400 * n) ns).
  { transitivity (map (fun e : JSDate.IsoDate * list ForecastItem.t =>
                         86400 * JSDate.MakeDay (fst e)) d).
    - apply (Forall2_map_eq _ _ _ _ _ HF). intros e r _ (_ & Hdt & _). exact Hdt.
    - unfold keysOfDays in Hk.
      rewrite <- (map_map fst (fun k => 86400 * JSDate.MakeDay k)), Hk, map_map.
      apply map_ext. intros n. rewrite MakeDay_DateFromDay. reflexivity. }
  apply (StronglySorted_map Z.lt ForecastData.dt). rewrite Hdts.
  clear -Hs. induction Hs as [|n ns Hs IH Hall]; cbn [map]; constructor; [exact IH|].
  rewrite Forall_forall in *. intros m Hm. apply in_map_iff in Hm.
  destruct Hm as (n' & <- & Hn'). specialize (Hall n' Hn'). lia.
Qed.

(** The statement above at the four samples of [twoDays]. *)
Lemma processForecastData_keeps_chronological_order_witness :
  exists out,
    processForecastData twoDays metric = Normal out /\
    StronglySorted (fun r r' => ForecastData.dt r < ForecastData.dt r') out.
Proof.
  apply (processForecastData_keeps_chronological_order twoDays metric); unfold twoDays.
  - valid_timestamps.
  - repeat (apply SSorted_cons;
            [|repeat (apply Forall_cons; [apply Z.leb_le; reflexivity|]); apply Forall_nil]).
    apply SSorted_nil.
Defined.

(** *** Counting *)

Lemma heldSamples_pushItem (d : DailyData) (k : JSDate.IsoDate) (item : ForecastItem.t) :
  heldSamples (pushItem d k item) = S (heldSamples d).
Proof.
  unfold heldSamples. induction d as [|[k' items] d IH]; simpl; [reflexivity|].
  destruct (JSDate.IsoDate_eqb k' k); simpl.
  - rewrite length_app. simpl. lia.
  - rewrite IH. lia.
Qed.

Lemma cfold_bucketItem_heldSamples (l : list ForecastItem.t) (d d' : DailyData) :
  Forall validTimestamp l ->
  cfold bucketItem l d = Normal d' ->
  heldSamples d' = (heldSamples d + List.length l)%nat.
Proof.
  revert d. induction l as [|item l IH]; intros d Hv H; simpl in *.
  - injection H as <-. lia.
  - inversion Hv as [|? ? Hitem Hrest]; subst.
    rewrite (bucketItem_pushItem _ _ Hitem) in H. simpl in H.
    rewrite (IH _ Hrest H), heldSamples_pushItem. lia.
Qed.

Lemma length_le_list_sum (xs : list nat) :
  Forall (fun x => 1 <= x)%nat xs -> (List.length xs <= list_sum xs)%nat.
Proof.
  induction 1 as [|x xs Hx HF IH]; simpl; lia.
Qed.

(** X4. The days partition the input: the numbers of samples of the
    records' days add up to the number of input samples. Hence there
    are at most as many records as samples, and none exactly when the
    input is empty. *)
Theorem processForecastData_partitions_input (l : list ForecastItem.t) (units : Units) :
  Forall validTimestamp l ->
  exists out,
    processForecastData l units = Normal out /\
    list_sum (map (fun r => List.length (samplesOn (recordDate r) l)) out) = List.length l /\
    (List.length out <= List.length l)%nat /\
    (out = [] <-> l = []).
Proof.
  intros Hv.
  destruct (processForecastData_entries l units Hv) as (d & out & Hd & Hout & HF).
  exists out. split; [exact Hout|].
  assert (Hsizes : map (fun r => List.length (samplesOn (recordDate r) l)) out
                   = map (fun e : JSDate.IsoDate * list ForecastItem.t =>
                            List.length (snd e)) d).
  { apply (Forall2_map_eq _ _ _ _ _ HF). intros e r _ (_ & _ & Heq & _).
    rewrite Heq. reflexivity. }
  assert (Hsum : list_sum (map (fun r => List.length (samplesOn (recordDate r) l)) out)
                 = List.length l).
  { rewrite Hsizes. unfold groupByDate in Hd.
    apply (cfold_bucketItem_heldSamples l [] d Hv Hd). }
  assert (Hle : (List.length out <= List.length l)%nat).
  { rewrite <- Hsum. rewrite <- (length_map (fun r => List.length (samplesOn (recordDate r) l))).
    apply length_le_list_sum. rewrite Hsizes, Forall_forall.
    intros x Hx. apply in_map_iff in Hx. destruct Hx as (e & <- & He).
    assert (Hne : snd e <> []).
    { clear -HF He. induction HF as [|e' r d out (_ & _ & _ & Hne) HF IH];
        [contradiction|]. destruct He as [->|He]; auto. }
    destruct (snd e); [congruence | simpl; lia]. }
  split; [exact Hsum|]. split; [exact Hle|]. split.
  - intros ->. simpl in Hsum. destruct l; [reflexivity | discriminate].
  - intros ->. simpl in Hle. destruct out; [reflexivity | simpl in Hle; lia].
Qed.

(** The statement above at the four samples of [twoDays]. *)
Lemma processForecastData_partitions_input_witness :
  exists out,
    processForecastData twoDays metric = Normal out /\
    list_sum (map (fun r => List.length (samplesOn (recordDate r) twoDays)) out)
    = List.length twoDays /\
    (List.length out <= List.length twoDays)%nat /\
    (out = [] <-> twoDays = []).
Proof.
  apply (processForecastData_partitions_input twoDays metric). unfold twoDays.
  valid_timestamps.
Defined.

(** ** [processForecastData]: the fields of a record *)

Lemma processDay_middle (k : JSDate.IsoDate) (items : list ForecastItem.t) (r : ForecastData.t) :
  processDay (k, items) = Normal r ->
  exists mid,
    item_at items (length_of items / 2) = Some mid /\ In mid items /\
    copiedFromMiddle items mid r.
Proof.
  unfold processDay.
  destruct (Math_min (map tempOf items)); [|discriminate].
  destruct (Math_max (map tempOf items)); [|discriminate].
  destruct (item_at items (length_of items / 2)) as [mid|] eqn:Em; [|discriminate].
  intros [= <-]. exists mid. split; [reflexivity|]. split.
  - unfold item_at in Em. destruct (length_of items / 2 <? 0); [discriminate|].
    eapply nth_error_In. exact Em.
  - unfold copiedFromMiddle. cbn. repeat split.
Qed.

Lemma item_at_In {A} (a : list A) (i : Z) (x : A) : item_at a i = Some x -> In x a.
Proof.
  unfold item_at. destruct (i <? 0); [discriminate|]. apply nth_error_In.
Qed.

Lemma orQ_pick {A} (f : A -> Q) (x : option A) (d : Q) (l : list A) :
  (forall a, x = Some a -> In a l) -> In d (map f l) ->
  In (orQ (option_map f x) d) (map f l).
Proof.
  intros Hx Hd. destruct x as [a|]; simpl; [|exact Hd].
  destruct (Qeq_bool (f a) 0); [exact Hd|]. apply in_map. apply Hx. reflexivity.
Qed.

(** X5. In every record each [feels_like] snapshot ([morn], [day],
    [eve], [night]) is the [feels_like] reading of one of the input
    samples of the record's day. *)
Theorem processForecastData_feels_like_of_the_day (l : list ForecastItem.t) (units : Units) :
  Forall validTimestamp l ->
  exists out,
    processForecastData l units = Normal out /\
    forall r, In r out ->
      let f := ForecastData.feels_like r in
      forall s,
        In s [ForecastData.FeelsLike.morn f; ForecastData.FeelsLike.day f;
              ForecastData.FeelsLike.eve f; ForecastData.FeelsLike.night f] ->
        In s (map feelsLikeOf (samplesOn (recordDate r) l)).
Proof.
  intros Hv. destruct (processForecastData_days l units Hv) as (out & Hout & _).
  exists out. split; [exact Hout|]. intros r Hr f s Hs.
  destruct (processForecastData_record l units out r Hv Hout Hr) as [_ Hday].
  destruct (processDay_middle _ _ _ Hday) as (mid & _ & Hmid & Hc).
  destruct Hc as (_ & _ & _ & _ & _ & _ & _ & _ & _ & _ & _ & Hd & Hm & He & Hn).
  fold f in Hd, Hm, He, Hn.
  assert (Hpick : forall i, In (orQ (option_map feelsLikeOf
                                       (item_at (samplesOn (recordDate r) l) i))
                                    (feelsLikeOf mid))
                               (map feelsLikeOf (samplesOn (recordDate r) l))).
  { intros i. apply orQ_pick.
    - intros a Ha. apply (item_at_In _ _ _ Ha).
    - apply in_map. exact Hmid. }
  simpl in Hs. destruct Hs as [<-|[<-|[<-|[<-|[]]]]].
  - rewrite Hm. apply Hpick.
  - rewrite Hd. apply in_map. exact Hmid.
  - rewrite He. apply Hpick.
  - rewrite Hn. apply Hpick.
Qed.

(** The statement above at [frostyMorning]. *)
Lemma processForecastData_feels_like_of_the_day_witness :
  exists out,
    processForecastData frostyMorning metric = Normal out /\
    forall r, In r out ->
      let f := ForecastData.feels_like r in
      forall s,
        In s [ForecastData.FeelsLike.morn f; ForecastData.FeelsLike.day f;
              ForecastData.FeelsLike.eve f; ForecastData.FeelsLike.night f] ->
        In s (map feelsLikeOf (samplesOn (recordDate r) frostyMorning)).
Proof.
  apply (processForecastData_feels_like_of_the_day frostyMorning metric).
  unfold frostyMorning. valid_timestamps.
Defined.

(** X6. The conditions of a record are those of the middle sample of
    its day (index [floor(n/2)]): its pressure, humidity and weather
    list are copied, wind, clouds, rain and snow are copied with 0 for
    what is missing, and sunrise and sunset are that sample's, or its
    own timestamp and twelve hours later when it has none. *)
Theorem processForecastData_copies_middle_sample (l : list ForecastItem.t) (units : Units) :
  Forall validTimestamp l ->
  exists out,
    processForecastData l units = Normal out /\
    forall r, In r out ->
      let items := samplesOn (recordDate r) l in
      exists mid,
        item_at items (length_of items / 2) = Some mid /\
        ForecastData.pressure r = Main.pressure (ForecastItem.main mid) /\
        ForecastData.humidity r = Main.humidity (ForecastItem.main mid) /\
        ForecastData.weather r = ForecastItem.weather mid /\
        ForecastData.speed r = orQ (option_map Wind.speed (ForecastItem.wind mid)) 0 /\
        ForecastData.clouds r = orQ (option_map Clouds.all (ForecastItem.clouds mid)) 0 /\
        ForecastData.rain r = Some (orQ (rain3h (ForecastItem.rain mid)) 0) /\
        ForecastData.snow r = Some (orQ (rain3h (ForecastItem.snow mid)) 0) /\
        (ForecastItem.sys mid = None ->
         ForecastData.sunrise r = ForecastItem.dt mid /\
         ForecastData.sunset r = ForecastItem.dt mid + 43200).
Proof.
  intros Hv. destruct (processForecastData_days l units Hv) as (out & Hout & _).
  exists out. split; [exact Hout|]. intros r Hr items.
  destruct (processForecastData_record l units out r Hv Hout Hr) as [_ Hday].
  destruct (processDay_middle _ _ _ Hday) as (mid & Hat & _ & Hc).
  destruct Hc as (Hrise & Hset & Hp & Hh & Hw & Hs & _ & _ & Hcl & Hrain & Hsnow & _).
  exists mid. repeat (split; [assumption|]).
  intros Hsys. rewrite Hrise, Hset. unfold sysSunrise, sysSunset. rewrite Hsys. split; reflexivity.
Qed.

(** The statement above at the four samples of [twoDays]. *)
Lemma processForecastData_copies_middle_sample_witness :
  exists out,
    processForecastData twoDays metric = Normal out /\
    forall r, In r out ->
      let items := samplesOn (recordDate r) twoDays in
      exists mid,
        item_at items (length_of items / 2) = Some mid /\
        ForecastData.pressure r = Main.pressure (ForecastItem.main mid) /\
        ForecastData.humidity r = Main.humidity (ForecastItem.main mid) /\
        ForecastData.weather r = ForecastItem.weather mid /\
        ForecastData.speed r = orQ (option_map Wind.speed (ForecastItem.wind mid)) 0 /\
        ForecastData.clouds r = orQ (option_map Clouds.all (ForecastItem.clouds mid)) 0 /\
        ForecastData.rain r = Some (orQ (rain3h (ForecastItem.rain mid)) 0) /\
        ForecastData.snow r = Some (orQ (rain3h (ForecastItem.snow mid)) 0) /\
        (ForecastItem.sys mid = None ->
         ForecastData.sunrise r = ForecastItem.dt mid /\
         ForecastData.sunset r = ForecastItem.dt mid + 43200).
Proof.
  apply (processForecastData_copies_middle_sample twoDays metric). unfold twoDays.
  valid_timestamps.
Defined.

(** ** [processForecastData]: bounds and the one-sample day *)

Lemma fold_left_pop_bounds (items : list ForecastItem.t) (acc : Q) :
  (forall item p, In item items -> ForecastItem.pop item = Some p -> 0 <= p <= 1)%Q ->
  (acc <= fold_left (fun sum item => sum + orQ (ForecastItem.pop item) 0) items acc
       <= acc + inject_Z (length_of items))%Q.
Proof.
  revert acc. induction items as [|item items IH]; intros acc Hp.
  - simpl. unfold length_of. simpl. split; [apply Qle_refl|].
    rewrite Qplus_0_r. apply Qle_refl.
  - cbn [fold_left].
    assert (Hitem : (0 <= orQ (ForecastItem.pop item) 0 <= 1)%Q).
    { destruct (ForecastItem.pop item) as [p|] eqn:E; simpl.
      - destruct (Qeq_bool p 0); [split; discriminate|].
        apply (Hp item p); [left; reflexivity | exact E].
      - split; discriminate. }
    destruct (IH (acc + orQ (ForecastItem.pop item) 0)%Q) as [Hlo Hhi].
    { intros it p Hi. apply Hp. right. exact Hi. }
    assert (Hlen : (inject_Z (length_of (item :: items))
                    == 1 + inject_Z (length_of items))%Q).
    { unfold length_of. cbn [List.length]. rewrite Nat2Z.inj_succ, <- Z.add_1_l.
      rewrite inject_Z_plus. reflexivity. }
    split.
    + eapply Qle_trans; [|exact Hlo].
      rewrite <- (Qplus_0_r acc) at 1. apply Qplus_le_compat; [apply Qle_refl | apply Hitem].
    + eapply Qle_trans; [exact Hhi|]. rewrite Hlen.
      rewrite <- Qplus_assoc. apply Qplus_le_compat; [apply Qle_refl|].
      apply Qplus_le_compat; [apply Hitem | apply Qle_refl].
Qed.

(** X7. When every [pop] present in the input is a probability (between
    0 and 1), so is the [pop] of every record. *)
Theorem processForecastData_pop_is_probability (l : list ForecastItem.t) (units : Units) :
  Forall validTimestamp l ->
  (forall item p, In item l -> ForecastItem.pop item = Some p -> 0 <= p <= 1)%Q ->
  exists out,
    processForecastData l units = Normal out /\
    forall r, In r out -> (0 <= ForecastData.pop r <= 1)%Q.
Proof.
  intros Hv Hp. destruct (processForecastData_days l units Hv) as (out & Hout & _ & _ & Hrec).
  exists out. split; [exact Hout|]. intros r Hr.
  destruct (Hrec r Hr) as [Hne (_ & _ & _ & Hpop & _)].
  set (items := samplesOn (recordDate r) l) in *.
  pose proof (length_of_pos items Hne) as Hn.
  assert (Hq : (0 < inject_Z (length_of items))%Q).
  { rewrite <- (Zlt_Qlt 0). exact Hn. }
  destruct (fold_left_pop_bounds items 0) as [Hlo Hhi].
  { intros item p Hi. apply Hp. apply samplesOn_In in Hi. apply Hi. }
  fold (sumPop items) in Hlo, Hhi. rewrite Hpop. split.
  - apply Qle_shift_div_l; [exact Hq|]. rewrite Qmult_0_l. exact Hlo.
  - apply Qle_shift_div_r; [exact Hq|]. rewrite Qmult_1_l.
    rewrite Qplus_0_l in Hhi. exact Hhi.
Qed.

(** The statement above at the four samples of [twoDays]. *)
Lemma processForecastData_pop_is_probability_witness :
  exists out,
    processForecastData twoDays metric = Normal out /\
    forall r, In r out -> (0 <= ForecastData.pop r <= 1)%Q.
Proof.
  apply (processForecastData_pop_is_probability twoDays metric); unfold twoDays.
  - valid_timestamps.
  - intros item p [<-|[<-|[<-|[<-|[]]]]]; simpl; intros [= <-]; split; discriminate.
Defined.

(** X8. A day with a single sample yields that sample's temperature in
    all six temperature fields, also when it reads zero, and its [pop]
    (0 when missing). *)
Theorem processForecastData_single_sample_day (l : list ForecastItem.t) (units : Units) :
  Forall validTimestamp l ->
  exists out,
    processForecastData l units = Normal out /\
    forall r item, In r out ->
      samplesOn (recordDate r) l = [item] ->
      ForecastData.temp r
      = ForecastData.Temp.mk (tempOf item) (tempOf item) (tempOf item)
                             (tempOf item) (tempOf item) (tempOf item) /\
      (ForecastData.pop r == popOrZero item)%Q.
Proof.
  intros Hv. destruct (processForecastData_days l units Hv) as (out & Hout & _).
  exists out. split; [exact Hout|]. intros r item Hr Hone.
  destruct (processForecastData_record l units out r Hv Hout Hr) as [_ Hday].
  rewrite Hone in Hday. unfold processDay in Hday. cbn in Hday.
  injection Hday as <-. cbn [ForecastData.temp ForecastData.pop]. split.
  - f_equal; destruct (Qeq_bool (tempOf item) 0); reflexivity.
  - unfold sumPop. cbn [fold_left]. rewrite orQ_popOrZero. field.
Qed.

(** The statement above at the four samples of [twoDays], whose first
    day has one sample. *)
Lemma processForecastData_single_sample_day_witness :
  exists out,
    processForecastData twoDays metric = Normal out /\
    forall r item, In r out ->
      samplesOn (recordDate r) twoDays = [item] ->
      ForecastData.temp r
      = ForecastData.Temp.mk (tempOf item) (tempOf item) (tempOf item)
                             (tempOf item) (tempOf item) (tempOf item) /\
      (ForecastData.pop r == popOrZero item)%Q.
Proof.
  apply (processForecastData_single_sample_day twoDays metric). unfold twoDays.
  valid_timestamps.
Defined.

(** ** Random draws *)

Lemma afterDraws_refl (w : World) : afterDraws 0 w w.
Proof. unfold afterDraws. rewrite Nat.add_0_r. repeat split. Qed.

Lemma afterDraws_trans (a b : nat) (w w1 w2 : World) :
  afterDraws a w w1 -> afterDraws b w1 w2 -> afterDraws (a + b) w w2.
Proof.
  unfold afterDraws.
  intros (H1 & H2 & H3 & H4 & [H5 H5'] & H6 & H7) (G1 & G2 & G3 & G4 & [G5 G5'] & G6 & G7).
  repeat split; try congruence. lia.
Qed.

Lemma afterDrawsAndReadings_refl (w : World) : afterDrawsAndReadings 0 0 w w.
Proof. unfold afterDrawsAndReadings. rewrite !Nat.add_0_r. repeat split. Qed.

Lemma afterDrawsAndReadings_trans (a b c d : nat) (w w1 w2 : World) :
  afterDrawsAndReadings a c w w1 -> afterDrawsAndReadings b d w1 w2 ->
  afterDrawsAndReadings (a + b) (c + d) w w2.
Proof.
  unfold afterDrawsAndReadings.
  intros (H1 & H2 & H3 & H4 & H5 & H6 & H7 & H8) (G1 & G2 & G3 & G4 & G5 & G6 & G7 & G8).
  repeat split; try congruence; lia.
Qed.

Lemma Math_random_unit_interval (x : N) :
  (0 <= Z.of_N (x mod 2 ^ 53) # 2 ^ 53 < 1)%Q.
Proof.
  pose proof (N.mod_lt x (2 ^ 53) ltac:(discriminate)) as Hlt.
  split.
  - unfold Qle. cbn [Qnum Qden]. rewrite Z.mul_0_l, Z.mul_1_r. apply N2Z.is_nonneg.
  - unfold Qlt. cbn [Qnum Qden]. rewrite Z.mul_1_r, Z.mul_1_l.
    change (Z.pos (2 ^ 53)) with (Z.of_N (2 ^ 53)). apply N2Z.inj_lt. exact Hlt.
Qed.

Lemma returns_random_draw (w : World) (P : Q -> World -> Prop) :
  (forall r w', (0 <= r < 1)%Q -> afterDraws 1 w w' -> P r w') ->
  returns Math_random w P.
Proof.
  intros H. eexists _, _. split; [reflexivity|]. apply H.
  - apply Math_random_unit_interval.
  - unfold afterDraws. cbn. rewrite Nat.add_1_r. repeat split.
Qed.

(** [Math.floor(Math.random() * k)] is one of [0 .. k-1]. *)
Lemma Math_floor_scaled (r : Q) (k : Z) :
  (0 <= r < 1)%Q -> 0 < k -> 0 <= Math_floor (r * inject_Z k) < k.
Proof.
  intros [H0 H1] Hk. unfold Math_floor.
  assert (Hkq : (0 < inject_Z k)%Q) by (rewrite <- (Zlt_Qlt 0); exact Hk).
  split.
  - rewrite <- (Qfloor_Z 0). apply Qfloor_resp_le.
    apply Qmult_le_0_compat; [exact H0 | apply Qlt_le_weak; exact Hkq].
  - rewrite Zlt_Qlt. eapply Qle_lt_trans; [apply Qfloor_le|].
    rewrite <- (Qmult_1_l (inject_Z k)) at 2.
    apply Qmult_lt_compat_r; assumption.
Qed.

Lemma returns_choice (choices : list string) (w : World) (P : string -> World -> Prop) :
  choices <> [] ->
  (forall s w', In s choices -> afterDraws 1 w w' -> P s w') ->
  returns (randomChoice choices) w P.
Proof.
  intros Hne H. unfold randomChoice. apply returns_bind. apply returns_random_draw.
  intros r w' Hr Hw. apply returns_ret. apply H; [|exact Hw].
  apply nth_In.
  pose proof (Math_floor_scaled r (length_of choices) Hr (length_of_pos choices Hne)) as Hi.
  unfold length_of in *. lia.
Qed.

(** One statement of a block that draws random numbers. *)
Ltac step_draw :=
  apply returns_bind;
  first [ apply returns_random_draw
        | apply returns_choice; [discriminate|] ];
  intros.

Lemma returns_mock_draw (w : World) (P : Q -> World -> Prop) :
  (forall r w', (0 <= r < 1)%Q -> afterDrawsAndReadings 1 0 w w' -> P r w') ->
  returns Math_random w P.
Proof.
  intros H. eexists _, _. split; [reflexivity|]. apply H.
  - apply Math_random_unit_interval.
  - unfold afterDrawsAndReadings. cbn. rewrite Nat.add_1_r, Nat.add_0_r. repeat split.
Qed.

Lemma returns_mock_choice (choices : list string) (w : World) (P : string -> World -> Prop) :
  choices <> [] ->
  (forall s w', In s choices -> afterDrawsAndReadings 1 0 w w' -> P s w') ->
  returns (randomChoice choices) w P.
Proof.
  intros Hne H. unfold randomChoice. apply returns_bind. apply returns_mock_draw.
  intros r w' Hr Hw. apply returns_ret. apply H; [|exact Hw].
  apply nth_In.
  pose proof (Math_floor_scaled r (length_of choices) Hr (length_of_pos choices Hne)) as Hi.
  unfold length_of in *. lia.
Qed.

(** [Date.now()] yields the next reading of the clock and moves on. *)
Lemma returns_reading (w : World) (P : Z -> World -> Prop) :
  (forall w', afterDrawsAndReadings 0 1 w w' -> P (now w) w') ->
  returns Date_now w P.
Proof.
  intros H. eexists _, _. split; [reflexivity|]. apply H.
  unfold afterDrawsAndReadings. cbn. rewrite Nat.add_1_r, Nat.add_0_r. repeat split.
Qed.

(** One statement of a block that draws random numbers and reads the clock. *)
Ltac step_mock :=
  apply returns_bind;
  first [ apply returns_mock_draw
        | apply returns_mock_choice; [discriminate|]
        | apply returns_reading ];
  intros.

Ltac chain_mock :=
  repeat match goal with
         | H1 : afterDrawsAndReadings ?a ?c ?w ?w1,
           H2 : afterDrawsAndReadings ?b ?d ?w1 ?w2 |- _ =>
             let H := fresh "Hmock" in
             pose proof (afterDrawsAndReadings_trans a b c d w w1 w2 H1 H2) as H; clear H2
         end.

(** [mapM] with an invariant of the world and a relation between the
    elements and the results that may name their position. *)
Lemma returns_mapM_from {A B} (f : A -> IO B) (l : list A) (I : nat -> World -> Prop)
      (R : nat -> A -> B -> Prop) :
  forall (k : nat) (w : World),
  (forall n a w1, nth_error l n = Some a -> I (k + n)%nat w1 ->
     returns (f a) w1 (fun b w2 => R (k + n)%nat a b /\ I (S (k + n)) w2)) ->
  I k w ->
  returns (mapM f l) w (fun bs w' =>
    List.length bs = List.length l /\
    (forall n a b, nth_error l n = Some a -> nth_error bs n = Some b -> R (k + n)%nat a b) /\
    I (k + List.length l)%nat w').
Proof.
  induction l as [|a l IH]; intros k w Hf HI; cbn [mapM].
  - apply returns_ret. split; [reflexivity|]. split.
    + intros [|n] a b Ha; discriminate Ha.
    + cbn [List.length]. rewrite Nat.add_0_r. exact HI.
  - apply returns_bind.
    pose proof (Hf 0%nat a w eq_refl) as H0. rewrite Nat.add_0_r in H0.
    eapply returns_weaken; [apply (H0 HI)|].
    intros b w1 [HR HI1]. apply returns_bind.
    eapply returns_weaken.
    + apply (IH (S k) w1); [|exact HI1].
      intros n a' w2 Ha'. rewrite Nat.add_succ_comm. apply (Hf (S n) a' w2 Ha').
    + intros bs w2 (Hlen & HRs & HI2). apply returns_ret. split; [|split].
      * cbn [List.length]. rewrite Hlen. reflexivity.
      * intros [|n] a' b' Ha' Hb'; cbn [nth_error] in Ha', Hb'.
        -- injection Ha' as <-. injection Hb' as <-. rewrite Nat.add_0_r. exact HR.
        -- rewrite <- Nat.add_succ_comm. apply (HRs n a' b' Ha' Hb').
      * cbn [List.length]. rewrite <- Nat.add_succ_comm. exact HI2.
Qed.

Lemma nth_error_seq_eq (start len n a : nat) :
  nth_error (seq start len) n = Some a -> a = (start + n)%nat.
Proof.
  revert start n. induction len as [|len IH]; intros start n H; cbn [seq] in H.
  - destruct n; discriminate H.
  - destruct n as [|n]; cbn [nth_error] in H.
    + injection H as <-. lia.
    + rewrite (IH (S start) n H). lia.
Qed.

(** Collects the worlds of a run of draws into one [afterDraws] fact. *)
Ltac chain_draws :=
  repeat match goal with
         | H1 : afterDraws ?a ?w ?w1, H2 : afterDraws ?b ?w1 ?w2 |- _ =>
             let H := fresh "Hdraws" in
             pose proof (afterDraws_trans a b w w1 w2 H1 H2) as H; clear H2
         end.

Lemma Forall2_seq_nth {B} (R : nat -> B -> Prop) (l : list B) (a n : nat) :
  Forall2 R (seq a n) l ->
  forall i b, nth_error l i = Some b -> R (a + i)%nat b.
Proof.
  revert a l. induction n as [|n IH]; intros a l HF i b Hi; simpl in HF.
  - inversion HF; subst. destruct i; discriminate.
  - inversion HF as [|? b0 ? l' Hb HF']; subst.
    destruct i as [|i]; simpl in Hi.
    + injection Hi as <-. rewrite Nat.add_0_r. exact Hb.
    + rewrite <- Nat.add_succ_comm. apply (IH (S a) l' HF' i b Hi).
Qed.

Lemma Math_round_between (x : Q) (lo hi : Z) :
  (inject_Z lo <= x)%Q -> (x <= inject_Z hi)%Q -> lo <= Math_round x <= hi.
Proof.
  intros Hlo Hhi. unfold Math_round. split.
  - rewrite <- (Qfloor_Z lo). apply Qfloor_resp_le.
    eapply Qle_trans; [exact Hlo|].
    rewrite <- (Qplus_0_r x) at 1. apply Qplus_le_compat; [apply Qle_refl | discriminate].
  - assert (H : Qfloor (x + (1 # 2)) < hi + 1); [|lia].
    rewrite Zlt_Qlt. eapply Qle_lt_trans; [apply Qfloor_le|].
    rewrite inject_Z_plus, (Qplus_comm x), (Qplus_comm (inject_Z hi)).
    apply Qplus_lt_le_compat; [reflexivity | exact Hhi].
Qed.

(** ** The mock data *)

(** Names the range of [Math.floor(r * k)] for a draw [r]. *)
Ltac floor_range r k :=
  match goal with
  | Hr : (0 <= r < 1)%Q |- _ =>
      let H := fresh "Hfloor" in
      pose proof (Math_floor_scaled r k Hr eq_refl) as H;
      change (inject_Z k) with (k # 1) in H
  end.

Lemma mockForecastDay_day (u : Units) (i : nat) (w : World) :
  returns (mockForecastDay (mockTempUnit u) (mockWindUnit u) (Z.of_nat i)) w (fun r w' =>
    mockedDay u (now w) i r /\ afterDrawsAndReadings 10 1 w w').
Proof.
  unfold mockForecastDay. do 11 step_mock. apply returns_ret.
  chain_mock. split; [|assumption].
  floor_range r 5. floor_range r0 5. floor_range r1 8. floor_range r2 3.
  floor_range r3 3. floor_range r4 100.
  unfold mockedDay. cbn [ForecastData.dt ForecastData.sunrise ForecastData.sunset
    ForecastData.temp ForecastData.Temp.min ForecastData.Temp.max ForecastData.Temp.day
    ForecastData.Temp.night ForecastData.Temp.eve ForecastData.Temp.morn ForecastData.pop
    ForecastData.clouds ForecastData.weather List.length].
  repeat split; try lia; try (eexists; split; [reflexivity | lia]); tauto.
Qed.

Lemma getMockWeatherData_days (units : Units) (w : World) :
  returns (getMockWeatherData units) w (fun res w' =>
    afterDrawsAndReadings 70 10 w w' /\
    List.length (forecast res) = 7%nat /\
    (exists data, current res = WeatherJson data /\ WeatherData.name data = "London") /\
    forall i r, nth_error (forecast res) i = Some r ->
      mockedDay units (clock w (clock_read w + 3 + i)) i r).
Proof.
  unfold getMockWeatherData. do 3 step_mock. chain_mock.
  apply returns_bind. unfold Array_from.
  change (4294967295 <? 7) with false. cbv iota.
  fold (mockTempUnit units). fold (mockWindUnit units).
  eapply returns_weaken.
  - apply (returns_mapM_from
             (fun i => mockForecastDay (mockTempUnit units) (mockWindUnit units) (Z.of_nat i))
             (seq 0 (Z.to_nat 7))
             (fun n w1 => afterDrawsAndReadings (10 * n) (3 + n) w w1)
             (fun n i r => mockedDay units (clock w (clock_read w + 3 + n)) i r) 0%nat).
    + intros n i w1 Hi Hw1. apply nth_error_seq_eq in Hi.
      change (0 + n)%nat with n in *. subst i.
      eapply returns_weaken; [apply mockForecastDay_day|].
      intros r w2 (Hday & Hw2). split.
      * destruct Hw1 as (_ & Hread & _ & _ & _ & Hclock & _).
        unfold now in Hday. rewrite Hclock, Hread in Hday.
        replace (clock_read w + 3 + n)%nat with (clock_read w + (3 + n))%nat by lia.
        exact Hday.
      * replace (10 * S n)%nat with (10 * n + 10)%nat by lia.
        replace (3 + S n)%nat with (3 + n + 1)%nat by lia.
        apply (afterDrawsAndReadings_trans _ _ _ _ _ _ _ Hw1 Hw2).
    + assumption.
  - intros days wf (Hlen & HF & Hwf). apply returns_ret. cbn [forecast current].
    rewrite length_seq in Hlen, Hwf. split; [exact Hwf|]. split; [exact Hlen|]. split.
    + eexists. split; reflexivity.
    + intros i r Hi.
      assert (Hlt : (i < 7)%nat).
      { change 7%nat with (Z.to_nat 7). rewrite <- Hlen. apply nth_error_Some. congruence. }
      apply (HF i i r); [|exact Hi].
      rewrite nth_error_nth' with (d := 0%nat) by (rewrite length_seq; exact Hlt).
      rewrite seq_nth by exact Hlt. reflexivity.
Qed.

(** X9. The mock response holds seven daily records. Each is dated
    from a clock reading of its own, record [i] from the reading that
    follows the three taken for the current weather, [i] days later to
    the second, with sunrise an hour before and sunset an hour after
    its [dt]; its minimum is at most, and its maximum at least, the
    base temperature (20 metric, 68 imperial), and its [pop] is a
    probability. Seventy random numbers are drawn and the clock is read
    ten times; nothing is sent or logged. *)
Theorem getMockWeatherData_shape (units : Units) (w : World) :
  returns (getMockWeatherData units) w (fun res w' =>
    afterDrawsAndReadings 70 10 w w' /\
    List.length (forecast res) = 7%nat /\
    forall i r, nth_error (forecast res) i = Some r ->
      mockedDay units (clock w (clock_read w + 3 + i)) i r).
Proof.
  eapply returns_weaken; [apply getMockWeatherData_days|].
  intros res w' (Hw' & Hlen & _ & Hdays). auto.
Qed.

Lemma readApiKey_effective (w : World) : readApiKey w = (Normal (effectiveKey w), w).
Proof. reflexivity. Qed.

Lemma mockCityWeather_run (city : City.t) (w : World) :
  returns (mockCityWeather city) w (fun c w' => mockedWeather city c /\ afterDraws 5 w w').
Proof.
  unfold mockCityWeather. do 5 step_draw. apply returns_ret.
  chain_draws. split; [|assumption].
  split; [repeat split|]. eexists. split; [reflexivity|].
  cbn [CityWeather.temp CityWeather.high CityWeather.low CityWeather.description
       CityWeather.icon].
  assert (Hscale : forall (r : Q) (k : Z), (0 <= r < 1)%Q -> 0 < k ->
                     (0 <= r * inject_Z k <= inject_Z k)%Q).
  { intros x k [Hx0 Hx1] Hk.
    assert (Hkq : (0 <= inject_Z k)%Q) by (rewrite <- (Zle_Qle 0); lia).
    split; [apply Qmult_le_0_compat; assumption|].
    rewrite <- (Qmult_1_l (inject_Z k)) at 2.
    apply Qmult_le_compat_r; [apply Qlt_le_weak; exact Hx1 | exact Hkq]. }
  assert (Hround : forall (r : Q) (base k : Z), (0 <= r < 1)%Q -> 0 < k ->
                     base <= Math_round (inject_Z base + r * inject_Z k) <= base + k).
  { intros x base k Hx Hk. destruct (Hscale x k Hx Hk) as [Hlo Hhi].
    apply Math_round_between.
    - rewrite <- (Qplus_0_r (inject_Z base)) at 1.
      apply Qplus_le_compat; [apply Qle_refl | exact Hlo].
    - rewrite inject_Z_plus. apply Qplus_le_compat; [apply Qle_refl | exact Hhi]. }
  split; [apply (Hround r 15 10); [assumption | reflexivity]|].
  split; [apply (Hround r0 20 10); [assumption | reflexivity]|].
  split; [apply (Hround r1 10 5); [assumption | reflexivity]|].
  split; assumption.
Qed.

(** X10. Without a usable API key (none, empty, or the placeholder)
    [fetchWeatherForCities] sends no request and logs nothing; every
    city keeps its identity and gets a mock weather with [temp] in
    15..25, [high] in 20..30, [low] in 10..15 and a description and
    icon out of the three listed, at the price of five random draws. *)
Theorem fetchWeatherForCities_without_key (w : World) (cities : list City.t)
        (units : option Units) :
  noApiKey (effectiveKey w) = true ->
  returns (fetchWeatherForCities cities units) w (fun out w' =>
    Forall2 mockedWeather cities out /\
    afterDraws (5 * List.length cities) w w').
Proof.
  intros Hk. unfold fetchWeatherForCities. apply returns_bind.
  exists (effectiveKey w), w. split; [apply readApiKey_effective|]. rewrite Hk.
  eapply returns_weaken.
  - apply (returns_mapM mockCityWeather cities
             (fun n w1 => afterDraws (5 * n) w w1) mockedWeather w) with (n := 0%nat).
    + intros n city w1 _ Hw1.
      eapply returns_weaken; [apply mockCityWeather_run|].
      intros c w2 (Hc & Hw2). split; [exact Hc|].
      replace (5 * S n)%nat with (5 * n + 5)%nat by lia.
      apply (afterDraws_trans _ _ _ _ _ Hw1 Hw2).
    + apply afterDraws_refl.
  - intros out w' (HF & Hw'). split; [exact HF | exact Hw'].
Qed.

(** The statement above for three cities in a world without a key. *)
Lemma fetchWeatherForCities_without_key_witness :
  returns (fetchWeatherForCities [paris; lyon; oslo] None) directoryUp (fun out w' =>
    Forall2 mockedWeather [paris; lyon; oslo] out /\
    afterDraws (5 * List.length [paris; lyon; oslo]) directoryUp w').
Proof.
  apply (fetchWeatherForCities_without_key directoryUp [paris; lyon; oslo] None).
  reflexivity.
Defined.

(** ** [fetchWeather] *)

(** With a key, the [try] block draws no random number and writes
    nothing on the console, however it ends; it sends the first
    request, and the second one only after the first was answered. *)
Lemma fetchWeatherTry_frame (params : FetchWeatherParams) (apiKey : string) (w w1 : World)
      (c : Completion WeatherResponse) :
  noApiKey apiKey = false ->
  fetchWeatherTry params apiKey w = (c, w1) ->
  console w1 = console w /\
  random_used w1 = random_used w /\
  (sent w1 = sent w ++ [currentRequest params apiKey] \/
   sent w1 = sent w ++ [currentRequest params apiKey; forecastRequest params apiKey]).
Proof.
  intros Hk. unfold fetchWeatherTry, currentRequest, forecastRequest. rewrite Hk.
  unfold bind at 1. unfold fetch at 1.
  destruct (network w (List.length (sent w)) _) as [|[[|] st1 [body1|]]]; cbn;
    try (intros [= <- <-]; cbn; auto).
  unfold bind, fetch, Response_json, ret, throw, lift. cbn.
  destruct (network w _ _) as [|[[|] st2 [[n rs|data|l|]|]]]; cbn;
    try (intros [= <- <-]; cbn; rewrite <- app_assoc; auto).
  destruct (processForecastData l _); intros [= <- <-]; cbn; rewrite <- app_assoc; auto.
Qed.

Lemma getMockWeatherData_mock (units : Units) (w : World) :
  returns (getMockWeatherData units) w (fun res w' =>
    isMockResponse res /\
    random_used w' = (random_used w + 70)%nat /\
    random_source w' = random_source w /\
    console w' = console w /\
    sent w' = sent w /\
    clock_read w' = (clock_read w + 10)%nat).
Proof.
  eapply returns_weaken; [apply getMockWeatherData_days|].
  intros res w' ((Hr & Hread & Hsrc & Hc & Hs & _) & Hlen & Hcur & _).
  split; [split; assumption|]. repeat split; assumption.
Qed.

Lemma fetchWeatherCatch_mock (params : FetchWeatherParams) (e : Exception) (w : World) :
  returns (fetchWeatherCatch params e) w (fun res w' =>
    isMockResponse res /\
    logged w w' (mkLog error "Error fetching weather data:" (Some e)) /\
    random_used w' = (random_used w + 70)%nat /\
    sent w' = sent w).
Proof.
  unfold fetchWeatherCatch, console_error. step_io.
  eapply returns_weaken; [apply getMockWeatherData_mock|].
  intros res w2 (Hmock & Hr & _ & Hc & Hs & _).
  split; [exact Hmock|]. unfold logged. repeat split; congruence.
Qed.

(** Every run of [fetchWeather] ends normally, in one of two ways. *)
Lemma fetchWeather_run (w : World) (params : FetchWeatherParams) :
  returns (fetchWeather params) w (fun res w' =>
    (console w' = console w /\ random_used w' = random_used w) \/
    (exists entry, logged w w' entry /\
                   random_used w' = (random_used w + 70)%nat /\ isMockResponse res)).
Proof.
  unfold fetchWeather. apply returns_bind.
  exists (effectiveKey w), w. split; [apply readApiKey_effective|].
  destruct (noApiKey (effectiveKey w)) eqn:Hk.
  - apply returns_try_catch.
    + intros res w' Hrun. right. unfold fetchWeatherTry in Hrun. rewrite Hk in Hrun.
      assert (Hret : returns (console_warn "No OpenWeatherMap API key provided. Using mock data." ;;
                              getMockWeatherData (default (units params) metric))%io w
                       (fun res w' => exists entry, logged w w' entry /\
                          random_used w' = (random_used w + 70)%nat /\ isMockResponse res)).
      { unfold console_warn. step_io.
        eapply returns_weaken; [apply getMockWeatherData_mock|].
        intros res2 w2 (Hmock & Hr & _ & Hc & _).
        exists (mkLog warn "No OpenWeatherMap API key provided. Using mock data." None).
        unfold logged. split; [|split; [|exact Hmock]]; congruence. }
      destruct Hret as (res2 & w2 & Hrun2 & Hpost). rewrite Hrun in Hrun2.
      injection Hrun2 as <- <-. exact Hpost.
    + intros e w' Hrun. exfalso. unfold fetchWeatherTry in Hrun. rewrite Hk in Hrun.
      assert (Hret : returns (console_warn "No OpenWeatherMap API key provided. Using mock data." ;;
                              getMockWeatherData (default (units params) metric))%io w
                       (fun _ _ => True)).
      { unfold console_warn. step_io.
        eapply returns_weaken; [apply getMockWeatherData_mock|]. auto. }
      destruct Hret as (res2 & w2 & Hrun2 & _). rewrite Hrun in Hrun2. discriminate.
  - apply returns_try_catch.
    + intros res w' Hrun. left.
      destruct (fetchWeatherTry_frame _ _ _ _ _ Hk Hrun) as (Hc & Hr & _). auto.
    + intros e w1 Hrun.
      destruct (fetchWeatherTry_frame _ _ _ _ _ Hk Hrun) as (Hc & Hr & _).
      eapply returns_weaken; [apply fetchWeatherCatch_mock|].
      intros res w' (Hmock & Hlog & Hr' & _). right.
      exists (mkLog error "Error fetching weather data:" (Some e)).
      unfold logged in *. split; [|split; [|exact Hmock]]; congruence.
Qed.

(** X11. [fetchWeather] never throws. It substitutes mock data only
    together with a console entry (a warning without a key, an error
    otherwise): a run that leaves the console as it was has drawn no
    random number, and every other run has added exactly one entry and
    returns the mock response. *)
Theorem fetchWeather_never_throws (w : World) (params : FetchWeatherParams) :
  returns (fetchWeather params) w (fun res w' =>
    (console w' = console w /\ random_used w' = random_used w) \/
    (exists entry, logged w w' entry /\
                   random_used w' = (random_used w + 70)%nat /\ isMockResponse res)).
Proof. exact (fetchWeather_run w params). Qed.

(** X12. Without a usable API key [fetchWeather] sends no request: it
    warns once on the console and returns the mock response. *)
Theorem fetchWeather_without_key (w : World) (params : FetchWeatherParams) :
  noApiKey (effectiveKey w) = true ->
  returns (fetchWeather params) w (fun res w' =>
    sent w' = sent w /\
    logged w w' (mkLog warn "No OpenWeatherMap API key provided. Using mock data." None) /\
    isMockResponse res).
Proof.
  intros Hk. unfold fetchWeather. apply returns_bind.
  exists (effectiveKey w), w. split; [apply readApiKey_effective|].
  assert (Hret : returns (fetchWeatherTry params (effectiveKey w)) w (fun res w' =>
            sent w' = sent w /\
            logged w w' (mkLog warn "No OpenWeatherMap API key provided. Using mock data." None) /\
            isMockResponse res)).
  { unfold fetchWeatherTry. rewrite Hk. unfold console_warn. step_io.
    eapply returns_weaken; [apply getMockWeatherData_mock|].
    intros res2 w2 (Hmock & _ & _ & Hc & Hs & _).
    unfold logged. split; [|split; [|exact Hmock]]; congruence. }
  destruct Hret as (res & w' & Hrun & Hpost).
  exists res, w'. split; [|exact Hpost]. unfold try_catch. rewrite Hrun. reflexivity.
Qed.

(** The statement above in a world without a key. *)
Lemma fetchWeather_without_key_witness :
  returns (fetchWeather parisParams) directoryUp (fun res w' =>
    sent w' = sent directoryUp /\
    logged directoryUp w'
      (mkLog warn "No OpenWeatherMap API key provided. Using mock data." None) /\
    isMockResponse res).
Proof.
  apply (fetchWeather_without_key directoryUp parisParams). reflexivity.
Defined.

(** Both requests answered, the second with a forecast list: the [try]
    block ends as [processForecastData] does on that list. *)
Lemma fetchWeatherTry_answered (params : FetchWeatherParams) (apiKey : string) (w : World)
      (status1 status2 : Z) (currentData : Json) (l : list ForecastItem.t) :
  noApiKey apiKey = false ->
  nextResult w (currentRequest params apiKey)
    = Resolved (mkResponse true status1 (Some currentData)) ->
  network w (S (List.length (sent w))) (forecastRequest params apiKey)
    = Resolved (mkResponse true status2 (Some (ForecastJson l))) ->
  exists w1,
    fetchWeatherTry params apiKey w
    = (match processForecastData l (default (units params) metric) with
       | Normal dailyForecasts => Normal (mkWeatherResponse currentData dailyForecasts)
       | Throw e => Throw e
       end, w1) /\
    sent w1 = sent w ++ [currentRequest params apiKey; forecastRequest params apiKey] /\
    console w1 = console w /\
    random_used w1 = random_used w.
Proof.
  intros Hk Hfirst Hsecond. unfold fetchWeatherTry. rewrite Hk.
  unfold currentRequest, forecastRequest, nextResult in *.
  unfold bind at 1. unfold fetch at 1. rewrite Hfirst.
  unfold bind, fetch. cbn. rewrite length_app, Nat.add_1_r. cbn.
  rewrite Hsecond. cbn. unfold lift.
  destruct (processForecastData l (default (units params) metric));
    eexists; (split; [reflexivity|]); cbn; rewrite <- app_assoc; auto.
Qed.

(** X13. With a key, when both requests are answered OK and the
    forecast list has valid timestamps, [fetchWeather] sends exactly
    the current-weather request and then the forecast request, returns
    the first body as [current] and the processed list as [forecast],
    writes nothing on the console and draws no random number. *)
Theorem fetchWeather_success (w : World) (params : FetchWeatherParams) (apiKey : string)
        (status1 status2 : Z) (currentData : Json) (l : list ForecastItem.t) :
  keyConfigured w apiKey ->
  nextResult w (currentRequest params apiKey)
    = Resolved (mkResponse true status1 (Some currentData)) ->
  network w (S (List.length (sent w))) (forecastRequest params apiKey)
    = Resolved (mkResponse true status2 (Some (ForecastJson l))) ->
  Forall validTimestamp l ->
  returns (fetchWeather params) w (fun res w' =>
    sent w' = sent w ++ [currentRequest params apiKey; forecastRequest params apiKey] /\
    current res = currentData /\
    processForecastData l (default (units params) metric) = Normal (forecast res) /\
    console w' = console w /\
    random_used w' = random_used w).
Proof.
  intros Hk Hfirst Hsecond Hv.
  destruct (fetchWeatherTry_answered params apiKey w _ _ _ _ (proj2 Hk) Hfirst Hsecond)
    as (w1 & Hrun & Hsent & Hc & Hr).
  destruct (processForecastData_days l (default (units params) metric) Hv) as (out & Hout & _).
  rewrite Hout in Hrun.
  exists (mkWeatherResponse currentData out), w1. split.
  - unfold fetchWeather, bind. rewrite (readApiKey_configured _ _ Hk).
    unfold try_catch. rewrite Hrun. reflexivity.
  - cbn [current forecast]. auto.
Qed.

(** The statement above with [twoDays] as the forecast list. *)
Lemma fetchWeather_success_witness :
  returns (fetchWeather parisParams) (forecastOnline 1700000000000 6364136223846793005 twoDays)
    (fun res w' =>
       sent w' = sent (forecastOnline 1700000000000 6364136223846793005 twoDays)
                 ++ [currentRequest parisParams "k3y"; forecastRequest parisParams "k3y"] /\
       current res = WeatherJson clearSky /\
       processForecastData twoDays (default (units parisParams) metric)
       = Normal (forecast res) /\
       console w' = console (forecastOnline 1700000000000 6364136223846793005 twoDays) /\
       random_used w'
       = random_used (forecastOnline 1700000000000 6364136223846793005 twoDays)).
Proof.
  apply (fetchWeather_success _ parisParams "k3y" 200 200 (WeatherJson clearSky) twoDays).
  - split; reflexivity.
  - reflexivity.
  - reflexivity.
  - unfold twoDays. valid_timestamps.
Defined.

(** X14. A forecast list in which one timestamp is outside the range
    of [Date] costs the whole response: though both requests were
    answered, [fetchWeather] logs the [RangeError] and returns the mock
    response. *)
Theorem fetchWeather_bad_timestamp (w : World) (params : FetchWeatherParams) (apiKey : string)
        (status1 status2 : Z) (currentData : Json) (l : list ForecastItem.t) :
  keyConfigured w apiKey ->
  nextResult w (currentRequest params apiKey)
    = Resolved (mkResponse true status1 (Some currentData)) ->
  network w (S (List.length (sent w))) (forecastRequest params apiKey)
    = Resolved (mkResponse true status2 (Some (ForecastJson l))) ->
  Exists (fun item => ~ validTimestamp item) l ->
  returns (fetchWeather params) w (fun res w' =>
    isMockResponse res /\
    logged w w' (mkLog error "Error fetching weather data:" (Some RangeError)) /\
    sent w' = sent w ++ [currentRequest params apiKey; forecastRequest params apiKey]).
Proof.
  intros Hk Hfirst Hsecond Hbad.
  destruct (fetchWeatherTry_answered params apiKey w _ _ _ _ (proj2 Hk) Hfirst Hsecond)
    as (w1 & Hrun & Hsent & Hc & Hr).
  rewrite processForecastData_invalid in Hrun.
  2:{ intros Hv. apply Exists_exists in Hbad. destruct Hbad as (item & Hi & Hn).
      rewrite Forall_forall in Hv. apply Hn, Hv, Hi. }
  destruct (fetchWeatherCatch_mock params RangeError w1) as (res & w' & Hcatch & Hmock & Hlog & _ & Hs).
  exists res, w'. split.
  - unfold fetchWeather, bind. rewrite (readApiKey_configured _ _ Hk).
    unfold try_catch. rewrite Hrun. exact Hcatch.
  - split; [exact Hmock|]. unfold logged in *. split; congruence.
Qed.

(** The statement above with [farFuture] as the forecast list. *)
Lemma fetchWeather_bad_timestamp_witness :
  returns (fetchWeather parisParams)
          (forecastOnline 1700000000000 6364136223846793005 farFuture)
    (fun res w' =>
       isMockResponse res /\
       logged (forecastOnline 1700000000000 6364136223846793005 farFuture) w'
              (mkLog error "Error fetching weather data:" (Some RangeError)) /\
       sent w' = sent (forecastOnline 1700000000000 6364136223846793005 farFuture)
                 ++ [currentRequest parisParams "k3y"; forecastRequest parisParams "k3y"]).
Proof.
  apply (fetchWeather_bad_timestamp _ parisParams "k3y" 200 200 (WeatherJson clearSky) farFuture).
  - split; reflexivity.
  - reflexivity.
  - reflexivity.
  - unfold farFuture. apply Exists_cons_tl, Exists_cons_hd.
    intros H. apply Z.leb_le in H. discriminate H.
Defined.

(** ** [fetchWeatherForCities]: the console and the weather written *)

Lemma fetchCityWeather_console (units : Units) (apiKey : string) (city : City.t) (w : World) :
  let res := nextResult w (cityRequest units apiKey city) in
  returns (fetchCityWeather units apiKey city) w (fun c w' =>
    sent w' = sent w ++ [cityRequest units apiKey city] /\
    network w' = network w /\
    exists log,
      console w' = console w ++ log /\
      Forall (fun entry => level entry = error) log /\
      map text log = if weatherFetchFails res then [cityErrorText city] else []).
Proof.
  unfold returns, fetchCityWeather, cityRequest, cityErrorText, try_catch, bind, fetch,
    nextResult, lift.
  destruct (network w (List.length (sent w)) _)
    as [|[[|] st [[n records|data|items|]|]]] eqn:E; simpl;
    try (destruct (WeatherData.weather data) as [|w0 ws] eqn:Ew; simpl);
    (eexists _, _; split; [reflexivity|]); simpl;
    (split; [reflexivity|]); (split; [reflexivity|]).
  all: try (eexists [_]; split; [reflexivity|]; split; [repeat constructor | reflexivity]).
  exists []. split; [rewrite app_nil_r; reflexivity|]. split; [constructor | reflexivity].
Qed.

Lemma mapM_fetchCityWeather_console (units : Units) (apiKey : string)
      (cities : list City.t) (w : World) :
  returns (mapM (fetchCityWeather units apiKey) cities) w (fun _ w' =>
    sent w' = sent w ++ map (cityRequest units apiKey) cities /\
    network w' = network w /\
    exists log,
      console w' = console w ++ log /\
      Forall (fun entry => level entry = error) log /\
      map text log
      = map cityErrorText
            (failedCities units apiKey (network w) (List.length (sent w)) cities)).
Proof.
  revert w. induction cities as [|city rest IH]; intros w; cbn [mapM failedCities map].
  - apply returns_ret. rewrite app_nil_r. repeat split. exists []. rewrite app_nil_r.
    repeat split. constructor.
  - apply returns_bind.
    eapply returns_weaken; [apply fetchCityWeather_console|].
    intros c w1 (Hsent & Hnet & log1 & Hlog1 & Hlev1 & Htext1).
    apply returns_bind. eapply returns_weaken; [apply IH|].
    intros cs w2 (Hsent2 & Hnet2 & log2 & Hlog2 & Hlev2 & Htext2).
    apply returns_ret. split; [|split].
    + rewrite Hsent2, Hsent, <- app_assoc. reflexivity.
    + congruence.
    + exists (log1 ++ log2). split; [rewrite Hlog2, Hlog1, app_assoc; reflexivity|].
      split; [apply Forall_app; split; assumption|].
      rewrite !map_app, Htext1, Htext2, Hnet, Hsent, length_app. cbn [List.length].
      rewrite Nat.add_1_r. unfold nextResult.
      destruct (weatherFetchFails _); reflexivity.
Qed.

(** X15. With a key, [fetchWeatherForCities] writes one error entry
    per city whose request fails, naming the city, and nothing else:
    the texts of the new entries are, up to their order, those of the
    failed cities, each as often as the city fails, and when every
    request succeeds the console stays as it was. *)
Theorem fetchWeatherForCities_logs_each_failure
        (w : World) (apiKey : string) (cities : list City.t) (units : option Units) :
  keyConfigured w apiKey ->
  returns (fetchWeatherForCities cities units) w (fun _ w' =>
    exists log,
      console w' = console w ++ log /\
      Forall (fun entry => level entry = error) log /\
      Permutation (map text log)
                  (map cityErrorText
                       (failedCities (default units metric) apiKey (network w)
                                     (List.length (sent w)) cities))).
Proof.
  intros Hk.
  destruct (mapM_fetchCityWeather_console (default units metric) apiKey cities w)
    as (out & w' & Hrun & _ & _ & log & Hc & Hlevel & Htext).
  exists out, w'. split.
  - unfold fetchWeatherForCities, bind. rewrite (readApiKey_configured _ _ Hk).
    destruct Hk as [_ ->]. unfold try_catch. rewrite Hrun. reflexivity.
  - exists log. split; [exact Hc|]. split; [exact Hlevel|].
    rewrite Htext. apply Permutation_refl.
Qed.

(** Of Paris, Lyon and Oslo only Lyon's request fails in [secondFails]. *)
Lemma fetchWeatherForCities_logs_each_failure_witness :
  returns (fetchWeatherForCities [paris; lyon; oslo] None) secondFails (fun _ w' =>
    exists log,
      console w' = console secondFails ++ log /\
      Forall (fun entry => level entry = error) log /\
      Permutation (map text log)
                  (map cityErrorText
                       (failedCities (default None metric) "k3y" (network secondFails)
                                     (List.length (sent secondFails)) [paris; lyon; oslo]))).
Proof.
  apply (fetchWeatherForCities_logs_each_failure secondFails "k3y" [paris; lyon; oslo] None).
  split; reflexivity.
Defined.

Lemma Math_round_nearest (x : Q) :
  (inject_Z (Math_round x) - (1 # 2) <= x)%Q /\ (x < inject_Z (Math_round x) + (1 # 2))%Q.
Proof.
  unfold Math_round. split.
  - apply (Qplus_le_l _ _ (1 # 2)).
    eapply Qle_trans; [|apply Qfloor_le].
    unfold Qminus. rewrite <- Qplus_assoc, (Qplus_comm (- (1 # 2))), Qplus_opp_r, Qplus_0_r.
    apply Qle_refl.
  - apply (Qplus_lt_l _ _ (1 # 2)).
    eapply Qlt_le_trans; [apply Qlt_floor|].
    rewrite inject_Z_plus, <- Qplus_assoc. apply Qplus_le_compat; [apply Qle_refl|].
    discriminate.
Qed.

(** X16. With a key, a city whose request is answered OK with a
    current-weather record that has a first condition comes back with
    that condition's description and icon and with the record's
    temperature, maximum and minimum rounded to the nearest integer
    (halves up); the temperature shown is within half a degree of the
    reading. *)
Theorem fetchWeatherForCities_writes_rounded_weather
        (w : World) (apiKey : string) (cities : list City.t) (units : option Units)
        (i : nat) (city : City.t) (httpStatus : Z) (data : WeatherData.t)
        (w0 : Condition.t) (ws : list Condition.t) :
  keyConfigured w apiKey ->
  nth_error cities i = Some city ->
  network w (List.length (sent w) + i)%nat (cityRequest (default units metric) apiKey city)
    = Resolved (mkResponse true httpStatus (Some (WeatherJson data))) ->
  WeatherData.weather data = w0 :: ws ->
  returns (fetchWeatherForCities cities units) w (fun out _ =>
    nth_error out i = Some (cityWithWeather city data w0) /\
    let shown := inject_Z (Math_round (Main.temp (WeatherData.main data))) in
    (shown - (1 # 2) <= Main.temp (WeatherData.main data) < shown + (1 # 2))%Q).
Proof.
  intros Hk Hi Hnet Hw0.
  eapply returns_weaken; [apply (fetchWeatherForCities_configured w apiKey cities units Hk)|].
  intros out w' (Hout & _). split.
  - rewrite Hout, cityOutcomes_nth, Hi. cbn [option_map]. rewrite Hnet.
    unfold cityOutcome, withWeather. rewrite Hw0. reflexivity.
  - apply Math_round_nearest.
Qed.

(** Paris in [secondFails], where its request is answered with [clearSky]. *)
Lemma fetchWeatherForCities_writes_rounded_weather_witness :
  returns (fetchWeatherForCities [paris; lyon; oslo] None) secondFails (fun out _ =>
    nth_error out 0 = Some (cityWithWeather paris clearSky
                              (Condition.mk 800 "Clear" "clear sky" "01d")) /\
    let shown := inject_Z (Math_round (Main.temp (WeatherData.main clearSky))) in
    (shown - (1 # 2) <= Main.temp (WeatherData.main clearSky) < shown + (1 # 2))%Q).
Proof.
  apply (fetchWeatherForCities_writes_rounded_weather secondFails "k3y" [paris; lyon; oslo]
           None 0%nat paris 200 clearSky (Condition.mk 800 "Clear" "clear sky" "01d") []).
  - split; reflexivity.
  - reflexivity.
  - reflexivity.
  - reflexivity.
Defined.

(** ** [processForecastData]: the snapshots *)

Lemma orQ_nonzero (v d : Q) : ~ (v == 0)%Q -> orQ (Some v) d = v.
Proof.
  intros H. simpl. destruct (Qeq_bool v 0) eqn:E; [|reflexivity].
  apply Qeq_bool_iff in E. contradiction.
Qed.

Lemma orQ_zero (v d : Q) : (v == 0)%Q -> orQ (Some v) d = d.
Proof.
  intros H. simpl. destruct (Qeq_bool v 0) eqn:E; [reflexivity|].
  apply Qeq_bool_neq in E. contradiction.
Qed.

(** X17. The snapshots of a record are chosen by index among the [n]
    samples of its day: [temp.day] is the reading of the middle sample
    (index [floor(n/2)]); [temp.morn], [temp.eve] and [temp.night] are
    the readings of the samples at indices [0],
    [min(n-1, floor(n/2)+2)] and [n-1], except that a reading of zero
    is replaced by the reading of the middle sample. *)
Theorem processForecastData_snapshot_indices (l : list ForecastItem.t) (units : Units) :
  Forall validTimestamp l ->
  exists out,
    processForecastData l units = Normal out /\
    forall r, In r out ->
      let items := samplesOn (recordDate r) l in
      let n := length_of items in
      1 <= n /\
      exists first mid evening last,
        item_at items 0 = Some first /\
        item_at items (n / 2) = Some mid /\
        item_at items (Z.min (n - 1) (n / 2 + 2)) = Some evening /\
        item_at items (n - 1) = Some last /\
        ForecastData.Temp.day (ForecastData.temp r) = tempOf mid /\
        readingOrMiddle first mid (ForecastData.Temp.morn (ForecastData.temp r)) /\
        readingOrMiddle evening mid (ForecastData.Temp.eve (ForecastData.temp r)) /\
        readingOrMiddle last mid (ForecastData.Temp.night (ForecastData.temp r)).
Proof.
  intros Hv. destruct (processForecastData_days l units Hv) as (out & Hout & _ & _ & Hrec).
  exists out. split; [exact Hout|]. intros r Hr items n.
  destruct (Hrec r Hr) as [Hne (_ & _ & _ & _ & first & mid & evening & last & H)].
  fold items in H, Hne. fold n in H.
  destruct H as (H0 & Hm & He & Hl & Hday & Hmorn & Heve & Hnight).
  split; [pose proof (length_of_pos items Hne); fold n in H; lia|].
  exists first, mid, evening, last. unfold readingOrMiddle.
  repeat split; try assumption; intros Hz;
    first [ rewrite Hmorn | rewrite Heve | rewrite Hnight ];
    first [ apply orQ_nonzero; exact Hz | apply orQ_zero; exact Hz ].
Qed.

(** The statement above at [frostyMorning], whose first sample reads zero. *)
Lemma processForecastData_snapshot_indices_witness :
  exists out,
    processForecastData frostyMorning metric = Normal out /\
    forall r, In r out ->
      let items := samplesOn (recordDate r) frostyMorning in
      let n := length_of items in
      1 <= n /\
      exists first mid evening last,
        item_at items 0 = Some first /\
        item_at items (n / 2) = Some mid /\
        item_at items (Z.min (n - 1) (n / 2 + 2)) = Some evening /\
        item_at items (n - 1) = Some last /\
        ForecastData.Temp.day (ForecastData.temp r) = tempOf mid /\
        readingOrMiddle first mid (ForecastData.Temp.morn (ForecastData.temp r)) /\
        readingOrMiddle evening mid (ForecastData.Temp.eve (ForecastData.temp r)) /\
        readingOrMiddle last mid (ForecastData.Temp.night (ForecastData.temp r)).
Proof.
  apply (processForecastData_snapshot_indices frostyMorning metric).
  unfold frostyMorning. valid_timestamps.
Defined.

(** ** [fetchCities]: requests, errors and the mock page *)

Lemma fetchCitiesTry_frame (params : FetchCitiesParams) (w w1 : World)
      (c : Completion FetchCitiesResponse) :
  fetchCitiesTry params w = (c, w1) ->
  sent w1 = sent w ++ [citiesRequest params] /\
  console w1 = console w /\
  random_used w1 = random_used w /\
  match c with
  | Normal _ => citiesFetchFails (nextResult w (citiesRequest params)) = false
  | Throw _ => citiesFetchFails (nextResult w (citiesRequest params)) = true
  end.
Proof.
  unfold fetchCitiesTry, citiesFetchFails, nextResult, bind, fetch.
  destruct (network w (List.length (sent w)) (citiesRequest params))
    as [|[[|] st [[n records|data|items|]|]]]; simpl; intros [= <- <-]; repeat split.
Qed.

Lemma scaled_shifted (r : Q) (k c : Z) :
  (0 <= r < 1)%Q -> 0 < k ->
  (inject_Z (- c) <= r * inject_Z k - inject_Z c < inject_Z (k - c))%Q.
Proof.
  intros [H0 H1] Hk.
  assert (Hkq : (0 < inject_Z k)%Q) by (rewrite <- (Zlt_Qlt 0); exact Hk).
  unfold Z.sub. rewrite inject_Z_plus, !inject_Z_opp. unfold Qminus. split.
  - rewrite <- (Qplus_0_l (- inject_Z c)) at 1. apply Qplus_le_compat; [|apply Qle_refl].
    apply Qmult_le_0_compat; [exact H0 | apply Qlt_le_weak; exact Hkq].
  - apply Qplus_lt_le_compat; [|apply Qle_refl].
    rewrite <- (Qmult_1_l (inject_Z k)) at 2. apply Qmult_lt_compat_r; assumption.
Qed.

Lemma mockCity_fields (offset : Z) (i : nat) (w : World) :
  returns (mockCity offset (Z.of_nat i)) w (fun c w' =>
    mockedCity offset i c /\ afterDraws 5 w w').
Proof.
  unfold mockCity. do 5 step_draw. apply returns_ret.
  chain_draws. split; [|assumption].
  unfold mockedCity. cbn [City.id City.name City.country City.timezone City.latitude
                          City.longitude City.population City.weather].
  repeat (split; [first [reflexivity | assumption]|]).
  split; [apply (scaled_shifted r 180 90); [assumption | reflexivity]|].
  split; [apply (scaled_shifted r0 360 180); [assumption | reflexivity]|].
  split; [|reflexivity].
  apply (Math_floor_scaled r1 10000000); [assumption | reflexivity].
Qed.

Lemma Array_from_mockCity_fields (offset limit : Z) (w : World) :
  limit <= 4294967295 ->
  returns (Array_from limit (mockCity offset)) w (fun mockCities w' =>
    List.length mockCities = Z.to_nat limit /\
    (forall i c, nth_error mockCities i = Some c -> mockedCity offset i c) /\
    afterDraws (5 * List.length mockCities) w w').
Proof.
  intros Hl. unfold Array_from.
  destruct (4294967295 <? limit) eqn:E; [apply Z.ltb_lt in E; lia|].
  eapply returns_weaken.
  - apply (returns_mapM (fun i => mockCity offset (Z.of_nat i)) (seq 0 (Z.to_nat limit))
             (fun n w1 => afterDraws (5 * n) w w1)
             (fun i c => mockedCity offset i c) w) with (n := 0%nat).
    + intros n i w1 _ Hw1.
      eapply returns_weaken; [apply mockCity_fields|].
      intros c w2 (Hc & Hw2). split; [exact Hc|].
      replace (5 * S n)%nat with (5 * n + 5)%nat by lia.
      apply (afterDraws_trans _ _ _ _ _ Hw1 Hw2).
    + apply afterDraws_refl.
  - intros mockCities w' (HF & Hw'). rewrite length_seq in Hw'.
    pose proof (Forall2_length HF) as Hlen. rewrite length_seq in Hlen.
    split; [symmetry; exact Hlen|]. split.
    + intros i c Hi. apply (Forall2_seq_nth _ _ _ _ HF i c Hi).
    + rewrite <- Hlen. exact Hw'.
Qed.

Lemma fetchCitiesCatch_mock (params : FetchCitiesParams) (e : Exception) (w : World) :
  default (limit params) 20 <= 4294967295 ->
  returns (fetchCitiesCatch params e) w (fun res w' =>
    logged w w' (mkLog error "Error fetching cities:" (Some e)) /\
    sent w' = sent w /\
    total res = 100 /\
    hasMore res = (default (page params) 1 <? 5) /\
    List.length (cities res) = Z.to_nat (default (limit params) 20) /\
    forall i c, nth_error (cities res) i = Some c ->
      mockedCity ((default (page params) 1 - 1) * default (limit params) 20) i c).
Proof.
  intros Hl. unfold fetchCitiesCatch, console_error. step_io.
  apply returns_bind. eapply returns_weaken; [apply Array_from_mockCity_fields; exact Hl|].
  intros mockCities w2 (Hlen & Hfields & _ & _ & Hc & Hs & _). apply returns_ret.
  cbn [cities hasMore total]. unfold logged.
  split; [congruence|]. split; [congruence|]. split; [reflexivity|].
  split; [reflexivity|]. split; assumption.
Qed.

(** Below the bound of [Array.from] every run of [fetchCities] ends
    normally, after one request. *)
Lemma fetchCities_run (w : World) (params : FetchCitiesParams) :
  default (limit params) 20 <= 4294967295 ->
  returns (fetchCities params) w (fun _ w' =>
    sent w' = sent w ++ [citiesRequest params] /\
    (citiesFetchFails (nextResult w (citiesRequest params)) = false ->
     console w' = console w /\ random_used w' = random_used w)).
Proof.
  intros Hl. unfold fetchCities. apply returns_try_catch.
  - intros res w' Hrun. destruct (fetchCitiesTry_frame _ _ _ _ Hrun) as (Hs & Hc & Hr & _). auto.
  - intros e w1 Hrun. destruct (fetchCitiesTry_frame _ _ _ _ Hrun) as (Hs & Hc & Hr & Hf).
    eapply returns_weaken; [apply (fetchCitiesCatch_mock params e w1 Hl)|].
    intros res w' (_ & Hs' & _). split; [congruence|].
    intros Hok. rewrite Hok in Hf. discriminate Hf.
Qed.

(** X18. For a limit of at most 2^32 - 1, [fetchCities] never throws,
    and whatever the directory does it sends exactly one request; when
    the fetch succeeds it writes nothing on the console and draws no
    random number. *)
Theorem fetchCities_never_throws (w : World) (params : FetchCitiesParams) :
  default (limit params) 20 <= 4294967295 ->
  returns (fetchCities params) w (fun _ w' =>
    sent w' = sent w ++ [citiesRequest params] /\
    (citiesFetchFails (nextResult w (citiesRequest params)) = false ->
     console w' = console w /\ random_used w' = random_used w)).
Proof. exact (fetchCities_run w params). Qed.

(** The statement above for the second page of twenty, the directory
    being out of reach. *)
Lemma fetchCities_never_throws_witness :
  returns (fetchCities secondPage) offline (fun _ w' =>
    sent w' = sent offline ++ [citiesRequest secondPage] /\
    (citiesFetchFails (nextResult offline (citiesRequest secondPage)) = false ->
     console w' = console offline /\ random_used w' = random_used offline)).
Proof.
  apply (fetchCities_never_throws offline secondPage). apply Z.leb_le. reflexivity.
Defined.

(** X19. Above the bound of [Array.from] the fallback itself fails:
    when the fetch fails and the limit exceeds 2^32 - 1, the mock
    array cannot be made and [fetchCities] throws a [RangeError] to
    its caller. *)
Theorem fetchCities_throws_on_huge_limit (w : World) (params : FetchCitiesParams) :
  4294967295 < default (limit params) 20 ->
  citiesFetchFails (nextResult w (citiesRequest params)) = true ->
  exists w', fetchCities params w = (Throw RangeError, w').
Proof.
  intros Hl Hf.
  destruct (fetchCitiesTry_fails params w Hf) as (e & w1 & Htry & _).
  unfold fetchCities, try_catch. rewrite Htry.
  unfold fetchCitiesCatch, console_error, console_log, bind, Array_from.
  apply Z.ltb_lt in Hl. rewrite Hl. eexists. reflexivity.
Qed.

(** The statement above for a page of a hundred thousand million rows. *)
Lemma fetchCities_throws_on_huge_limit_witness :
  exists w', fetchCities hugePage offline = (Throw RangeError, w').
Proof.
  apply (fetchCities_throws_on_huge_limit offline hugePage); reflexivity.
Defined.

(** X20. When the fetch fails (limit at most 2^32 - 1), the page
    returned holds [limit] mock cities; the [i]-th has id
    "mock-<offset+i>" and name "City <offset+i+1>", a country and a
    time zone out of the built-in lists, a latitude in [-90, 90), a
    longitude in [-180, 180) and a population below ten million. The
    page says [total = 100], and [hasMore] exactly on pages below 5.
    The page, the limit, the offset [(page-1)*limit] and the end
    [offset + limit] of the page are safe integers. *)
Theorem fetchCities_mock_page (w : World) (params : FetchCitiesParams) :
  default (limit params) 20 <= 4294967295 ->
  safeInteger (default (page params) 1) ->
  safeInteger (default (limit params) 20) ->
  safeInteger ((default (page params) 1 - 1) * default (limit params) 20) ->
  safeInteger ((default (page params) 1 - 1) * default (limit params) 20
               + default (limit params) 20) ->
  citiesFetchFails (nextResult w (citiesRequest params)) = true ->
  returns (fetchCities params) w (fun res _ =>
    total res = 100 /\
    (hasMore res = true <-> default (page params) 1 < 5) /\
    List.length (cities res) = Z.to_nat (default (limit params) 20) /\
    forall i c, nth_error (cities res) i = Some c ->
      mockedCity ((default (page params) 1 - 1) * default (limit params) 20) i c).
Proof.
  intros Hl _ _ _ _ Hf.
  destruct (fetchCitiesTry_fails params w Hf) as (e & w1 & Htry & _).
  destruct (fetchCitiesCatch_mock params e w1 Hl)
    as (res & w' & Hrun & _ & _ & Htotal & Hmore & Hlen & Hfields).
  exists res, w'. split; [unfold fetchCities, try_catch; rewrite Htry; exact Hrun|].
  split; [exact Htotal|]. split; [rewrite Hmore; apply Z.ltb_lt|]. split; assumption.
Qed.

(** The statement above for the second page of twenty. *)
Lemma fetchCities_mock_page_witness :
  returns (fetchCities secondPage) offline (fun res _ =>
    total res = 100 /\
    (hasMore res = true <-> default (page secondPage) 1 < 5) /\
    List.length (cities res) = Z.to_nat (default (limit secondPage) 20) /\
    forall i c, nth_error (cities res) i = Some c ->
      mockedCity ((default (page secondPage) 1 - 1) * default (limit secondPage) 20) i c).
Proof.
  apply (fetchCities_mock_page offline secondPage);
    first [reflexivity | apply Z.leb_le; reflexivity | split; apply Z.leb_le; reflexivity].
Defined.

(** ** Printing and reading back an integer *)

Lemma parseDigits_acc (u : Decimal.uint) (acc : positive) :
  parseDigits 10 (NilEmpty.string_of_uint u) (Some (Z.pos acc))
  = Some (Z.pos (Pos.of_uint_acc u acc)).
Proof.
  revert acc. induction u; intros acc; cbn [NilEmpty.string_of_uint parseDigits Pos.of_uint_acc];
    try reflexivity;
    (change (digitValue 10 _) with (Some 0) || change (digitValue 10 _) with (Some 1)
     || change (digitValue 10 _) with (Some 2) || change (digitValue 10 _) with (Some 3)
     || change (digitValue 10 _) with (Some 4) || change (digitValue 10 _) with (Some 5)
     || change (digitValue 10 _) with (Some 6) || change (digitValue 10 _) with (Some 7)
     || change (digitValue 10 _) with (Some 8) || change (digitValue 10 _) with (Some 9));
    cbv iota beta;
    match goal with
    | |- parseDigits 10 _ (Some ?a) = Some (Z.pos (Pos.of_uint_acc _ ?b)) =>
        replace a with (Z.pos b) by lia; apply IHu
    end.
Qed.

Lemma parseDigits_zero (u : Decimal.uint) :
  parseDigits 10 (NilEmpty.string_of_uint u) (Some 0) = Some (Z.of_N (Pos.of_uint u)).
Proof.
  induction u; cbn [NilEmpty.string_of_uint parseDigits Pos.of_uint]; try reflexivity;
    (change (digitValue 10 _) with (Some 0) || change (digitValue 10 _) with (Some 1)
     || change (digitValue 10 _) with (Some 2) || change (digitValue 10 _) with (Some 3)
     || change (digitValue 10 _) with (Some 4) || change (digitValue 10 _) with (Some 5)
     || change (digitValue 10 _) with (Some 6) || change (digitValue 10 _) with (Some 7)
     || change (digitValue 10 _) with (Some 8) || change (digitValue 10 _) with (Some 9));
    cbv iota beta; first [exact IHu | apply parseDigits_acc].
Qed.

Lemma parseDigits_start (u : Decimal.uint) :
  u <> Decimal.Nil ->
  parseDigits 10 (NilEmpty.string_of_uint u) None
  = parseDigits 10 (NilEmpty.string_of_uint u) (Some 0).
Proof. destruct u; intros H; [congruence | reflexivity ..]. Qed.

(** A decimal text: [parseInt] reads past no white space, sign or "0x". *)
Lemma Number_parseInt_digits (u : Decimal.uint) :
  u <> Decimal.Nil ->
  Number_parseInt (NilEmpty.string_of_uint u)
  = option_map (Z.mul 1) (parseDigits 10 (NilEmpty.string_of_uint u) None).
Proof.
  intros Hu. destruct u as [|u|u|u|u|u|u|u|u|u|u]; [congruence | | reflexivity ..].
  destruct u; reflexivity.
Qed.

Lemma Number_parseInt_negative (u : Decimal.uint) :
  u <> Decimal.Nil ->
  Number_parseInt (String "-" (NilEmpty.string_of_uint u))
  = option_map (Z.mul (-1)) (parseDigits 10 (NilEmpty.string_of_uint u) None).
Proof.
  intros Hu. destruct u as [|u|u|u|u|u|u|u|u|u|u]; [congruence | | reflexivity ..].
  destruct u; reflexivity.
Qed.

Lemma Number_parseInt_toString (n : Z) : Number_parseInt (Number_toString n) = Some n.
Proof.
  unfold Number_toString. destruct n as [|p|p]; [reflexivity | |].
  - cbn [Z.to_int NilZero.string_of_int]. unfold NilZero.string_of_uint.
    pose proof (Unsigned.to_uint_nonnil p) as Hnil.
    destruct (Pos.to_uint p) eqn:E; try congruence; rewrite <- E;
      rewrite Number_parseInt_digits, parseDigits_start, parseDigits_zero by (rewrite E; discriminate);
      rewrite Unsigned.of_to; cbn [option_map]; f_equal; lia.
  - cbn [Z.to_int NilZero.string_of_int]. unfold NilZero.string_of_uint.
    pose proof (Unsigned.to_uint_nonnil p) as Hnil.
    destruct (Pos.to_uint p) eqn:E; try congruence; rewrite <- E;
      rewrite Number_parseInt_negative, parseDigits_start, parseDigits_zero by (rewrite E; discriminate);
      rewrite Unsigned.of_to; cbn [option_map]; f_equal; lia.
Qed.

Lemma substring_all (s : string) : String.substring 0 (String.length s) s = s.
Proof. induction s as [|c s IH]; simpl; [reflexivity | rewrite IH; reflexivity]. Qed.

Lemma String_replace_mock (s : string) : String_replace ("mock-" +++ s) "mock-" "" = s.
Proof.
  unfold String_replace.
  assert (H : String.index 0 "mock-" ("mock-" +++ s) = Some 0%nat).
  { cbn. destruct s; reflexivity. }
  rewrite H. cbn. rewrite Nat.sub_0_r. apply substring_all.
Qed.

Lemma prefix_mock (s : string) : String.prefix "mock-" ("mock-" +++ s) = true.
Proof. cbn. destruct s; reflexivity. Qed.

(** [Number.parseInt] reads back what [toString] printed, also behind
    the "mock-" that [getCityById] strips. *)
Lemma Number_parseInt_reads_back (n : Z) :
  Number_parseInt (Number_toString n) = Some n /\
  Number_parseInt (String_replace ("mock-" +++ Number_toString n) "mock-" "") = Some n.
Proof.
  split; [apply Number_parseInt_toString|].
  rewrite String_replace_mock. apply Number_parseInt_toString.
Qed.

(** ** [getCityById] *)

Lemma getCityByIdCatch_mock_name (n : Z) (e : Exception) (w : World) :
  returns (getCityByIdCatch ("mock-" +++ Number_toString n) e) w (fun v w' =>
    exists c, v = Some c /\
      City.id c = "mock-" +++ Number_toString n /\
      City.name c = "City " +++ Number_toString (n + 1) /\
      In (City.country c) countries /\ In (City.timezone c) timezones).
Proof.
  unfold getCityByIdCatch, console_error. step_io.
  rewrite prefix_mock, String_replace_mock, Number_parseInt_toString.
  do 5 step_draw. apply returns_ret.
  eexists. split; [reflexivity|]. cbn. repeat split; assumption.
Qed.

(** X21. The mock list and the mock detail agree: when the directory
    cannot be reached, [getCityById] of the id "mock-<n>", which is the
    id [fetchCities] gives its mock city named "City <n+1>", returns a
    city of that very id and name, [n] and [n + 1] being safe
    integers. *)
Theorem getCityById_mock_matches_list (w : World) (n : Z) :
  safeInteger n -> safeInteger (n + 1) ->
  citiesFetchFails (nextResult w (cityByIdRequest ("mock-" +++ Number_toString n))) = true ->
  returns (getCityById ("mock-" +++ Number_toString n)) w (fun v _ =>
    exists c, v = Some c /\
      City.id c = "mock-" +++ Number_toString n /\
      City.name c = "City " +++ Number_toString (n + 1)).
Proof.
  intros _ _ Hf.
  destruct (getCityByIdTry_fails _ w Hf) as (e & w1 & Htry & _).
  destruct (getCityByIdCatch_mock_name n e w1) as (v & w' & Hrun & c & Hv & Hid & Hname & _).
  exists v, w'. split; [unfold getCityById, try_catch; rewrite Htry; exact Hrun|].
  exists c. auto.
Qed.

(** The statement above for the id "mock-27". *)
Lemma getCityById_mock_matches_list_witness :
  returns (getCityById ("mock-" +++ Number_toString 27)) offline (fun v _ =>
    exists c, v = Some c /\
      City.id c = "mock-" +++ Number_toString 27 /\
      City.name c = "City " +++ Number_toString (27 + 1)).
Proof.
  apply (getCityById_mock_matches_list offline 27);
    first [reflexivity | split; apply Z.leb_le; reflexivity].
Defined.

(** X22. When the directory answers OK with at least one record,
    [getCityById] returns the first record reshaped, whatever follows
    it: id, name, country and coordinates are the record's, a missing
    population reads 0 and a missing time zone reads "Unknown", and
    there is no weather. It sends one request, writes nothing on the
    console and draws no random number. *)
Theorem getCityById_found (w : World) (id : string) (httpStatus nhits : Z)
        (record : CityRecord.t) (rest : list CityRecord.t) :
  nextResult w (cityByIdRequest id)
    = Resolved (mkResponse true httpStatus (Some (CitiesJson nhits (record :: rest)))) ->
  returns (getCityById id) w (fun v w' =>
    (exists c, v = Some c /\
       City.id c = CityRecord.recordid record /\
       City.name c = CityFields.name (CityRecord.fields record) /\
       City.country c = CityFields.cou_name_en (CityRecord.fields record) /\
       (City.latitude c, City.longitude c) = CityFields.coordinates (CityRecord.fields record) /\
       (CityFields.population (CityRecord.fields record) = None -> City.population c = 0) /\
       (CityFields.timezone (CityRecord.fields record) = None -> City.timezone c = "Unknown") /\
       City.weather c = None) /\
    sent w' = sent w ++ [cityByIdRequest id] /\
    console w' = console w /\
    random_used w' = random_used w).
Proof.
  intros Hnet. unfold returns, getCityById, getCityByIdTry, try_catch, bind, fetch.
  unfold nextResult in Hnet. rewrite Hnet. cbn.
  eexists _, _. split; [reflexivity|]. cbn. split; [|auto].
  eexists. split; [reflexivity|]. cbn.
  repeat split.
  - destruct (CityFields.coordinates (CityRecord.fields record)); reflexivity.
  - intros ->. reflexivity.
  - intros ->. reflexivity.
Qed.

(** The statement above for Paris. *)
Lemma getCityById_found_witness :
  returns (getCityById "fr-75056") directoryUp (fun v w' =>
    (exists c, v = Some c /\
       City.id c = CityRecord.recordid parisRecord /\
       City.name c = CityFields.name (CityRecord.fields parisRecord) /\
       City.country c = CityFields.cou_name_en (CityRecord.fields parisRecord) /\
       (City.latitude c, City.longitude c)
       = CityFields.coordinates (CityRecord.fields parisRecord) /\
       (CityFields.population (CityRecord.fields parisRecord) = None -> City.population c = 0) /\
       (CityFields.timezone (CityRecord.fields parisRecord) = None
        -> City.timezone c = "Unknown") /\
       City.weather c = None) /\
    sent w' = sent directoryUp ++ [cityByIdRequest "fr-75056"] /\
    console w' = console directoryUp /\
    random_used w' = random_used directoryUp).
Proof.
  apply (getCityById_found directoryUp "fr-75056" 200 45 parisRecord
           [CityRecord.mk "fr-69123"
              (CityFields.mk "Lyon" "France" (4575 # 100, 485 # 100) None None)]).
  reflexivity.
Defined.

(** ** The query of [fetchCities] *)

Lemma refine_params_named (key : string) (fs : list (string * string)) :
  map snd
    (filter (fun kv : string * QueryValue => String.eqb (fst kv) ("refine." +++ key))
       (flat_map (fun '(key, value) =>
                    if truthy value then [("refine." +++ key, QStr value)] else [])
                 fs))
  = map QStr (activeFilters key fs).
Proof.
  unfold activeFilters. induction fs as [|[k v] fs IH]; [reflexivity|].
  cbn [flat_map filter fst snd]. rewrite filter_app, map_app, IH.
  destruct (truthy v) eqn:Ev.
  - cbn [filter fst app map]. change (String.eqb ("refine." +++ k) ("refine." +++ key))
      with (String.eqb k key).
    rewrite andb_true_r. destruct (String.eqb k key); reflexivity.
  - rewrite andb_false_r. reflexivity.
Qed.

(** X23. The query [fetchCities] assembles names the rows wanted (the
    limit, a safe integer), asks for JSON, carries a [q] parameter
    exactly when the search text is not empty, and a [refine.<key>]
    parameter for each filter of that key whose value is not empty, and
    for no other. *)
Theorem citiesQuery_shape (params : FetchCitiesParams) :
  safeInteger (default (limit params) 20) ->
  let q := citiesQuery params in
  paramsNamed "rows" q = [QStr (Number_toString (default (limit params) 20))] /\
  paramsNamed "format" q = [QStr "json"] /\
  paramsNamed "q" q
  = (if truthy (default (search params) "") then [QStr (default (search params) "")] else []) /\
  forall key, paramsNamed ("refine." +++ key) q = map QStr (activeFilters key (filters params)).
Proof.
  intros _. unfold paramsNamed, citiesQuery. cbv zeta.
  split; [|split; [|split]].
  - rewrite !filter_app, refine_params_not_named by (intros k; reflexivity).
    destruct (truthy (default (search params) "")); reflexivity.
  - rewrite !filter_app, refine_params_not_named by (intros k; reflexivity).
    destruct (truthy (default (search params) "")); reflexivity.
  - rewrite !filter_app, refine_params_not_named by (intros k; reflexivity).
    destruct (truthy (default (search params) "")); reflexivity.
  - intros key. rewrite !filter_app, !map_app, refine_params_named.
    destruct (truthy (default (search params) ""));
      cbn [filter fst snd map app String.eqb String.append Ascii.eqb Bool.eqb andb];
      rewrite app_nil_r; reflexivity.
Qed.

(** The statement above for the second page of twenty, filtered by
    country code. *)
Lemma citiesQuery_shape_witness :
  let q := citiesQuery secondPage in
  paramsNamed "rows" q = [QStr (Number_toString (default (limit secondPage) 20))] /\
  paramsNamed "format" q = [QStr "json"] /\
  paramsNamed "q" q
  = (if truthy (default (search secondPage) "")
     then [QStr (default (search secondPage) "")] else []) /\
  forall key, paramsNamed ("refine." +++ key) q
              = map QStr (activeFilters key (filters secondPage)).
Proof.
  apply (citiesQuery_shape secondPage). split; apply Z.leb_le; reflexivity.
Defined.


(** ** The table: sorting and filtering *)

Lemma CityKey_eqb_eq (a b : CityKey.t) : CityKey.eqb a b = true <-> a = b.
Proof. destruct a, b; split; intros H; first [reflexivity | discriminate H]. Qed.

Lemma CityKey_eqb_refl (a : CityKey.t) : CityKey.eqb a a = true.
Proof. destruct a; reflexivity. Qed.

Lemma CityKey_eqb_neq (a b : CityKey.t) : a <> b -> CityKey.eqb a b = false.
Proof.
  intros H. destruct (CityKey.eqb a b) eqn:E; [|reflexivity].
  apply CityKey_eqb_eq in E. contradiction.
Qed.

(** The names of two keys are equal just when the keys are. *)
Lemma CityKey_toString_eqb (a b : CityKey.t) :
  String.eqb (CityKey.toString a) (CityKey.toString b) = CityKey.eqb a b.
Proof. destruct a, b; reflexivity. Qed.

Lemma citiesQuery_refine (params : FetchCitiesParams) (key : string) :
  paramsNamed ("refine." +++ key) (citiesQuery params)
  = map QStr (activeFilters key (filters params)).
Proof.
  unfold paramsNamed, citiesQuery. cbv zeta.
  rewrite !filter_app, !map_app, refine_params_named.
  destruct (truthy (default (search params) ""));
    cbn [filter fst snd map app String.eqb String.append Ascii.eqb Bool.eqb andb];
    rewrite app_nil_r; reflexivity.
Qed.

(** The refinements of a field are the non-empty values the filters
    hold for it. *)
Lemma refinements_filters (s : TableState.t) (term : string) (field : CityKey.t) :
  refinements s term field
  = map QStr (map snd (filter (fun kv => CityKey.eqb (fst kv) field && truthy (snd kv))
                              (TableState.filters s))).
Proof.
  unfold refinements, tableQuery. rewrite citiesQuery_refine. f_equal.
  unfold activeFilters, loadCitiesParams. cbn [filters].
  induction (TableState.filters s) as [|[k v] fs IH]; [reflexivity|].
  cbn [map filter fst snd]. rewrite CityKey_toString_eqb.
  destruct (CityKey.eqb k field && truthy v); cbn [map snd]; rewrite IH; reflexivity.
Qed.

Lemma tableQuery_start (s : TableState.t) (term : string) :
  paramsNamed "start" (tableQuery s term)
  = [QStr (Number_toString ((TableState.page s - 1) * 20))].
Proof. unfold tableQuery. rewrite citiesQuery_start. reflexivity. Qed.

Lemma withFilter_other (fs : Filters) (field other : CityKey.t) (value : string) :
  other <> field ->
  filter (fun kv => CityKey.eqb (fst kv) other && truthy (snd kv)) (withFilter fs field value)
  = filter (fun kv => CityKey.eqb (fst kv) other && truthy (snd kv)) fs.
Proof.
  intros Hne. induction fs as [|[k v] fs IH]; cbn [withFilter filter fst snd].
  - rewrite (CityKey_eqb_neq field other) by congruence. reflexivity.
  - destruct (CityKey.eqb k field) eqn:E; cbn [filter fst snd].
    + apply CityKey_eqb_eq in E. subst k.
      rewrite (CityKey_eqb_neq field other) by congruence. reflexivity.
    + rewrite IH. reflexivity.
Qed.

Lemma filter_absent_key (fs : Filters) (field : CityKey.t) :
  ~ In field (map fst fs) ->
  filter (fun kv => CityKey.eqb (fst kv) field && truthy (snd kv)) fs = [].
Proof.
  induction fs as [|[k v] fs IH]; intros Hn; [reflexivity|].
  cbn [filter fst snd map] in *.
  rewrite (CityKey_eqb_neq k field) by (intros ->; apply Hn; left; reflexivity).
  apply IH. intros Hin. apply Hn. right. exact Hin.
Qed.

Lemma withFilter_same (fs : Filters) (field : CityKey.t) (value : string) :
  NoDup (map fst fs) ->
  map snd (filter (fun kv => CityKey.eqb (fst kv) field && truthy (snd kv))
                  (withFilter fs field value))
  = if truthy value then [value] else [].
Proof.
  induction fs as [|[k v] fs IH]; intros Hnd; cbn [withFilter filter fst snd map].
  - rewrite CityKey_eqb_refl. destruct (truthy value); reflexivity.
  - inversion Hnd as [|x l Hk Hnd']; subst.
    destruct (CityKey.eqb k field) eqn:E; cbn [filter fst snd].
    + rewrite E. apply CityKey_eqb_eq in E. subst k.
      rewrite (filter_absent_key fs field Hk).
      destruct (truthy value); reflexivity.
    + rewrite E. apply IH. exact Hnd'.
Qed.

Lemma withFilter_keys (fs : Filters) (field key : CityKey.t) (value : string) :
  In key (map fst (withFilter fs field value)) -> key = field \/ In key (map fst fs).
Proof.
  induction fs as [|[k v] fs IH]; cbn [withFilter map fst].
  - intros [<-|[]]. left. reflexivity.
  - destruct (CityKey.eqb k field); cbn [map fst].
    + intros H. right. exact H.
    + intros [<-|H]; [right; left; reflexivity|].
      destruct (IH H) as [->|Hin]; [left; reflexivity | right; right; exact Hin].
Qed.

Lemma withFilter_NoDup (fs : Filters) (field : CityKey.t) (value : string) :
  NoDup (map fst fs) -> NoDup (map fst (withFilter fs field value)).
Proof.
  induction fs as [|[k v] fs IH]; intros Hnd; cbn [withFilter map fst].
  - constructor; [intros [] | constructor].
  - inversion Hnd as [|x l Hk Hnd']; subst.
    destruct (CityKey.eqb k field) eqn:E; cbn [map fst].
    + constructor; assumption.
    + constructor; [|apply IH; exact Hnd'].
      intros Hin. destruct (withFilter_keys _ _ _ _ Hin) as [->|Hin'].
      * rewrite CityKey_eqb_refl in E. discriminate E.
      * contradiction.
Qed.

Lemma withoutFilter_same (fs : Filters) (field : CityKey.t) :
  filter (fun kv => CityKey.eqb (fst kv) field && truthy (snd kv)) (withoutFilter fs field) = [].
Proof.
  unfold withoutFilter. induction fs as [|[k v] fs IH]; [reflexivity|].
  cbn [filter fst snd]. destruct (CityKey.eqb k field) eqn:E; cbn [negb filter fst snd].
  - exact IH.
  - rewrite E. exact IH.
Qed.

Lemma withoutFilter_other (fs : Filters) (field other : CityKey.t) :
  other <> field ->
  filter (fun kv => CityKey.eqb (fst kv) other && truthy (snd kv)) (withoutFilter fs field)
  = filter (fun kv => CityKey.eqb (fst kv) other && truthy (snd kv)) fs.
Proof.
  intros Hne. unfold withoutFilter. induction fs as [|[k v] fs IH]; [reflexivity|].
  cbn [filter fst snd]. destruct (CityKey.eqb k field) eqn:E; cbn [negb filter fst snd].
  - apply CityKey_eqb_eq in E. subst k.
    rewrite (CityKey_eqb_neq field other) by congruence. exact IH.
  - rewrite IH. reflexivity.
Qed.

Lemma withoutFilter_withFilter (fs : Filters) (field : CityKey.t) (value : string) :
  ~ In field (map fst fs) -> withoutFilter (withFilter fs field value) field = fs.
Proof.
  unfold withoutFilter. induction fs as [|[k v] fs IH]; intros Hn; cbn [withFilter].
  - cbn [filter fst]. rewrite CityKey_eqb_refl. reflexivity.
  - cbn [map fst] in Hn.
    rewrite (CityKey_eqb_neq k field) by (intros ->; apply Hn; left; reflexivity).
    cbn [filter fst].
    rewrite (CityKey_eqb_neq k field) by (intros ->; apply Hn; left; reflexivity).
    cbn [negb]. f_equal. apply IH. intros Hin. apply Hn. right. exact Hin.
Qed.

Lemma withoutFilter_NoDup (fs : Filters) (field : CityKey.t) :
  NoDup (map fst fs) -> NoDup (map fst (withoutFilter fs field)).
Proof.
  unfold withoutFilter. induction fs as [|[k v] fs IH]; intros Hnd; [constructor|].
  inversion Hnd as [|x l Hk Hnd']; subst. cbn [filter fst].
  destruct (negb (CityKey.eqb k field)); [|apply IH; exact Hnd'].
  cbn [map fst]. constructor; [|apply IH; exact Hnd'].
  intros Hin. apply Hk. apply in_map_iff in Hin. destruct Hin as ([k' v'] & <- & Hin).
  apply filter_In in Hin. apply in_map_iff. exists (k', v'). split; [reflexivity | apply Hin].
Qed.

(** X24. A click on a column header sorts by that column: ascending,
    unless the table was already sorted by it in ascending order, in
    which case the order flips to descending (the [sort] parameter
    gets its dash). The next request starts at the first row, keeps
    the filters, and two further clicks on the same header bring the
    table back to the state after the first. *)
Theorem handleSort_query (s : TableState.t) (term : string) (field : CityKey.t) :
  let s' := handleSort s field in
  let descending :=
    CityKey.eqb (TableState.sortField s) field
    && match TableState.sortDirection s with asc => true | desc => false end in
  paramsNamed "sort" (tableQuery s' term)
  = [QStr ((if descending then "-" else "") +++ CityKey.toString field)] /\
  paramsNamed "start" (tableQuery s' term) = [QStr "0"] /\
  (forall other, refinements s' term other = refinements s term other) /\
  handleSort (handleSort s' field) field = s'.
Proof.
  cbv zeta. split; [|split; [|split]].
  - unfold tableQuery. rewrite citiesQuery_sort. unfold handleSort, loadCitiesParams.
    destruct (CityKey.eqb (TableState.sortField s) field) eqn:E.
    + apply CityKey_eqb_eq in E. cbn. rewrite E.
      destruct (TableState.sortDirection s); reflexivity.
    + reflexivity.
  - rewrite tableQuery_start. unfold handleSort.
    destruct (CityKey.eqb (TableState.sortField s) field); reflexivity.
  - intros other. rewrite !refinements_filters. unfold handleSort.
    destruct (CityKey.eqb (TableState.sortField s) field); reflexivity.
  - unfold handleSort. destruct (CityKey.eqb (TableState.sortField s) field) eqn:E.
    + cbn. rewrite E. cbn. rewrite E. cbn.
      destruct (TableState.sortDirection s); reflexivity.
    + cbn. rewrite CityKey_eqb_refl. cbn. rewrite CityKey_eqb_refl. reflexivity.
Qed.

(** X25. With at most one filter per field (the keys of the [filters]
    object are distinct, which [handleFilter] keeps), choosing a filter
    value for a field makes the next request carry that value as the
    only [refine.<field>] parameter, or none if the value is empty;
    the refinements of every other field are as before, and the
    request starts at the first row. *)
Theorem handleFilter_refines_one_field (s : TableState.t) (term : string)
        (field : CityKey.t) (value : string) :
  NoDup (filterKeys s) ->
  let s' := handleFilter s field value in
  NoDup (filterKeys s') /\
  refinements s' term field = (if truthy value then [QStr value] else []) /\
  (forall other, other <> field -> refinements s' term other = refinements s term other) /\
  paramsNamed "start" (tableQuery s' term) = [QStr "0"].
Proof.
  intros Hnd. cbv zeta. unfold filterKeys in *. split; [|split; [|split]].
  - apply withFilter_NoDup. exact Hnd.
  - rewrite refinements_filters. unfold handleFilter. cbn [TableState.filters
      TableState.setPage TableState.setFilters].
    rewrite (withFilter_same _ _ _ Hnd). destruct (truthy value); reflexivity.
  - intros other Hne. rewrite !refinements_filters. unfold handleFilter.
    cbn [TableState.filters TableState.setPage TableState.setFilters].
    rewrite (withFilter_other _ _ _ _ Hne). reflexivity.
  - rewrite tableQuery_start. reflexivity.
Qed.

(** The statement above for a second filter on a table filtered by
    country. *)
Lemma handleFilter_refines_one_field_witness :
  let s' := handleFilter frenchRows CityKey.timezone "Europe/Paris" in
  NoDup (filterKeys s') /\
  refinements s' "ly" CityKey.timezone
  = (if truthy "Europe/Paris" then [QStr "Europe/Paris"] else []) /\
  (forall other, other <> CityKey.timezone ->
     refinements s' "ly" other = refinements frenchRows "ly" other) /\
  paramsNamed "start" (tableQuery s' "ly") = [QStr "0"].
Proof.
  apply (handleFilter_refines_one_field frenchRows "ly" CityKey.timezone "Europe/Paris").
  apply NoDup_cons; [simpl; tauto | apply NoDup_nil].
Defined.

(** X26. Clearing the filter of a field removes its refinement from
    the next request and touches no other; and a filter set on a field
    that had none, then cleared, leaves the table as it was, back on
    its first page. *)
Theorem clearFilter_undoes_handleFilter (s : TableState.t) (term : string) (field : CityKey.t) :
  refinements (clearFilter s field) term field = [] /\
  (forall other, other <> field ->
     refinements (clearFilter s field) term other = refinements s term other) /\
  paramsNamed "start" (tableQuery (clearFilter s field) term) = [QStr "0"] /\
  (forall value, ~ In field (filterKeys s) ->
     clearFilter (handleFilter s field value) field = TableState.setPage 1 s).
Proof.
  split; [|split; [|split]].
  - rewrite refinements_filters. unfold clearFilter.
    cbn [TableState.filters TableState.setPage TableState.setFilters].
    rewrite withoutFilter_same. reflexivity.
  - intros other Hne. rewrite !refinements_filters. unfold clearFilter.
    cbn [TableState.filters TableState.setPage TableState.setFilters].
    rewrite (withoutFilter_other _ _ _ Hne). reflexivity.
  - rewrite tableQuery_start. reflexivity.
  - intros value Hn. unfold filterKeys in Hn.
    unfold clearFilter, handleFilter. destruct s. cbn -[withoutFilter withFilter] in *.
    rewrite (withoutFilter_withFilter _ _ _ Hn). reflexivity.
Qed.


(** ** The table: loading *)

Lemma citiesQuery_rows (params : FetchCitiesParams) :
  paramsNamed "rows" (citiesQuery params) = [QStr (Number_toString (default (limit params) 20))].
Proof.
  unfold paramsNamed, citiesQuery.
  rewrite !filter_app, refine_params_not_named by (intros k; reflexivity).
  destruct (truthy (default (search params) "")); reflexivity.
Qed.

Lemma citiesQuery_q (params : FetchCitiesParams) :
  paramsNamed "q" (citiesQuery params)
  = if truthy (default (search params) "") then [QStr (default (search params) "")] else [].
Proof.
  unfold paramsNamed, citiesQuery.
  rewrite !filter_app, refine_params_not_named by (intros k; reflexivity).
  destruct (truthy (default (search params) "")); reflexivity.
Qed.

Lemma returns_try_catch_normal {A} (m : IO A) (h : Exception -> IO A) (w : World)
      (P : A -> World -> Prop) :
  returns m w P -> returns (try_catch m h) w P.
Proof.
  intros (a & w' & Hm & HP). exists a, w'. split; [|exact HP].
  unfold try_catch. rewrite Hm. reflexivity.
Qed.


Lemma keyConfigured_effective (w : World) :
  noApiKey (effectiveKey w) = false -> keyConfigured w (effectiveKey w).
Proof.
  unfold keyConfigured, effectiveKey.
  destruct (NEXT_PUBLIC_OPENWEATHER_API_KEY w) as [k|]; [destruct (truthy k) eqn:E|];
    intros H; first [discriminate H | split; [|exact H]].
  destruct k; [discriminate E | reflexivity].
Qed.

(** Every run of [fetchWeatherForCities] ends normally, the cities
    keeping their identity; requests are sent only with a key. *)
Lemma fetchWeatherForCities_run (w : World) (cities : list City.t) (units : option Units) :
  returns (fetchWeatherForCities cities units) w (fun out w' =>
    Forall2 sameIdentity cities out /\
    sent w' = sent w ++ (if noApiKey (effectiveKey w) then []
                         else map (cityRequest (default units metric) (effectiveKey w)) cities)).
Proof.
  destruct (noApiKey (effectiveKey w)) eqn:Hk.
  - unfold fetchWeatherForCities. apply returns_bind.
    exists (effectiveKey w), w. split; [apply readApiKey_effective|]. rewrite Hk.
    eapply returns_weaken.
    + apply (returns_mapM mockCityWeather cities
               (fun n w1 => afterDraws (5 * n) w w1) mockedWeather w) with (n := 0%nat).
      * intros n city w1 _ Hw1.
        eapply returns_weaken; [apply mockCityWeather_run|].
        intros c w2 (Hc & Hw2). split; [exact Hc|].
        replace (5 * S n)%nat with (5 * n + 5)%nat by lia.
        apply (afterDraws_trans _ _ _ _ _ Hw1 Hw2).
      * apply afterDraws_refl.
    + intros out w' (HF & Hw'). split.
      * eapply Forall2_impl; [|exact HF]. intros a b [H _]. exact H.
      * rewrite app_nil_r. apply Hw'.
  - eapply returns_weaken;
      [apply (fetchWeatherForCities_configured w (effectiveKey w) cities units
                (keyConfigured_effective w Hk))|].
    intros out w' (Hout & Hsent & _).
    split; [rewrite Hout; apply cityOutcomes_sameIdentity | exact Hsent].
Qed.

Lemma NoDup_map_In_eq {A B} (f : A -> B) (l : list A) (a c : A) :
  NoDup (map f l) -> In a l -> In c l -> f a = f c -> a = c.
Proof.
  induction l as [|x l IH]; cbn [map]; intros Hnd Ha Hc Hf; [contradiction|].
  inversion Hnd as [|y l' Hx Hnd']; subst.
  destruct Ha as [->|Ha], Hc as [->|Hc]; [reflexivity| | |auto].
  - exfalso. apply Hx. rewrite Hf. apply in_map. exact Hc.
  - exfalso. apply Hx. rewrite <- Hf. apply in_map. exact Ha.
Qed.

Lemma Forall2_map_In {A B} (R : A -> B -> Prop) (f : A -> B) (l : list A) :
  (forall a, In a l -> R a (f a)) -> Forall2 R l (map f l).
Proof.
  induction l as [|x l IH]; intros H; cbn [map]; constructor.
  - apply H. left. reflexivity.
  - apply IH. intros a Ha. apply H. right. exact Ha.
Qed.

Lemma sameRow_refl (c : City.t) : sameRow c c.
Proof. split; [repeat split | reflexivity]. Qed.

(** Merging the updated cities back: with distinct ids every row keeps
    its identity, and a row that had its weather is left alone. *)
Lemma mergeCity_rows (rows updatedCities : list City.t) :
  NoDup (map City.id rows) ->
  Forall2 sameIdentity (filter hasNoWeather rows) updatedCities ->
  Forall2 sameRow rows (map (mergeCity updatedCities) rows).
Proof.
  intros Hnd HF. apply Forall2_map_In. intros c Hc. unfold mergeCity.
  destruct (find (fun u => String.eqb (City.id u) (City.id c)) updatedCities) as [u|] eqn:Ef;
    [|apply sameRow_refl].
  apply find_some in Ef. destruct Ef as [Hu Hid]. apply String.eqb_eq in Hid.
  destruct (Forall2_In_r _ _ _ _ HF Hu) as (a & Ha & Hau).
  apply filter_In in Ha. destruct Ha as [Ha Hno].
  assert (a = c) as ->.
  { apply (NoDup_map_In_eq City.id rows a c Hnd Ha Hc).
    destruct Hau as [Hid' _]. congruence. }
  split; [exact Hau|].
  intros Hw. exfalso. unfold hasNoWeather in Hno.
  destruct (City.weather c); [discriminate Hno | apply Hw; reflexivity].
Qed.

(** X28. On a table whose rows have distinct ids, [loadWeatherData]
    ends normally and keeps the rows: same number, same order, each
    with the identity it had, and a row that already had its weather
    exactly as it was. It asks the provider about the rows without
    weather only, one request each with a key and none without; when
    every row has its weather it does nothing at all. The [error]
    message is untouched and [weatherLoading] is false at the end. *)
Theorem loadWeatherData_keeps_rows (w : World) (s : TableState.t) :
  NoDup (map City.id (TableState.cities s)) ->
  returns (loadWeatherData s) w (fun s' w' =>
    Forall2 sameRow (TableState.cities s) (TableState.cities s') /\
    TableState.weatherLoading s' = false /\
    TableState.error s' = TableState.error s /\
    sent w' = sent w ++ (if noApiKey (effectiveKey w) then []
                         else map (cityRequest (TableState.units s) (effectiveKey w))
                                  (filter hasNoWeather (TableState.cities s))) /\
    ((forall c, In c (TableState.cities s) -> City.weather c <> None) ->
     w' = w /\ TableState.cities s' = TableState.cities s)).
Proof.
  intros Hnd. unfold loadWeatherData. cbv zeta. apply returns_try_catch_normal.
  destruct (filter hasNoWeather (TableState.cities s)) as [|c0 rest] eqn:Ef.
  - change (length_of (@nil City.t) =? 0) with true. cbv iota. apply returns_ret.
    split; [|split; [reflexivity|split; [reflexivity|split]]].
    + change (TableState.cities _) with (TableState.cities s) at 2.
      rewrite <- (map_id (TableState.cities s)) at 2.
      apply Forall2_map_In. intros c _. apply sameRow_refl.
    + destruct (noApiKey (effectiveKey w)); rewrite app_nil_r; reflexivity.
    + intros _. split; reflexivity.
  - assert (Hlen : (length_of (c0 :: rest) =? 0) = false).
    { apply Z.eqb_neq. unfold length_of. cbn [List.length]. lia. }
    rewrite Hlen. rewrite <- Ef. apply returns_bind.
    eapply returns_weaken; [apply fetchWeatherForCities_run|].
    intros updatedCities w' (HF & Hsent). apply returns_ret.
    split; [|split; [reflexivity|split; [reflexivity|split]]].
    + apply (mergeCity_rows _ _ Hnd HF).
    + exact Hsent.
    + intros Hall. exfalso.
      assert (Hin : In c0 (filter hasNoWeather (TableState.cities s)))
        by (rewrite Ef; left; reflexivity).
      apply filter_In in Hin. destruct Hin as [Hin Hno].
      apply (Hall c0 Hin). unfold hasNoWeather in Hno.
      destruct (City.weather c0); [discriminate Hno | reflexivity].
Qed.

(** The statement above for three cities without weather, the provider
    answering. *)
Lemma loadWeatherData_keeps_rows_witness :
  returns (loadWeatherData threeRows) online (fun s' w' =>
    Forall2 sameRow (TableState.cities threeRows) (TableState.cities s') /\
    TableState.weatherLoading s' = false /\
    TableState.error s' = TableState.error threeRows /\
    sent w' = sent online ++ (if noApiKey (effectiveKey online) then []
                              else map (cityRequest (TableState.units threeRows)
                                                    (effectiveKey online))
                                       (filter hasNoWeather (TableState.cities threeRows))) /\
    ((forall c, In c (TableState.cities threeRows) -> City.weather c <> None) ->
     w' = online /\ TableState.cities s' = TableState.cities threeRows)).
Proof.
  apply (loadWeatherData_keeps_rows online threeRows).
  repeat (apply NoDup_cons; [simpl; intuition discriminate|]). apply NoDup_nil.
Defined.

(** X29. The suggestions effect sends nothing for a search text of
    fewer than two characters: it empties and hides the list. For a
    longer text it sends one request, for the first five rows that
    match the text, never fails, and shows what [fetchCities]
    returned. *)
Theorem suggestionsEffect_needs_two_characters (w : World) (s : TableState.t) :
  let term := TableState.searchTerm s in
  returns (suggestionsEffect s) w (fun s' w' =>
    if 1 <? Z.of_nat (String.length term)
    then exists data,
           fetchCities (suggestionsParams term) w = (Normal data, w') /\
           TableState.suggestions s' = cities data /\
           TableState.showSuggestions s' = true /\
           sent w' = sent w ++ [citiesRequest (suggestionsParams term)] /\
           paramsNamed "q" (citiesQuery (suggestionsParams term)) = [QStr term] /\
           paramsNamed "rows" (citiesQuery (suggestionsParams term)) = [QStr "5"] /\
           paramsNamed "start" (citiesQuery (suggestionsParams term)) = [QStr "0"]
    else w' = w /\ TableState.suggestions s' = [] /\ TableState.showSuggestions s' = false).
Proof.
  cbv zeta. unfold suggestionsEffect.
  destruct (1 <? Z.of_nat (String.length (TableState.searchTerm s))) eqn:E.
  - destruct (fetchCities_run w (suggestionsParams (TableState.searchTerm s)))
      as (data & w' & Hrun & Hsent & _); [apply Z.leb_le; reflexivity|].
    apply returns_try_catch_normal. apply returns_bind.
    exists data, w'. split; [exact Hrun|]. apply returns_ret.
    exists data. split; [exact Hrun|].
    split; [reflexivity|]. split; [reflexivity|]. split; [exact Hsent|].
    split; [|split; [rewrite citiesQuery_rows | rewrite citiesQuery_start]; reflexivity].
    rewrite citiesQuery_q. cbn [search suggestionsParams default].
    destruct (TableState.searchTerm s); [discriminate E | reflexivity].
  - apply returns_ret. repeat split; reflexivity.
Qed.

(** ** The weather display *)

(** X30. The weather display never shows its failure message: since
    [fetchWeather] substitutes mock data instead of throwing, the load
    ends normally with [error] null and [loading] false, showing the
    current weather and the forecast that [fetchWeather] returned for
    the coordinates of the city in the units selected. *)
Theorem WeatherDisplay_load_never_fails (w : World) (city : City.t) (s : DisplayState.t) :
  returns (WeatherDisplay.loadWeatherData city s) w (fun s' w' =>
    exists res,
      fetchWeather (mkWeatherParams (City.latitude city) (City.longitude city)
                                    (Some (DisplayState.units s))) w = (Normal res, w') /\
      DisplayState.error s' = None /\
      DisplayState.loading s' = false /\
      DisplayState.currentWeather s' = Some (current res) /\
      DisplayState.forecast s' = Some (forecast res) /\
      DisplayState.units s' = DisplayState.units s).
Proof.
  destruct (fetchWeather_run w (mkWeatherParams (City.latitude city) (City.longitude city)
                                                (Some (DisplayState.units s))))
    as (res & w' & Hrun & _).
  unfold WeatherDisplay.loadWeatherData. cbv zeta. apply returns_try_catch_normal.
  apply returns_bind. exists res, w'. split; [exact Hrun|]. apply returns_ret.
  exists res. split; [exact Hrun|]. repeat split; reflexivity.
Qed.
